(** * Automation contracts: capability and contract validation

    A shallow embedding of
    [src/domain/semantic-automation/semantest-capability.entity.ts] and
    [src/domain/semantic-automation/semantest-contract.entity.ts].

    Layout: the JavaScript values the code handles, exceptions, dates,
    the data model of the two files, the mutable store (object maps and
    the system clock), the operations of [SemanTestCapability] and
    [SemanTestContract], and finally the properties. *)

From Stdlib Require Import ZArith List String Ascii Bool Lia DecimalString.
Import ListNotations.
Open Scope string_scope.
Open Scope Z_scope.

Set Warnings "-register-all".

(** ** JavaScript values *)

Module Js.

(** Values of TypeScript type [any] as they reach the validation code.
    The universe is the JSON one plus [undefined]; numbers are the
    integers (fractions, NaN and infinities are left out).  Arrays and
    objects carry the identity [ref] of the heap object they stand for:
    [===] and [Array.prototype.includes] compare objects by identity. *)
Inductive JsValue : Type :=
| VUndefined
| VNull
| VBoolean (b : bool)
| VNumber (n : Z)
| VString (s : string)
| VArray (ref : nat) (elems : list JsValue)
| VObject (ref : nat) (props : list (string * JsValue)).

(** The [typeof] operator. *)
Definition typeof (v : JsValue) : string :=
  match v with
  | VUndefined => "undefined"
  | VNull => "object"
  | VBoolean _ => "boolean"
  | VNumber _ => "number"
  | VString _ => "string"
  | VArray _ _ => "object"
  | VObject _ _ => "object"
  end.

(** [Array.isArray]. *)
Definition Array_isArray (v : JsValue) : bool :=
  match v with
  | VArray _ _ => true
  | _ => false
  end.


(** [Number.prototype.toString] on a safe integer: its decimal digits.
    (From 10^21 on JavaScript prints the exponent form, which this
    function does not; a statement that pins the digits of a number
    other than an index or a literal assumes [safe_integer].) *)
Definition Number_toString (n : Z) : string :=
  NilZero.string_of_int (Z.to_int n).

(** [Array.prototype.join] once the elements are converted. *)
Fixpoint join (parts : list string) (sep : string) : string :=
  match parts with
  | [] => ""
  | [p] => p
  | p :: rest => p ++ sep ++ join rest sep
  end.

(** The abstract operation [ToString] of a template literal or of
    [join]; inside [join] an [undefined] or [null] element prints as the
    empty string. *)
Fixpoint ToString (v : JsValue) : string :=
  match v with
  | VUndefined => "undefined"
  | VNull => "null"
  | VBoolean true => "true"
  | VBoolean false => "false"
  | VNumber n => Number_toString n
  | VString s => s
  | VArray _ elems =>
      join (map (fun e => match e with
                          | VUndefined | VNull => ""
                          | _ => ToString e
                          end) elems) ","
  | VObject _ _ => "[object Object]"
  end.

Definition Array_join (elems : list JsValue) (sep : string) : string :=
  join (map (fun e => match e with
                      | VUndefined | VNull => ""
                      | _ => ToString e
                      end) elems) sep.


(** [SameValueZero], the comparison of [Array.prototype.includes]:
    primitives by value, arrays and objects by identity. *)
Definition SameValueZero (x y : JsValue) : bool :=
  match x, y with
  | VUndefined, VUndefined => true
  | VNull, VNull => true
  | VBoolean a, VBoolean b => Bool.eqb a b
  | VNumber a, VNumber b => Z.eqb a b
  | VString a, VString b => String.eqb a b
  | VArray r _, VArray r' _ => Nat.eqb r r'
  | VObject r _, VObject r' _ => Nat.eqb r r'
  | _, _ => false
  end.

Definition Array_includes (elems : list JsValue) (v : JsValue) : bool :=
  existsb (fun e => SameValueZero e v) elems.

(** Truthiness of a string and of a number ([!s], [n && ...]). *)
Definition truthy_string (s : string) : bool := negb (String.eqb s "").
Definition truthy_number (n : Z) : bool := negb (Z.eqb n 0).

(** An optional property: [None] is [undefined]. *)
Definition truthy_opt {A : Type} (truthy : A -> bool) (o : option A) : bool :=
  match o with
  | Some a => truthy a
  | None => false
  end.

(** [String.prototype.includes]. *)
Fixpoint String_includes (s sub : string) : bool :=
  String.prefix sub s ||
  match s with
  | EmptyString => false
  | String _ s' => String_includes s' sub
  end.

(** White space of [String.prototype.trim] among the Latin-1 code units:
    TAB, LF, VT, FF, CR, SP and NBSP. *)
Definition isWhiteSpace (a : ascii) : bool :=
  let n := N.to_nat (N_of_ascii a) in
  (Nat.leb 9 n && Nat.leb n 13) || Nat.eqb n 32 || Nat.eqb n 160.

Fixpoint trimStart (s : string) : string :=
  match s with
  | EmptyString => EmptyString
  | String a s' => if isWhiteSpace a then trimStart s' else s
  end.

Fixpoint trimEnd (s : string) : string :=
  match s with
  | EmptyString => EmptyString
  | String a s' =>
      let r := trimEnd s' in
      if isWhiteSpace a && String.eqb r "" then EmptyString else String a r
  end.

Definition trim (s : string) : string := trimEnd (trimStart s).

(** A plain object of type [Record<string, V>], or a [Map<string, V>]:
    its own enumerable properties (its entries) in the order
    [Object.entries] yields them.  A plain object also has the
    properties it inherits from [Object.prototype], below. *)
Definition JsRecord (V : Type) : Type := list (string * V).

(** The names of the properties of [Object.prototype]: every plain
    object inherits them. *)
Definition Object_prototype_names : list string :=
  ["constructor"; "__defineGetter__"; "__defineSetter__"; "hasOwnProperty";
   "__lookupGetter__"; "__lookupSetter__"; "isPrototypeOf"; "propertyIsEnumerable";
   "toString"; "valueOf"; "__proto__"; "toLocaleString"].

Definition inherited (key : string) : bool :=
  existsb (String.eqb key) Object_prototype_names.

Definition isDigit (a : ascii) : bool :=
  let n := N_of_ascii a in ((48 <=? n) && (n <=? 57))%N.

Fixpoint all_digits (s : string) : bool :=
  match s with
  | EmptyString => true
  | String a s' => isDigit a && all_digits s'
  end.

(** A key that an assignment on a plain object adds after the keys the
    object has.  It holds a character that is not a digit, so that it
    is not an integer index, which the object enumerates before its
    other keys; and it is not ["__proto__"], an assignment to which
    sets the prototype and adds no property. *)
Definition ordinary_key (key : string) : bool :=
  negb (all_digits key) && negb (String.eqb key "__proto__").

(** The value of [obj[key]] on a plain object: the value of the own
    property, else the member of [Object.prototype] of that name, else
    [undefined]. *)
Inductive Member (V : Type) : Type :=
| OwnValue (v : V)
| InheritedValue (key : string)
| Undefined.
Arguments OwnValue {V} v.
Arguments InheritedValue {V} key.
Arguments Undefined {V}.

Section Records.
Context {V : Type}.

(** [key] is an own property of [obj]: [Object.keys(obj).includes(key)],
    and [Map.prototype.has]. *)
Definition has_key (key : string) (obj : JsRecord V) : bool :=
  existsb (fun kv => String.eqb (fst kv) key) obj.

(** [key in obj] on a plain object: an own or an inherited property. *)
Definition has_property (key : string) (obj : JsRecord V) : bool :=
  has_key key obj || inherited key.

Definition Object_keys (obj : JsRecord V) : list string := map fst obj.

Definition Object_entries (obj : JsRecord V) : list (string * V) := obj.

(** [obj[key] = v] and [Map.prototype.set]: an existing entry keeps its
    place, a new one goes last.  (On a plain object this is the order
    of the keys for an [ordinary_key]; the statements that pin the
    order of the keys of an object after an assignment assume one.) *)
Fixpoint set_property (key : string) (v : V) (obj : JsRecord V) : JsRecord V :=
  match obj with
  | [] => [(key, v)]
  | (k, x) :: rest =>
      if String.eqb k key then (k, v) :: rest
      else (k, x) :: set_property key v rest
  end.

(** [delete obj[key]]. *)
Definition delete_property (key : string) (obj : JsRecord V) : JsRecord V :=
  filter (fun kv => negb (String.eqb (fst kv) key)) obj.

(** The value of the own property [key], and [Map.prototype.get]. *)
Definition get_property (key : string) (obj : JsRecord V) : option V :=
  match find (fun kv => String.eqb (fst kv) key) obj with
  | Some kv => Some (snd kv)
  | None => None
  end.

(** [obj[key]] on a plain object. *)
Definition get_member (key : string) (obj : JsRecord V) : Member V :=
  match get_property key obj with
  | Some v => OwnValue v
  | None => if inherited key then InheritedValue key else Undefined
  end.
End Records.

(** *** Exceptions *)

(** A thrown [Error] object. *)
Record JsError : Type := { error_name : string; error_message : string }.

(** A computation that returns normally or throws. *)
Inductive Result (A : Type) : Type :=
| Ok (a : A)
| Throw (e : JsError).
Arguments Ok {A} a.
Arguments Throw {A} e.

Definition bindR {A B : Type} (r : Result A) (k : A -> Result B) : Result B :=
  match r with
  | Ok a => k a
  | Throw e => Throw e
  end.

(** [try { body } catch (error) { handler }]. *)
Definition try_catchR {A : Type} (body : Result A) (handler : JsError -> Result A)
  : Result A :=
  match body with
  | Ok a => Ok a
  | Throw e => handler e
  end.

(** [for (const x of xs) body], the loop carrying the local variables
    [S] it updates; a throw in the body leaves the loop. *)
Fixpoint for_of {X S : Type} (xs : list X) (body : X -> S -> Result S) (s : S)
  : Result S :=
  match xs with
  | [] => Ok s
  | x :: rest => bindR (body x s) (for_of rest body)
  end.

End Js.
Export Js.

Declare Scope result_scope.
Delimit Scope result_scope with result.
Notation "x <- r ;; k" := (bindR r (fun x => k))
  (at level 61, r at next level, right associativity) : result_scope.
Notation "' p <- r ;; k" := (bindR r (fun x => match x with p => k end))
  (at level 61, p pattern, r at next level, right associativity) : result_scope.

(** ** Dates *)

(** The built-in [Date]: a time value in milliseconds since the epoch,
    or the object [new Date(NaN)] ("Invalid Date").  [toISOString] and
    the parsing constructor follow ECMA-262 (proleptic Gregorian
    calendar, UTC, the date-time string format
    [YYYY-MM-DDTHH:mm:ss.sssZ] with the expanded years [+YYYYYY] and
    [-YYYYYY]). *)
Module JsDate.

Inductive Date : Type :=
| InvalidDate
| TimeValue (t : Z).

Definition msPerDay : Z := 86400000.

(** The largest magnitude of a time value ([TimeClip]). *)
Definition maxTime : Z := 8640000000000000.

Definition valid_time (t : Z) : Prop := - maxTime <= t <= maxTime.

Definition TimeClip (t : Z) : Date :=
  if (- maxTime <=? t) && (t <=? maxTime) then TimeValue t else InvalidDate.

(** Year, month (1 to 12) and day of the month of a day number, on the
    400-year cycle of 146097 days starting on 1 March of year 0. *)
Definition YearMonthDate (day : Z) : Z * Z * Z :=
  let z := day + 719468 in
  let era := z / 146097 in
  let doe := z - era * 146097 in
  let yoe := (doe - doe / 1460 + doe / 36524 - doe / 146096) / 365 in
  let doy := doe - (365 * yoe + yoe / 4 - yoe / 100) in
  let mp := (5 * doy + 2) / 153 in
  let d := doy - (153 * mp + 2) / 5 + 1 in
  let m := if mp <? 10 then mp + 3 else mp - 9 in
  (yoe + era * 400 + (if m <=? 2 then 1 else 0), m, d).

(** [MakeDay]: the day number of a calendar date. *)
Definition MakeDay (y m d : Z) : Z :=
  let y := y - (if m <=? 2 then 1 else 0) in
  let era := y / 400 in
  let yoe := y - era * 400 in
  let mp := if 2 <? m then m - 3 else m + 9 in
  let doy := (153 * mp + 2) / 5 + d - 1 in
  let doe := yoe * 365 + yoe / 4 - yoe / 100 + doy in
  era * 146097 + doe - 719468.

Definition digit_char (d : Z) : ascii := ascii_of_nat (48 + Z.to_nat d).

Definition digit_value (c : ascii) : option Z :=
  let n := Z.of_N (N_of_ascii c) in
  if (48 <=? n) && (n <=? 57) then Some (n - 48) else None.

(** [n] written with exactly [w] decimal digits. *)
Fixpoint pad (w : nat) (n : Z) : string :=
  match w with
  | O => EmptyString
  | S w' => String (digit_char (n / 10 ^ Z.of_nat w')) (pad w' (n mod 10 ^ Z.of_nat w'))
  end.

(** Reads exactly [w] decimal digits. *)
Fixpoint read_digits (w : nat) (s : string) (acc : Z) : option (Z * string) :=
  match w with
  | O => Some (acc, s)
  | S w' =>
      match s with
      | EmptyString => None
      | String c s' =>
          match digit_value c with
          | Some d => read_digits w' s' (acc * 10 + d)
          | None => None
          end
      end
  end.

Definition expect (c : ascii) (s : string) : option string :=
  match s with
  | String c' s' => if Ascii.eqb c c' then Some s' else None
  | EmptyString => None
  end.

Definition year_string (y : Z) : string :=
  if (0 <=? y) && (y <=? 9999) then pad 4 y
  else if y <? 0 then String "-" (pad 6 (- y))
  else String "+" (pad 6 y).

Definition read_year (s : string) : option (Z * string) :=
  match s with
  | String "+" s' => read_digits 6 s' 0
  | String "-" s' =>
      match read_digits 6 s' 0 with
      | Some (y, rest) => if y =? 0 then None else Some (- y, rest)
      | None => None
      end
  | _ => read_digits 4 s 0
  end.

(** [Date.prototype.toISOString]; a [RangeError] on an invalid date. *)
Definition toISOString (d : Date) : Result string :=
  match d with
  | InvalidDate =>
      Throw {| error_name := "RangeError"; error_message := "Invalid time value" |}
  | TimeValue t =>
      let day := t / msPerDay in
      let ms := t mod msPerDay in
      let '(y, m, dd) := YearMonthDate day in
      Ok (year_string y ++ "-" ++ pad 2 m ++ "-" ++ pad 2 dd ++ "T"
          ++ pad 2 (ms / 3600000) ++ ":" ++ pad 2 (ms / 60000 mod 60) ++ ":"
          ++ pad 2 (ms / 1000 mod 60) ++ "." ++ pad 3 (ms mod 1000) ++ "Z")
  end.

Definition bindO {A B : Type} (o : option A) (k : A -> option B) : option B :=
  match o with
  | Some a => k a
  | None => None
  end.

Definition parse_fields (s : string) : option (Z * Z * Z * Z * Z * Z * Z) :=
  bindO (read_year s) (fun '(y, s) =>
  bindO (expect "-" s) (fun s =>
  bindO (read_digits 2 s 0) (fun '(m, s) =>
  bindO (expect "-" s) (fun s =>
  bindO (read_digits 2 s 0) (fun '(d, s) =>
  bindO (expect "T" s) (fun s =>
  bindO (read_digits 2 s 0) (fun '(h, s) =>
  bindO (expect ":" s) (fun s =>
  bindO (read_digits 2 s 0) (fun '(mi, s) =>
  bindO (expect ":" s) (fun s =>
  bindO (read_digits 2 s 0) (fun '(sec, s) =>
  bindO (expect "." s) (fun s =>
  bindO (read_digits 3 s 0) (fun '(milli, s) =>
  bindO (expect "Z" s) (fun s =>
  match s with
  | EmptyString => Some (y, m, d, h, mi, sec, milli)
  | _ => None
  end)))))))))))))).

(** [new Date(s)] on a string in the form [toISOString] writes, the
    complete date-time string in UTC: its time value.  The other forms
    that [new Date] reads (a date alone, a local time, the forms of a
    host) are left out: they come out as [InvalidDate] here, and the
    statements on [fromJSON] take their strings from [toISOString]. *)
Definition Date_of_string (s : string) : Date :=
  match parse_fields s with
  | Some (y, m, d, h, mi, sec, milli) =>
      if (1 <=? m) && (m <=? 12) && (1 <=? d) && (d <=? 31)
         && (h <=? 23) && (mi <=? 59) && (sec <=? 59)
      then TimeClip (MakeDay y m d * msPerDay
                     + h * 3600000 + mi * 60000 + sec * 1000 + milli)
      else InvalidDate
  | None => InvalidDate
  end.

End JsDate.
Export JsDate.

(** ** Data model *)

(** The interfaces of the two source files.  An optional property
    [p?: T] is an [option T], [None] standing for [undefined]; a field
    is named by its interface and its property. *)

(** [ParameterType]. *)
Inductive ParameterType : Type :=
| PString | PNumber | PBoolean | PObject | PArray | PFile.

(** The string a [ParameterType] is at run time. *)
Definition ParameterType_name (t : ParameterType) : string :=
  match t with
  | PString => "string"
  | PNumber => "number"
  | PBoolean => "boolean"
  | PObject => "object"
  | PArray => "array"
  | PFile => "file"
  end.

Record ParameterValidation : Type := {
  minLength : option Z;
  maxLength : option Z;
  pattern : option string;
  minimum : option Z;
  maximum : option Z;
  enum : option (list JsValue)
}.

Record ParameterDefinition : Type := {
  param_name : string;
  param_type : ParameterType;
  param_description : option string;
  param_required : option bool;
  param_default : option JsValue;
  param_validation : option ParameterValidation;
  param_examples : option (list JsValue)
}.

Inductive CapabilityType : Type :=
| CAction | CQuery | CNavigation | CForm | CFile | CWait | CValidation.

Definition CapabilityType_name (t : CapabilityType) : string :=
  match t with
  | CAction => "action"
  | CQuery => "query"
  | CNavigation => "navigation"
  | CForm => "form"
  | CFile => "file"
  | CWait => "wait"
  | CValidation => "validation"
  end.

Inductive WaitType : Type :=
| WVisible | WPresent | WHidden | WEnabled | WText | WCustom.

Record WaitCondition : Type := {
  wait_type : WaitType;
  wait_timeout : option Z;
  wait_text : option string;
  wait_customCondition : option string
}.

Record SelectorDefinition : Type := {
  sel_primary : string;
  sel_fallback : option (list string);
  sel_wait : option WaitCondition;
  sel_validator : option string;
  sel_frame : option string;
  sel_shadowRoot : option bool
}.

(** The union [string | SelectorDefinition]. *)
Inductive Selector : Type :=
| SelectorString (s : string)
| SelectorObject (d : SelectorDefinition).

(** [ParameterType | 'void']. *)
Inductive ReturnType : Type :=
| ReturnValue (t : ParameterType)
| ReturnVoid.

Record ReturnTypeDefinition : Type := {
  ret_type : ReturnType;
  ret_description : option string;
  ret_schema : option JsValue;
  ret_examples : option (list JsValue)
}.

Record ValidationRules : Type := {
  elementExists : option bool;
  elementVisible : option bool;
  elementEnabled : option bool;
  customValidator : option string
}.

Inductive ConditionType : Type :=
| CondElement | CondUrl | CondText | CondCustom.

Record ExecutionCondition : Type := {
  cond_type : ConditionType;
  cond_selector : option string;
  cond_urlPattern : option string;
  cond_text : option string;
  cond_customCondition : option string;
  cond_negate : option bool
}.

Record CapabilityExample : Type := {
  ex_description : string;
  ex_parameters : JsRecord JsValue;
  ex_expectedResult : option JsValue;
  ex_executionTime : option Z
}.

(** [CapabilityValidationResult] and [ValidationResult]: the two
    interfaces have the same properties. *)
Record ValidationResult : Type := {
  valid : bool;
  errors : list string;
  warnings : list string;
  timestamp : Date
}.

Definition CapabilityValidationResult : Type := ValidationResult.

(** The result type of [validateParameters]. *)
Record ParameterReport : Type := {
  params_valid : bool;
  params_errors : list string;
  params_warnings : list string
}.

Record SemanTestCapabilityProps : Type := {
  cap_id : string;
  cap_name : string;
  cap_type : CapabilityType;
  cap_description : string;
  cap_selector : Selector;
  cap_parameters : option (list ParameterDefinition);
  cap_returnType : option ReturnTypeDefinition;
  cap_validation : option ValidationRules;
  cap_timeout : option Z;
  cap_retries : option Z;
  cap_conditions : option (list ExecutionCondition);
  cap_examples : option (list CapabilityExample);
  cap_createdAt : Date;
  cap_updatedAt : Date
}.

Record RetryConfiguration : Type := {
  attempts : Z;
  delay : Z
}.

Record WorkflowStep : Type := {
  step_capability : string;
  step_parameters : option (JsRecord JsValue);
  step_condition : option ExecutionCondition;
  step_onSuccess : option string;
  step_onFailure : option string;
  step_retry : option RetryConfiguration
}.

Inductive ErrorStrategy : Type :=
| SAbort | SContinue | SRetry | SFallback.

Record ErrorHandling : Type := {
  strategy : ErrorStrategy;
  maxRetries : option Z;
  fallbackCapability : option string
}.

Record WorkflowDefinition : Type := {
  wf_description : string;
  wf_parameters : option (list ParameterDefinition);
  wf_steps : list WorkflowStep;
  wf_errorHandling : option ErrorHandling
}.

Record ContractMetadata : Type := {
  author : option string;
  tags : option (list string);
  compatibilityScore : option Z;
  validationResults : option (list ValidationResult)
}.

(** A reference to a map object of the store. *)
Definition Ref : Type := nat.

(** The properties of a contract.  The two [Record<string, _>]
    properties are mutable JavaScript objects, held by reference. *)
Record SemanTestContractProps : Type := {
  contract_id : string;
  contract_version : string;
  contract_domain : string;
  contract_title : string;
  contract_description : option string;
  contract_capabilities : Ref;
  contract_workflows : option Ref;
  contract_metadata : option ContractMetadata;
  contract_createdAt : Date;
  contract_updatedAt : Date
}.

(** ** The store and the clock *)

Module Store.

(** The map objects allocated so far, by reference, and the system
    clock: [clock k] is the time the [k]-th call of [new Date()] reads. *)
Record World : Type := {
  capabilityMaps : list (JsRecord SemanTestCapabilityProps);
  workflowMaps : list (JsRecord WorkflowDefinition);
  clock : nat -> Z;
  ticks : nat
}.

(** A method body: it reads and updates the world, and returns or
    throws. *)
Definition M (A : Type) : Type := World -> Result A * World.

Definition ret {A : Type} (a : A) : M A := fun w => (Ok a, w).

Definition bind {A B : Type} (m : M A) (k : A -> M B) : M B :=
  fun w =>
    match m w with
    | (Ok a, w') => k a w'
    | (Throw e, w') => (Throw e, w')
    end.

(** A computation that does not touch the world. *)
Definition lift {A : Type} (r : Result A) : M A := fun w => (r, w).

(** [try { body } catch (error) { handler }]. *)
Definition try_catch {A : Type} (body : M A) (handler : JsError -> M A) : M A :=
  fun w =>
    match body w with
    | (Ok a, w') => (Ok a, w')
    | (Throw e, w') => handler e w'
    end.

(** [for (const x of xs) body] in a method body. *)
Fixpoint for_each {X S : Type} (xs : list X) (body : X -> S -> M S) (s : S) : M S :=
  match xs with
  | [] => ret s
  | x :: rest => bind (body x s) (for_each rest body)
  end.

(** The world after one reading of the clock. *)
Definition tick (w : World) : World :=
  {| capabilityMaps := capabilityMaps w;
     workflowMaps := workflowMaps w;
     clock := clock w;
     ticks := S (ticks w) |}.

(** [new Date()]. *)
Definition new_Date : M Date :=
  fun w => (Ok (TimeValue (clock w (ticks w))), tick w).

(** The object a reference points to. *)
Definition capabilities_at (w : World) (r : Ref) : JsRecord SemanTestCapabilityProps :=
  nth r (capabilityMaps w) [].

Definition workflows_at (w : World) (r : Ref) : JsRecord WorkflowDefinition :=
  nth r (workflowMaps w) [].

Definition read_capabilities (r : Ref) : M (JsRecord SemanTestCapabilityProps) :=
  fun w => (Ok (capabilities_at w r), w).

Definition read_workflows (r : Ref) : M (JsRecord WorkflowDefinition) :=
  fun w => (Ok (workflows_at w r), w).

(** A fresh object with the given properties (an object literal). *)
Definition new_capabilities (obj : JsRecord SemanTestCapabilityProps) : M Ref :=
  fun w =>
    (Ok (List.length (capabilityMaps w)),
     {| capabilityMaps := (capabilityMaps w ++ [obj])%list;
        workflowMaps := workflowMaps w;
        clock := clock w;
        ticks := ticks w |}).

Definition new_workflows (obj : JsRecord WorkflowDefinition) : M Ref :=
  fun w =>
    (Ok (List.length (workflowMaps w)),
     {| capabilityMaps := capabilityMaps w;
        workflowMaps := (workflowMaps w ++ [obj])%list;
        clock := clock w;
        ticks := ticks w |}).

(** In-place update of the object at index [r]. *)
Fixpoint update_at {A : Type} (r : nat) (f : A -> A) (l : list A) : list A :=
  match l, r with
  | [], _ => []
  | x :: rest, O => f x :: rest
  | x :: rest, S r' => x :: update_at r' f rest
  end.

Definition modify_capabilities (r : Ref)
    (f : JsRecord SemanTestCapabilityProps -> JsRecord SemanTestCapabilityProps) : M unit :=
  fun w =>
    (Ok tt,
     {| capabilityMaps := update_at r f (capabilityMaps w);
        workflowMaps := workflowMaps w;
        clock := clock w;
        ticks := ticks w |}).

Definition modify_workflows (r : Ref)
    (f : JsRecord WorkflowDefinition -> JsRecord WorkflowDefinition) : M unit :=
  fun w =>
    (Ok tt,
     {| capabilityMaps := capabilityMaps w;
        workflowMaps := update_at r f (workflowMaps w);
        clock := clock w;
        ticks := ticks w |}).

End Store.
Export Store.

Declare Scope method_scope.
Delimit Scope method_scope with method.
Notation "x <- m ;; k" := (bind m (fun x => k))
  (at level 61, m at next level, right associativity) : method_scope.
Notation "' p <- m ;; k" := (bind m (fun x => match x with p => k end))
  (at level 61, p pattern, m at next level, right associativity) : method_scope.
Notation "m ;; k" := (bind m (fun _ => k))
  (at level 61, right associativity) : method_scope.

(** [array.push(x)] on a local array. *)
Definition push {A : Type} (l : list A) (x : A) : list A := (l ++ [x])%list.

(** [array.entries()]: the elements with their indices. *)
Definition Array_entries {A : Type} (l : list A) : list (nat * A) :=
  combine (seq 0 (List.length l)) l.

(** ** [SemanTestCapability] *)

Module SemanTestCapability.

(** Modelled from the spec: the base class [Entity] ([../entity]) is
    not among the sources.  The entities are "immutable value records"
    and their "accessors are pure projections of stored fields": an
    entity is its read-only [props], and [this.get(key)] is the
    projection of the property [key]. *)
Definition t : Type := SemanTestCapabilityProps.

Definition getId (this : t) : string := cap_id this.
Definition getName (this : t) : string := cap_name this.
Definition getType (this : t) : CapabilityType := cap_type this.
Definition getDescription (this : t) : string := cap_description this.
Definition getSelector (this : t) : Selector := cap_selector this.

Definition getPrimarySelector (this : t) : string :=
  match getSelector this with
  | SelectorString selector => selector
  | SelectorObject selector => sel_primary selector
  end.

Definition getFallbackSelectors (this : t) : list string :=
  match getSelector this with
  | SelectorString _ => []
  | SelectorObject selector =>
      match sel_fallback selector with
      | Some fallback => fallback
      | None => []
      end
  end.

Definition getAllSelectors (this : t) : list string :=
  getPrimarySelector this :: getFallbackSelectors this.

(** [this.get('parameters') || []]: an array is always truthy. *)
Definition getParameters (this : t) : list ParameterDefinition :=
  match cap_parameters this with
  | Some parameters => parameters
  | None => []
  end.

Definition getRequiredParameters (this : t) : list ParameterDefinition :=
  filter (fun param => truthy_opt (fun b : bool => b) (param_required param))
         (getParameters this).

Definition getOptionalParameters (this : t) : list ParameterDefinition :=
  filter (fun param => negb (truthy_opt (fun b : bool => b) (param_required param)))
         (getParameters this).

Definition getParameter (this : t) (name : string) : option ParameterDefinition :=
  find (fun param => String.eqb (param_name param) name) (getParameters this).

Definition hasParameter (this : t) (name : string) : bool :=
  existsb (fun param => String.eqb (param_name param) name) (getParameters this).

Definition getReturnType (this : t) : option ReturnTypeDefinition := cap_returnType this.
Definition getValidation (this : t) : option ValidationRules := cap_validation this.
Definition getTimeout (this : t) : option Z := cap_timeout this.
Definition getRetries (this : t) : option Z := cap_retries this.

Definition getConditions (this : t) : list ExecutionCondition :=
  match cap_conditions this with
  | Some conditions => conditions
  | None => []
  end.

Definition getExamples (this : t) : list CapabilityExample :=
  match cap_examples this with
  | Some examples => examples
  | None => []
  end.

Definition getCreatedAt (this : t) : Date := cap_createdAt this.
Definition getUpdatedAt (this : t) : Date := cap_updatedAt this.

Definition requiresParameters (this : t) : bool :=
  (0 <? List.length (getRequiredParameters this))%nat.

Section Validation.

(** [new RegExp(pattern)]: a [SyntaxError] when the pattern does not
    compile, else the predicate [test] of the compiled expression.  The
    regular-expression engine belongs to the host. *)
Variable RegExp : string -> Result (string -> bool).

(** The first loop of [validateParameters]: the required parameters,
    each tested with [requiredParam.name in parameters]. *)
Definition check_required (parameters : JsRecord JsValue)
    (errors : list string) (requiredParam : ParameterDefinition) : list string :=
  if negb (has_property (param_name requiredParam) parameters)
  then push errors ("Required parameter '" ++ param_name requiredParam ++ "' is missing")
  else errors.

(** The type check of one provided argument. *)
Definition check_type (paramName : string) (paramValue : JsValue)
    (paramDef : ParameterDefinition) (errors : list string) : list string :=
  let expectedType := ParameterType_name (param_type paramDef) in
  let actualType := typeof paramValue in
  if String.eqb expectedType "array" && negb (Array_isArray paramValue)
  then push errors ("Parameter '" ++ paramName ++ "' expected array, got " ++ actualType)
  else if negb (String.eqb expectedType "array") && negb (String.eqb actualType expectedType)
  then push errors ("Parameter '" ++ paramName ++ "' expected " ++ expectedType
                    ++ ", got " ++ actualType)
  else errors.

(** The rules under [if (typeof paramValue === 'string')]. *)
Definition check_string_rules (paramName : string) (paramValue : JsValue)
    (validation : ParameterValidation) (errors : list string) : Result (list string) :=
  match paramValue with
  | VString value =>
      let errors :=
        match minLength validation with
        | Some min =>
            if truthy_number min && (Z.of_nat (String.length value) <? min)
            then push errors ("Parameter '" ++ paramName ++ "' must be at least "
                              ++ Number_toString min ++ " characters")
            else errors
        | None => errors
        end in
      let errors :=
        match maxLength validation with
        | Some max =>
            if truthy_number max && (max <? Z.of_nat (String.length value))
            then push errors ("Parameter '" ++ paramName ++ "' must be at most "
                              ++ Number_toString max ++ " characters")
            else errors
        | None => errors
        end in
      match pattern validation with
      | Some pat =>
          if truthy_string pat
          then (re <- RegExp pat ;;
                Ok (if negb (re value)
                    then push errors ("Parameter '" ++ paramName
                                      ++ "' does not match required pattern")
                    else errors))%result
          else Ok errors
      | None => Ok errors
      end
  | _ => Ok errors
  end.

(** The rules under [if (typeof paramValue === 'number')]. *)
Definition check_number_rules (paramName : string) (paramValue : JsValue)
    (validation : ParameterValidation) (errors : list string) : list string :=
  match paramValue with
  | VNumber value =>
      let errors :=
        match minimum validation with
        | Some min =>
            if value <? min
            then push errors ("Parameter '" ++ paramName ++ "' must be at least "
                              ++ Number_toString min)
            else errors
        | None => errors
        end in
      match maximum validation with
      | Some max =>
          if max <? value
          then push errors ("Parameter '" ++ paramName ++ "' must be at most "
                            ++ Number_toString max)
          else errors
      | None => errors
      end
  | _ => errors
  end.

(** The [enum] rule. *)
Definition check_enum (paramName : string) (paramValue : JsValue)
    (validation : ParameterValidation) (errors : list string) : list string :=
  match enum validation with
  | Some allowed =>
      if negb (Array_includes allowed paramValue)
      then push errors ("Parameter '" ++ paramName ++ "' must be one of: "
                        ++ Array_join allowed ", ")
      else errors
  | None => errors
  end.

(** The body of the second loop of [validateParameters], on the local
    arrays [errors] and [warnings]. *)
Definition check_argument (this : t) (entry : string * JsValue)
    (acc : list string * list string) : Result (list string * list string) :=
  let '(paramName, paramValue) := entry in
  let '(errors, warnings) := acc in
  match getParameter this paramName with
  | None => Ok (errors, push warnings ("Unknown parameter '" ++ paramName ++ "' provided"))
  | Some paramDef =>
      let errors := check_type paramName paramValue paramDef errors in
      match param_validation paramDef with
      | Some validation =>
          (errors <- check_string_rules paramName paramValue validation errors ;;
           let errors := check_number_rules paramName paramValue validation errors in
           let errors := check_enum paramName paramValue validation errors in
           Ok (errors, warnings))%result
      | None => Ok (errors, warnings)
      end
  end.

Definition validateParameters (this : t) (parameters : JsRecord JsValue)
  : Result ParameterReport :=
  let errors := fold_left (check_required parameters) (getRequiredParameters this) [] in
  ('(errors, warnings) <-
     for_of (Object_entries parameters) (check_argument this) (errors, []) ;;
   Ok {| params_valid := (List.length errors =? 0)%nat;
         params_errors := errors;
         params_warnings := warnings |})%result.

(** [isValidCSSSelector]; the string operations of its [try] block do
    not throw, so its [catch] is never entered. *)
Definition isValidCSSSelector (selector : string) : bool :=
  (0 <? String.length (trim selector))%nat
  && negb (String_includes selector "><")
  && negb (String_includes selector "<<").

(** The selector block of [validate]; no statement of the [try] block
    throws after a [push], so the handler sees the entry value of
    [warnings]. *)
Definition check_selectors (this : t) (warnings : list string) : Result (list string) :=
  try_catchR
    (let primarySelector := getPrimarySelector this in
     let warnings :=
       if truthy_string primarySelector && negb (isValidCSSSelector primarySelector)
       then push warnings "Primary selector may not be valid CSS"
       else warnings in
     let fallbackSelectors := getFallbackSelectors this in
     for_of fallbackSelectors
       (fun selector warnings =>
          Ok (if negb (isValidCSSSelector selector)
              then push warnings ("Fallback selector '" ++ selector
                                  ++ "' may not be valid CSS")
              else warnings))
       warnings)
    (fun _ => Ok (push warnings "Could not validate selector syntax")).

(** The body of the loop over the parameters; [paramNames] is the
    [Set] of the names seen. *)
Definition check_parameter (acc : list string * list string) (param : ParameterDefinition)
  : list string * list string :=
  let '(paramNames, errors) := acc in
  let errors :=
    if existsb (String.eqb (param_name param)) paramNames
    then push errors ("Duplicate parameter name: " ++ param_name param)
    else errors in
  let paramNames := param_name param :: paramNames in
  let errors :=
    if negb (truthy_string (param_name param))
    then push errors "Parameter name is required"
    else errors in
  let errors :=
    if negb (truthy_string (ParameterType_name (param_type param)))
    then push errors ("Parameter '" ++ param_name param ++ "' type is required")
    else errors in
  (paramNames, errors).

(** The body of the loop over the examples. *)
Definition check_example (this : t) (entry : nat * CapabilityExample)
    (acc : list string * list string) : Result (list string * list string) :=
  let '(index, example) := entry in
  let '(errors, warnings) := acc in
  let warnings :=
    if negb (truthy_string (ex_description example))
    then push warnings ("Example " ++ Number_toString (Z.of_nat index + 1)
                        ++ " is missing description")
    else warnings in
  (paramValidation <- validateParameters this (ex_parameters example) ;;
   let errors :=
     if negb (params_valid paramValidation)
     then push errors ("Example " ++ Number_toString (Z.of_nat index + 1) ++ ": "
                       ++ join (params_errors paramValidation) ", ")
     else errors in
   Ok (errors, warnings))%result.

(** [validate]: the statements before the [return] do not touch the
    world; [new Date()] reads the clock. *)
Definition validate (this : t) : M CapabilityValidationResult :=
  let errors := [] in
  let warnings := [] in
  let errors :=
    if negb (truthy_string (getId this))
    then push errors "Capability ID is required" else errors in
  let errors :=
    if negb (truthy_string (getName this))
    then push errors "Capability name is required" else errors in
  let errors :=
    if negb (truthy_string (getDescription this))
    then push errors "Capability description is required" else errors in
  let errors :=
    if negb (truthy_string (getPrimarySelector this))
    then push errors "Primary selector is required" else errors in
  (warnings <- lift (check_selectors this warnings) ;;
   let '(_, errors) := fold_left check_parameter (getParameters this) ([], errors) in
   '(errors, warnings) <-
     lift (for_of (Array_entries (getExamples this)) (check_example this)
                  (errors, warnings)) ;;
   timestamp <- new_Date ;;
   ret {| valid := (List.length errors =? 0)%nat;
          errors := errors;
          warnings := warnings;
          timestamp := timestamp |})%method.

End Validation.

(** The object [toJSON] builds and [fromJSON] reads: the dates are ISO
    strings, the other properties are those of the capability. *)
Record CapabilityJSON : Type := {
  json_id : string;
  json_name : string;
  json_type : CapabilityType;
  json_description : string;
  json_selector : Selector;
  json_parameters : option (list ParameterDefinition);
  json_returnType : option ReturnTypeDefinition;
  json_validation : option ValidationRules;
  json_timeout : option Z;
  json_retries : option Z;
  json_conditions : option (list ExecutionCondition);
  json_examples : option (list CapabilityExample);
  json_createdAt : string;
  json_updatedAt : string
}.

Definition toJSON (this : t) : Result CapabilityJSON :=
  (createdAt <- toISOString (getCreatedAt this) ;;
   updatedAt <- toISOString (getUpdatedAt this) ;;
   Ok {| json_id := getId this;
         json_name := getName this;
         json_type := getType this;
         json_description := getDescription this;
         json_selector := getSelector this;
         json_parameters := Some (getParameters this);
         json_returnType := getReturnType this;
         json_validation := getValidation this;
         json_timeout := getTimeout this;
         json_retries := getRetries this;
         json_conditions := Some (getConditions this);
         json_examples := Some (getExamples this);
         json_createdAt := createdAt;
         json_updatedAt := updatedAt |})%result.

Definition fromJSON (json : CapabilityJSON) : t :=
  {| cap_id := json_id json;
     cap_name := json_name json;
     cap_type := json_type json;
     cap_description := json_description json;
     cap_selector := json_selector json;
     cap_parameters := json_parameters json;
     cap_returnType := json_returnType json;
     cap_validation := json_validation json;
     cap_timeout := json_timeout json;
     cap_retries := json_retries json;
     cap_conditions := json_conditions json;
     cap_examples := json_examples json;
     cap_createdAt := Date_of_string (json_createdAt json);
     cap_updatedAt := Date_of_string (json_updatedAt json) |}.

Definition isAction (this : t) : bool :=
  String.eqb (CapabilityType_name (getType this)) "action".

Definition isQuery (this : t) : bool :=
  String.eqb (CapabilityType_name (getType this)) "query".

Definition isForm (this : t) : bool :=
  String.eqb (CapabilityType_name (getType this)) "form".

(** The [options] argument of [create]. *)
Record CreateOptions : Type := {
  opt_parameters : option (list ParameterDefinition);
  opt_returnType : option ReturnTypeDefinition;
  opt_validation : option ValidationRules;
  opt_timeout : option Z;
  opt_retries : option Z;
  opt_conditions : option (list ExecutionCondition);
  opt_examples : option (list CapabilityExample)
}.

(** [options?.p]. *)
Definition optional {O A : Type} (options : option O) (p : O -> option A) : option A :=
  match options with
  | Some o => p o
  | None => None
  end.

(** The factory [create]: one reading of the clock stamps both dates. *)
Definition create (id name : string) (type : CapabilityType) (description : string)
    (selector : Selector) (options : option CreateOptions) : M t :=
  (now <- new_Date ;;
   ret {| cap_id := id;
          cap_name := name;
          cap_type := type;
          cap_description := description;
          cap_selector := selector;
          cap_parameters := optional options opt_parameters;
          cap_returnType := optional options opt_returnType;
          cap_validation := optional options opt_validation;
          cap_timeout := optional options opt_timeout;
          cap_retries := optional options opt_retries;
          cap_conditions := optional options opt_conditions;
          cap_examples := optional options opt_examples;
          cap_createdAt := now;
          cap_updatedAt := now |})%method.

End SemanTestCapability.

(** ** [SemanTestContract] *)

Module SemanTestContract.

(** Modelled from the spec: the base class [Entity] is not among the
    sources; as for a capability, a contract is its read-only [props]
    and [this.get(key)] is a projection. *)
Definition t : Type := SemanTestContractProps.

Definition getId (this : t) : string := contract_id this.
Definition getVersion (this : t) : string := contract_version this.
Definition getDomain (this : t) : string := contract_domain this.
Definition getTitle (this : t) : string := contract_title this.
Definition getDescription (this : t) : option string := contract_description this.
Definition getCapabilities (this : t) : Ref := contract_capabilities this.
Definition getWorkflows (this : t) : option Ref := contract_workflows this.
Definition getMetadata (this : t) : option ContractMetadata := contract_metadata this.
Definition getCreatedAt (this : t) : Date := contract_createdAt this.
Definition getUpdatedAt (this : t) : Date := contract_updatedAt this.

(** [this.get('capabilities')[name]]: the capability under the key, or
    what the map inherits under the name. *)
Definition getCapability (this : t) (name : string) : M (Member SemanTestCapabilityProps) :=
  (capabilities <- read_capabilities (contract_capabilities this) ;;
   ret (get_member name capabilities))%method.

Definition getCapabilityNames (this : t) : M (list string) :=
  (capabilities <- read_capabilities (contract_capabilities this) ;;
   ret (Object_keys capabilities))%method.

(** [name in this.get('capabilities')]. *)
Definition hasCapability (this : t) (name : string) : M bool :=
  (capabilities <- read_capabilities (contract_capabilities this) ;;
   ret (has_property name capabilities))%method.

(** [workflows ? workflows[name] : undefined]. *)
Definition getWorkflow (this : t) (name : string) : M (Member WorkflowDefinition) :=
  match contract_workflows this with
  | Some workflows =>
      (workflows <- read_workflows workflows ;;
       ret (get_member name workflows))%method
  | None => ret Undefined
  end.

(** [{ ...this.get('capabilities') }]: a fresh object with the same
    properties. *)
Definition spread_capabilities (source : Ref) : M Ref :=
  (properties <- read_capabilities source ;;
   new_capabilities properties)%method.

(** [{ ...this.get('workflows') }]; spreading [undefined] gives [{}]. *)
Definition spread_workflows (source : option Ref) : M Ref :=
  match source with
  | Some source =>
      (properties <- read_workflows source ;;
       new_workflows properties)%method
  | None => new_workflows []
  end.

(** The copy of the capability map gets [capabilities[name] =
    capability]; the keys of the copy are in the order of
    [set_property], which is that of the object for an
    [ordinary_key]. *)
Definition withCapability (this : t) (name : string) (capability : SemanTestCapabilityProps)
  : M t :=
  (capabilities <- spread_capabilities (contract_capabilities this) ;;
   modify_capabilities capabilities (set_property name capability) ;;
   updatedAt <- new_Date ;;
   ret {| contract_id := contract_id this;
          contract_version := contract_version this;
          contract_domain := contract_domain this;
          contract_title := contract_title this;
          contract_description := contract_description this;
          contract_capabilities := capabilities;
          contract_workflows := contract_workflows this;
          contract_metadata := contract_metadata this;
          contract_createdAt := contract_createdAt this;
          contract_updatedAt := updatedAt |})%method.

Definition withoutCapability (this : t) (name : string) : M t :=
  (capabilities <- spread_capabilities (contract_capabilities this) ;;
   modify_capabilities capabilities (delete_property name) ;;
   updatedAt <- new_Date ;;
   ret {| contract_id := contract_id this;
          contract_version := contract_version this;
          contract_domain := contract_domain this;
          contract_title := contract_title this;
          contract_description := contract_description this;
          contract_capabilities := capabilities;
          contract_workflows := contract_workflows this;
          contract_metadata := contract_metadata this;
          contract_createdAt := contract_createdAt this;
          contract_updatedAt := updatedAt |})%method.

Definition withMetadata (this : t) (metadata : ContractMetadata) : M t :=
  (updatedAt <- new_Date ;;
   ret {| contract_id := contract_id this;
          contract_version := contract_version this;
          contract_domain := contract_domain this;
          contract_title := contract_title this;
          contract_description := contract_description this;
          contract_capabilities := contract_capabilities this;
          contract_workflows := contract_workflows this;
          contract_metadata := Some metadata;
          contract_createdAt := contract_createdAt this;
          contract_updatedAt := updatedAt |})%method.

Definition withWorkflow (this : t) (name : string) (workflow : WorkflowDefinition) : M t :=
  (workflows <- spread_workflows (contract_workflows this) ;;
   modify_workflows workflows (set_property name workflow) ;;
   updatedAt <- new_Date ;;
   ret {| contract_id := contract_id this;
          contract_version := contract_version this;
          contract_domain := contract_domain this;
          contract_title := contract_title this;
          contract_description := contract_description this;
          contract_capabilities := contract_capabilities this;
          contract_workflows := Some workflows;
          contract_metadata := contract_metadata this;
          contract_createdAt := contract_createdAt this;
          contract_updatedAt := updatedAt |})%method.

Section Validation.

Variable RegExp : string -> Result (string -> bool).

(** The body of the loop over the capabilities, with its [try] and
    [catch]; [capability.validate()] is the first statement of the
    [try] block and the only one that can throw. *)
Definition check_capability (entry : string * SemanTestCapabilityProps)
    (acc : list string * list string) : M (list string * list string) :=
  let '(name, capability) := entry in
  let '(errs, warns) := acc in
  try_catch
    (capabilityValidation <- SemanTestCapability.validate RegExp capability ;;
     let errs :=
       if negb (valid capabilityValidation)
       then push errs ("Capability '" ++ name ++ "': "
                       ++ join (errors capabilityValidation) ", ")
       else errs in
     let warns :=
       if (0 <? List.length (warnings capabilityValidation))%nat
       then push warns ("Capability '" ++ name ++ "': "
                        ++ join (warnings capabilityValidation) ", ")
       else warns in
     ret (errs, warns))%method
    (fun error =>
       ret (push errs ("Capability '" ++ name ++ "': " ++ error_message error), warns)).

(** The body of the inner loop over the steps of a workflow. *)
Definition check_step (this : t) (name : string) (step : WorkflowStep)
    (errs : list string) : M (list string) :=
  (known <- hasCapability this (step_capability step) ;;
   ret (if negb known
        then push errs ("Workflow '" ++ name ++ "' references unknown capability '"
                        ++ step_capability step ++ "'")
        else errs))%method.

(** The body of the outer loop over the workflows. *)
Definition check_workflow (this : t) (entry : string * WorkflowDefinition)
    (errs : list string) : M (list string) :=
  let '(name, workflow) := entry in
  for_each (wf_steps workflow) (check_step this name) errs.

Definition validate (this : t) : M ValidationResult :=
  let errs := [] in
  let warns := [] in
  let errs :=
    if negb (truthy_string (getId this))
    then push errs "Contract ID is required" else errs in
  let errs :=
    if negb (truthy_string (getVersion this))
    then push errs "Contract version is required" else errs in
  let errs :=
    if negb (truthy_string (getDomain this))
    then push errs "Contract domain is required" else errs in
  let errs :=
    if negb (truthy_string (getTitle this))
    then push errs "Contract title is required" else errs in
  let capabilities := getCapabilities this in
  (keys <- (properties <- read_capabilities capabilities ;; ret (Object_keys properties)) ;;
   let warns :=
     if (List.length keys =? 0)%nat
     then push warns "Contract has no capabilities defined" else warns in
   entries <- (properties <- read_capabilities capabilities ;;
               ret (Object_entries properties)) ;;
   '(errs, warns) <- for_each entries check_capability (errs, warns) ;;
   errs <- match getWorkflows this with
           | Some workflows =>
               entries <- (properties <- read_workflows workflows ;;
                           ret (Object_entries properties)) ;;
               for_each entries (check_workflow this) errs
           | None => ret errs
           end ;;
   timestamp <- new_Date ;;
   ret {| valid := (List.length errs =? 0)%nat;
          errors := errs;
          warnings := warns;
          timestamp := timestamp |})%method.

End Validation.

(** What a contract is in a world: its properties with the two map
    objects read from the store. *)
Record View : Type := {
  view_id : string;
  view_version : string;
  view_domain : string;
  view_title : string;
  view_description : option string;
  view_capabilities : JsRecord SemanTestCapabilityProps;
  view_workflows : option (JsRecord WorkflowDefinition);
  view_metadata : option ContractMetadata;
  view_createdAt : Date;
  view_updatedAt : Date
}.

Definition view (w : World) (this : t) : View :=
  {| view_id := contract_id this;
     view_version := contract_version this;
     view_domain := contract_domain this;
     view_title := contract_title this;
     view_description := contract_description this;
     view_capabilities := capabilities_at w (contract_capabilities this);
     view_workflows := option_map (workflows_at w) (contract_workflows this);
     view_metadata := contract_metadata this;
     view_createdAt := contract_createdAt this;
     view_updatedAt := contract_updatedAt this |}.

(** The [options] argument of [create]. *)
Record CreateOptions : Type := {
  opt_description : option string;
  opt_workflows : option Ref;
  opt_metadata : option ContractMetadata
}.

(** The factory [create]; the map objects it is given are stored as
    they are, by reference. *)
Definition create (id version domain title : string) (capabilities : Ref)
    (options : option CreateOptions) : M t :=
  (now <- new_Date ;;
   ret {| contract_id := id;
          contract_version := version;
          contract_domain := domain;
          contract_title := title;
          contract_description := SemanTestCapability.optional options opt_description;
          contract_capabilities := capabilities;
          contract_workflows := SemanTestCapability.optional options opt_workflows;
          contract_metadata := SemanTestCapability.optional options opt_metadata;
          contract_createdAt := now;
          contract_updatedAt := now |})%method.

(** The object [toJSON] builds and [fromJSON] reads.  Its
    [capabilities] object is created by [toJSON] and reachable from the
    result only: it is held as a value.  [workflows] is the map object
    of the contract itself, by reference. *)
Record ContractJSON : Type := {
  json_id : string;
  json_version : string;
  json_domain : string;
  json_title : string;
  json_description : option string;
  json_capabilities : option (JsRecord SemanTestCapability.CapabilityJSON);
  json_workflows : option Ref;
  json_metadata : option ContractMetadata;
  json_createdAt : string;
  json_updatedAt : string
}.

(** The body of the loop of [toJSON]. *)
Definition serialize_capability (entry : string * SemanTestCapabilityProps)
    (capabilities : JsRecord SemanTestCapability.CapabilityJSON)
  : Result (JsRecord SemanTestCapability.CapabilityJSON) :=
  let '(name, capability) := entry in
  (json <- SemanTestCapability.toJSON capability ;;
   Ok (set_property name json capabilities))%result.

Definition toJSON (this : t) : M ContractJSON :=
  (entries <- (properties <- read_capabilities (contract_capabilities this) ;;
               ret (Object_entries properties)) ;;
   capabilities <- lift (for_of entries serialize_capability []) ;;
   createdAt <- lift (toISOString (getCreatedAt this)) ;;
   updatedAt <- lift (toISOString (getUpdatedAt this)) ;;
   ret {| json_id := getId this;
          json_version := getVersion this;
          json_domain := getDomain this;
          json_title := getTitle this;
          json_description := getDescription this;
          json_capabilities := Some capabilities;
          json_workflows := getWorkflows this;
          json_metadata := getMetadata this;
          json_createdAt := createdAt;
          json_updatedAt := updatedAt |})%method.

(** The body of the loop of [fromJSON], on the new map object. *)
Definition deserialize_capability (capabilities : Ref)
    (entry : string * SemanTestCapability.CapabilityJSON) (_ : unit) : M unit :=
  let '(name, capabilityJson) := entry in
  modify_capabilities capabilities
    (set_property name (SemanTestCapability.fromJSON capabilityJson)).

Definition fromJSON (json : ContractJSON) : M t :=
  (capabilities <- new_capabilities [] ;;
   match json_capabilities json with
   | Some entries =>
       for_each (Object_entries entries) (deserialize_capability capabilities) tt
   | None => ret tt
   end ;;
   ret {| contract_id := json_id json;
          contract_version := json_version json;
          contract_domain := json_domain json;
          contract_title := json_title json;
          contract_description := json_description json;
          contract_capabilities := capabilities;
          contract_workflows := json_workflows json;
          contract_metadata := json_metadata json;
          contract_createdAt := Date_of_string (json_createdAt json);
          contract_updatedAt := Date_of_string (json_updatedAt json) |})%method.

End SemanTestContract.

(** ** [Ports] *)

(** The registry of [ports.ts]: a static [Map<string, Port>] keyed by
    the name of the port class.  The map is passed explicitly. *)
Module Ports.

Section Registry.

(** Modelled from the spec: the class [Port] ([./port]) is not among
    the sources; an implementation is an object, which is truthy. *)
Variable Port : Type.

(** A port class [new (...args) => T], with the [name] of the
    constructor function. *)
Record PortClass : Type := { class_name : string; class_id : nat }.

Definition Registry : Type := JsRecord Port.

Definition get (ports : Registry) (port : PortClass) : Result Port :=
  match get_property (class_name port) ports with
  | Some implementation => Ok implementation
  | None =>
      Throw {| error_name := "Error";
               error_message := "Port " ++ class_name port ++ " not found" |}
  end.

Definition set (ports : Registry) (port : PortClass) (implementation : Port) : Registry :=
  set_property (class_name port) implementation ports.

Definition clear (ports : Registry) : Registry := [].

End Registry.

End Ports.

(** * Properties *)

(** ** Vocabulary *)








(** A validation block with one rule replaced. *)
Definition with_minLength (x : option Z) (v : ParameterValidation) : ParameterValidation :=
  {| minLength := x; maxLength := maxLength v; pattern := pattern v;
     minimum := minimum v; maximum := maximum v; enum := enum v |}.

Definition with_maxLength (x : option Z) (v : ParameterValidation) : ParameterValidation :=
  {| minLength := minLength v; maxLength := x; pattern := pattern v;
     minimum := minimum v; maximum := maximum v; enum := enum v |}.

Definition with_pattern (x : option string) (v : ParameterValidation) : ParameterValidation :=
  {| minLength := minLength v; maxLength := maxLength v; pattern := x;
     minimum := minimum v; maximum := maximum v; enum := enum v |}.

(** The map objects and the clock of two worlds agree. *)
Definition same_store (w w' : World) : Prop :=
  capabilityMaps w' = capabilityMaps w
  /\ workflowMaps w' = workflowMaps w
  /\ clock w' = clock w.

Definition empty_world : World :=
  {| capabilityMaps := []; workflowMaps := []; clock := fun _ => 0; ticks := 0 |}.

Definition thrown_message (name : string) (e : JsError) : string :=
  "Capability '" ++ name ++ "': " ++ error_message e.

Definition reported_message (name : string) (errs : list string) : string :=
  "Capability '" ++ name ++ "': " ++ join errs ", ".

Definition dangling_message (workflow capability : string) : string :=
  "Workflow '" ++ workflow ++ "' references unknown capability '" ++ capability ++ "'".

(** The errors of one workflow: one for each step whose capability
    [in] does not find in the capability map. *)
Definition dangling_errors (capabilities : JsRecord SemanTestCapabilityProps)
    (entry : string * WorkflowDefinition) : list string :=
  map (fun step => dangling_message (fst entry) (step_capability step))
      (filter (fun step => negb (has_property (step_capability step) capabilities))
              (wf_steps (snd entry))).

(** The errors of the workflows of a contract. *)
Definition workflow_errors (w : World) (this : SemanTestContract.t) : list string :=
  match contract_workflows this with
  | Some workflows =>
      flat_map (dangling_errors (capabilities_at w (contract_capabilities this)))
               (workflows_at w workflows)
  | None => []
  end.

(** The errors of the steps whose capability is not a key of the
    capability map, one for each, in the order of the workflows and of
    their steps. *)
Definition unknown_errors (capabilities : JsRecord SemanTestCapabilityProps)
    (entry : string * WorkflowDefinition) : list string :=
  map (fun step => dangling_message (fst entry) (step_capability step))
      (filter (fun step => negb (has_key (step_capability step) capabilities))
              (wf_steps (snd entry))).

Definition unknown_step_errors (w : World) (this : SemanTestContract.t) : list string :=
  match contract_workflows this with
  | Some workflows =>
      flat_map (unknown_errors (capabilities_at w (contract_capabilities this)))
               (workflows_at w workflows)
  | None => []
  end.

(** No step of a workflow of the contract names a member of
    [Object.prototype]. *)
Definition ordinary_steps (w : World) (this : SemanTestContract.t) : Prop :=
  forall workflows name workflow step,
    contract_workflows this = Some workflows ->
    In (name, workflow) (workflows_at w workflows) ->
    In step (wf_steps workflow) ->
    inherited (step_capability step) = false.

(** The errors of the four required fields of a contract. *)
Definition required_field_errors (this : SemanTestContract.t) : list string :=
  ((if truthy_string (contract_id this) then [] else ["Contract ID is required"])
   ++ (if truthy_string (contract_version this) then [] else ["Contract version is required"])
   ++ (if truthy_string (contract_domain this) then [] else ["Contract domain is required"])
   ++ (if truthy_string (contract_title this) then [] else ["Contract title is required"]))%list.

Section HostVocabulary.
Variable RegExp : string -> Result (string -> bool).

(** Every pattern the call compiles is a well-formed regular
    expression: the patterns of the declared parameters that receive a
    string argument. *)
Definition patterns_compile (this : SemanTestCapability.t) (parameters : JsRecord JsValue)
  : Prop :=
  forall name value def v pat,
    In (name, VString value) parameters ->
    SemanTestCapability.getParameter this name = Some def ->
    param_validation def = Some v ->
    pattern v = Some pat ->
    truthy_string pat = true ->
    exists re, RegExp pat = Ok re.

(** Every pattern a capability declares is a well-formed regular
    expression. *)
Definition patterns_well_formed (this : SemanTestCapability.t) : Prop :=
  forall def v pat,
    In def (SemanTestCapability.getParameters this) ->
    param_validation def = Some v ->
    pattern v = Some pat ->
    exists re, RegExp pat = Ok re.

(** [capability.validate()] throws [e]. *)
Definition validate_throws (capability : SemanTestCapabilityProps) (e : JsError) : Prop :=
  forall w, exists w', SemanTestCapability.validate RegExp capability w = (Throw e, w').

(** [capability.validate()] returns a report with these errors and
    warnings. *)
Definition validate_reports (capability : SemanTestCapabilityProps)
    (errs warns : list string) : Prop :=
  forall w, exists r w',
    SemanTestCapability.validate RegExp capability w = (Ok r, w')
    /\ errors r = errs /\ warnings r = warns
    /\ valid r = (List.length errs =? 0)%nat.

(** What one turn of the loop over the capabilities appends to the
    errors of a contract. *)
Definition capability_errors (name : string) (capability : SemanTestCapabilityProps)
  : list string :=
  match fst (SemanTestCapability.validate RegExp capability empty_world) with
  | Ok r => if valid r then [] else [reported_message name (errors r)]
  | Throw e => [thrown_message name e]
  end.

End HostVocabulary.

(** The references of a contract point to objects of the world. *)
Definition allocated (w : World) (this : SemanTestContract.t) : Prop :=
  (contract_capabilities this < List.length (capabilityMaps w))%nat
  /\ match contract_workflows this with
     | Some workflows => (workflows < List.length (workflowMaps w))%nat
     | None => True
     end.

(** The objects of [w] are the same in [w']. *)
Definition objects_preserved (w w' : World) : Prop :=
  (forall r, (r < List.length (capabilityMaps w))%nat ->
             capabilities_at w' r = capabilities_at w r)
  /\ (forall r, (r < List.length (workflowMaps w))%nat ->
                workflows_at w' r = workflows_at w r).

(** [{ ...this.get('workflows') }] as a value. *)
Definition workflows_or_empty (w : World) (this : SemanTestContract.t)
  : JsRecord WorkflowDefinition :=
  match contract_workflows this with
  | Some workflows => workflows_at w workflows
  | None => []
  end.

(** The view of the contract a "with" operation returns: the view of
    the original with one field and [updatedAt] replaced. *)
Definition updated_view (w : World) (this : SemanTestContract.t)
    (capabilities : JsRecord SemanTestCapabilityProps)
    (workflows : option (JsRecord WorkflowDefinition))
    (metadata : option ContractMetadata) : SemanTestContract.View :=
  {| SemanTestContract.view_id := contract_id this;
     SemanTestContract.view_version := contract_version this;
     SemanTestContract.view_domain := contract_domain this;
     SemanTestContract.view_title := contract_title this;
     SemanTestContract.view_description := contract_description this;
     SemanTestContract.view_capabilities := capabilities;
     SemanTestContract.view_workflows := workflows;
     SemanTestContract.view_metadata := metadata;
     SemanTestContract.view_createdAt := contract_createdAt this;
     SemanTestContract.view_updatedAt := TimeValue (clock w (ticks w)) |}.

(** The capability [fromJSON] rebuilds from [toJSON]: an absent
    [parameters], [conditions] or [examples] has become the empty
    array. *)
Definition normalized (this : SemanTestCapability.t) : SemanTestCapability.t :=
  {| cap_id := cap_id this;
     cap_name := cap_name this;
     cap_type := cap_type this;
     cap_description := cap_description this;
     cap_selector := cap_selector this;
     cap_parameters := Some (SemanTestCapability.getParameters this);
     cap_returnType := cap_returnType this;
     cap_validation := cap_validation this;
     cap_timeout := cap_timeout this;
     cap_retries := cap_retries this;
     cap_conditions := Some (SemanTestCapability.getConditions this);
     cap_examples := Some (SemanTestCapability.getExamples this);
     cap_createdAt := cap_createdAt this;
     cap_updatedAt := cap_updatedAt this |}.

(** The first day of a year of the cycle, counted from its start. *)
Definition year_start (y : Z) : Z := 365 * y + y / 4 - y / 100.

(** The year of the cycle a day falls in. *)
Definition year_of_cycle (doe : Z) : Z :=
  (doe - doe / 1460 + doe / 36524 - doe / 146096) / 365.

(** The check of one year of the cycle: its first and its last day
    fall in it, and it has at most 366 days. *)
Definition cycle_year_ok (y : Z) : bool :=
  (year_of_cycle (year_start y) =? y)
  && (year_of_cycle (year_start (y + 1) - 1) =? y)
  && (year_start (y + 1) - year_start y <=? 366).

(** The check of one day of the year, counted from 1 March: its month
    and day of the month give the day back. *)
Definition year_day_ok (doy : Z) : bool :=
  let mp := (5 * doy + 2) / 153 in
  let d := doy - (153 * mp + 2) / 5 + 1 in
  let m := if mp <? 10 then mp + 3 else mp - 9 in
  (1 <=? m) && (m <=? 12) && (1 <=? d) && (d <=? 31)
  && ((153 * (if 2 <? m then m - 3 else m + 9) + 2) / 5 + d - 1 =? doy).

Definition first_integers (n : nat) : list Z := map Z.of_nat (seq 0 n).

(** ** Vocabulary of the further properties *)







(** The errors of the four required fields of a capability. *)
Definition capability_field_errors (this : SemanTestCapability.t) : list string :=
  ((if truthy_string (cap_id this) then [] else ["Capability ID is required"])
   ++ (if truthy_string (cap_name this) then [] else ["Capability name is required"])
   ++ (if truthy_string (cap_description this)
       then [] else ["Capability description is required"])
   ++ (if truthy_string (SemanTestCapability.getPrimarySelector this)
       then [] else ["Primary selector is required"]))%list.

Definition duplicate_message (name : string) : string :=
  "Duplicate parameter name: " ++ name.

(** The errors of the declarations of the parameters, [seen] being the
    names of the declarations before them. *)
Fixpoint declaration_errors (seen : list string) (params : list ParameterDefinition)
  : list string :=
  match params with
  | [] => []
  | p :: rest =>
      ((if existsb (String.eqb (param_name p)) seen
        then [duplicate_message (param_name p)] else [])
       ++ (if truthy_string (param_name p) then [] else ["Parameter name is required"])
       ++ declaration_errors (param_name p :: seen) rest)%list
  end.


(** The warnings of the selectors of a capability. *)
Definition fallback_message (selector : string) : string :=
  "Fallback selector '" ++ selector ++ "' may not be valid CSS".

Definition selector_warnings (this : SemanTestCapability.t) : list string :=
  ((if truthy_string (SemanTestCapability.getPrimarySelector this)
       && negb (SemanTestCapability.isValidCSSSelector
                  (SemanTestCapability.getPrimarySelector this))
    then ["Primary selector may not be valid CSS"] else [])
   ++ map fallback_message
        (filter (fun selector => negb (SemanTestCapability.isValidCSSSelector selector))
                (SemanTestCapability.getFallbackSelectors this)))%list.

(** The warnings of the examples without a description, numbered
    from 1. *)
Definition undescribed_message (index : nat) : string :=
  "Example " ++ Number_toString (Z.of_nat index + 1) ++ " is missing description".

Definition description_warnings (entries : list (nat * CapabilityExample)) : list string :=
  map (fun entry => undescribed_message (fst entry))
      (filter (fun entry => negb (truthy_string (ex_description (snd entry)))) entries).

(** The error of an example whose arguments are not valid. *)
Definition example_message (index : nat) (errs : list string) : string :=
  "Example " ++ Number_toString (Z.of_nat index + 1) ++ ": " ++ join errs ", ".

Section HostRules.
Variable RegExp : string -> Result (string -> bool).









(** What one example adds to the errors of a capability. *)
Definition example_errors (this : SemanTestCapability.t) (entry : nat * CapabilityExample)
  : list string :=
  match SemanTestCapability.validateParameters RegExp this (ex_parameters (snd entry)) with
  | Ok r => if params_valid r then [] else [example_message (fst entry) (params_errors r)]
  | Throw _ => []
  end.

(** The arguments of every example can be checked: the patterns they
    make [validateParameters] compile are regular expressions. *)
Definition examples_compile (this : SemanTestCapability.t) : Prop :=
  forall example,
    In example (SemanTestCapability.getExamples this) ->
    patterns_compile RegExp this (ex_parameters example).

(** The warning one capability adds to the warnings of a contract. *)
Definition reported_warning (name : string) (warns : list string) : string :=
  "Capability '" ++ name ++ "': " ++ join warns ", ".

Definition capability_warning (entry : string * SemanTestCapabilityProps) : list string :=
  match fst (SemanTestCapability.validate RegExp (snd entry) empty_world) with
  | Ok r =>
      if (0 <? List.length (warnings r))%nat
      then [reported_warning (fst entry) (warnings r)] else []
  | Throw _ => []
  end.

(** The validation of a capability returns a report (it does not
    throw). *)
Definition validate_returns (capability : SemanTestCapabilityProps) : bool :=
  match fst (SemanTestCapability.validate RegExp capability empty_world) with
  | Ok _ => true
  | Throw _ => false
  end.

(** The capabilities of a map whose validation returns: each of them
    reads the clock once. *)
Definition returning (entries : JsRecord SemanTestCapabilityProps) : nat :=
  List.length (filter (fun entry => validate_returns (snd entry)) entries).

(** A capability passes its validation, in every world. *)
Definition capability_valid (capability : SemanTestCapabilityProps) : Prop :=
  forall w, exists r w',
    SemanTestCapability.validate RegExp capability w = (Ok r, w') /\ valid r = true.

End HostRules.

(** The warning of a contract without capabilities. *)
Definition no_capabilities_warning : string := "Contract has no capabilities defined".

(** The world after [n] readings of the clock. *)
Fixpoint ticked (n : nat) (w : World) : World :=
  match n with
  | O => w
  | S n' => tick (ticked n' w)
  end.

(** Every step of every workflow of the contract names a capability
    that [in] finds in the capability map. *)
Definition steps_resolved (w : World) (this : SemanTestContract.t) : Prop :=
  forall workflows name workflow step,
    contract_workflows this = Some workflows ->
    In (name, workflow) (workflows_at w workflows) ->
    In step (wf_steps workflow) ->
    has_property (step_capability step)
      (capabilities_at w (contract_capabilities this)) = true.






(** The error of [toISOString] on an invalid date. *)
Definition invalid_time_error : JsError :=
  {| error_name := "RangeError"; error_message := "Invalid time value" |}.

(** A capability or a contract holds an invalid date. *)
Definition capability_undated (capability : SemanTestCapabilityProps) : Prop :=
  cap_createdAt capability = InvalidDate \/ cap_updatedAt capability = InvalidDate.

Definition contract_undated (w : World) (this : SemanTestContract.t) : Prop :=
  (exists name capability,
      In (name, capability) (capabilities_at w (contract_capabilities this))
      /\ capability_undated capability)
  \/ contract_createdAt this = InvalidDate
  \/ contract_updatedAt this = InvalidDate.

(** One of the four "with" operations, and a sequence of them applied
    from left to right. *)
Inductive Operation : Type :=
| WithCapability (name : string) (capability : SemanTestCapabilityProps)
| WithoutCapability (name : string)
| WithMetadata (metadata : ContractMetadata)
| WithWorkflow (name : string) (workflow : WorkflowDefinition).

Definition apply_operation (op : Operation) (this : SemanTestContract.t)
  : M SemanTestContract.t :=
  match op with
  | WithCapability name capability => SemanTestContract.withCapability this name capability
  | WithoutCapability name => SemanTestContract.withoutCapability this name
  | WithMetadata metadata => SemanTestContract.withMetadata this metadata
  | WithWorkflow name workflow => SemanTestContract.withWorkflow this name workflow
  end.

Definition apply_operations (ops : list Operation) (this : SemanTestContract.t)
  : M SemanTestContract.t :=
  for_each ops apply_operation this.

(** The store of [w'] is the store of [w] with new objects. *)
Definition grows (w w' : World) : Prop :=
  (exists capabilities, capabilityMaps w' = (capabilityMaps w ++ capabilities)%list)
  /\ (exists workflows, workflowMaps w' = (workflowMaps w ++ workflows)%list).

(** The fields no "with" operation changes. *)
Definition same_identity (this this' : SemanTestContract.t) : Prop :=
  contract_id this' = contract_id this
  /\ contract_version this' = contract_version this
  /\ contract_domain this' = contract_domain this
  /\ contract_title this' = contract_title this
  /\ contract_description this' = contract_description this
  /\ contract_createdAt this' = contract_createdAt this.

(** ** Sample data *)

Module Samples.

(** A host engine for the examples: exact on a pattern without
    metacharacters, which matches the strings that contain it, and on
    the unbalanced group ["("], which does not compile.  The examples
    use no other pattern. *)
Definition sample_RegExp (pat : string) : Result (string -> bool) :=
  if String.eqb pat "("
  then Throw {| error_name := "SyntaxError";
                error_message := "Invalid regular expression: /(/: Unterminated group" |}
  else Ok (fun s => String_includes s pat).

Definition plain_parameter (name : string) (type : ParameterType) (required : bool)
    (validation : option ParameterValidation) : ParameterDefinition :=
  {| param_name := name;
     param_type := type;
     param_description := None;
     param_required := Some required;
     param_default := None;
     param_validation := validation;
     param_examples := None |}.

Definition user_parameter : ParameterDefinition :=
  plain_parameter "user" PString true None.

(** The capability of the concrete scenario, with the identity,
    name and description left open. *)
Definition login_capability (id name description : string) : SemanTestCapabilityProps :=
  {| cap_id := id;
     cap_name := name;
     cap_type := CAction;
     cap_description := description;
     cap_selector := SelectorString "#submit";
     cap_parameters := Some [user_parameter];
     cap_returnType := None;
     cap_validation := None;
     cap_timeout := None;
     cap_retries := None;
     cap_conditions := None;
     cap_examples := None;
     cap_createdAt := TimeValue 0;
     cap_updatedAt := TimeValue 0 |}.

(** The same capability with other parameters. *)
Definition login_capability_with (parameters : list ParameterDefinition)
  : SemanTestCapabilityProps :=
  {| cap_id := "cap-login";
     cap_name := "login";
     cap_type := CAction;
     cap_description := "Log in";
     cap_selector := SelectorString "#submit";
     cap_parameters := Some parameters;
     cap_returnType := None;
     cap_validation := None;
     cap_timeout := None;
     cap_retries := None;
     cap_conditions := None;
     cap_examples := None;
     cap_createdAt := TimeValue 0;
     cap_updatedAt := TimeValue 0 |}.

Definition step_invoking (capability : string) : WorkflowStep :=
  {| step_capability := capability;
     step_parameters := None;
     step_condition := None;
     step_onSuccess := None;
     step_onFailure := None;
     step_retry := None |}.

Definition signIn_workflow (capability : string) : WorkflowDefinition :=
  {| wf_description := "Sign in";
     wf_parameters := None;
     wf_steps := [step_invoking capability];
     wf_errorHandling := None |}.

(** The contract of the concrete scenario; its two maps are the objects
    0 of the store. *)
Definition login_contract : SemanTestContractProps :=
  {| contract_id := "c1";
     contract_version := "1.0";
     contract_domain := "example.com";
     contract_title := "Login";
     contract_description := None;
     contract_capabilities := 0%nat;
     contract_workflows := Some 0%nat;
     contract_metadata := None;
     contract_createdAt := TimeValue 0;
     contract_updatedAt := TimeValue 0 |}.

Definition login_world (capability : SemanTestCapabilityProps) (step : string) : World :=
  {| capabilityMaps := [[("login", capability)]];
     workflowMaps := [[("signIn", signIn_workflow step)]];
     clock := fun k => 1000 + Z.of_nat k;
     ticks := 0 |}.

(** A capability whose parameter carries an ill-formed pattern, with
    two examples. *)
Definition broken_pattern : ParameterValidation :=
  {| minLength := None; maxLength := None; pattern := Some "(";
     minimum := None; maximum := None; enum := None |}.

Definition example_with (description : string) (parameters : JsRecord JsValue)
  : CapabilityExample :=
  {| ex_description := description;
     ex_parameters := parameters;
     ex_expectedResult := None;
     ex_executionTime := None |}.

Definition search_capability : SemanTestCapabilityProps :=
  {| cap_id := "search";
     cap_name := "search";
     cap_type := CQuery;
     cap_description := "Search the site";
     cap_selector := SelectorString "#q";
     cap_parameters := Some [plain_parameter "term" PString false (Some broken_pattern)];
     cap_returnType := None;
     cap_validation := None;
     cap_timeout := None;
     cap_retries := None;
     cap_conditions := None;
     cap_examples := Some [example_with "first" [("term", VString "a")];
                           example_with "second" [("term", VNumber 1)]];
     cap_createdAt := TimeValue 0;
     cap_updatedAt := TimeValue 0 |}.

(** A capability with a pattern that compiles and a required number. *)
Definition term_pattern : ParameterValidation :=
  {| minLength := None; maxLength := None; pattern := Some "ab";
     minimum := None; maximum := None; enum := None |}.

Definition lookup_capability : SemanTestCapabilityProps :=
  {| cap_id := "lookup";
     cap_name := "lookup";
     cap_type := CQuery;
     cap_description := "Look a term up";
     cap_selector := SelectorString "#lookup";
     cap_parameters := Some [plain_parameter "term" PString false (Some term_pattern);
                             plain_parameter "limit" PNumber true None];
     cap_returnType := None;
     cap_validation := None;
     cap_timeout := None;
     cap_retries := None;
     cap_conditions := None;
     cap_examples := None;
     cap_createdAt := TimeValue 0;
     cap_updatedAt := TimeValue 0 |}.


(** A capability created without options: no parameters, conditions
    or examples. *)
Definition refresh_capability : SemanTestCapabilityProps :=
  {| cap_id := "refresh";
     cap_name := "refresh";
     cap_type := CAction;
     cap_description := "Reload the page";
     cap_selector := SelectorString "#reload";
     cap_parameters := None;
     cap_returnType := None;
     cap_validation := None;
     cap_timeout := None;
     cap_retries := None;
     cap_conditions := None;
     cap_examples := None;
     cap_createdAt := TimeValue 1700000000000;
     cap_updatedAt := TimeValue 1700000000000 |}.

(** What [fromJSON] builds from an object whose [createdAt] is not a
    date string: the capability holds an invalid date. *)
Definition undated_capability : SemanTestCapabilityProps :=
  SemanTestCapability.fromJSON
    {| SemanTestCapability.json_id := "refresh";
       SemanTestCapability.json_name := "refresh";
       SemanTestCapability.json_type := CAction;
       SemanTestCapability.json_description := "Reload the page";
       SemanTestCapability.json_selector := SelectorString "#reload";
       SemanTestCapability.json_parameters := Some [];
       SemanTestCapability.json_returnType := None;
       SemanTestCapability.json_validation := None;
       SemanTestCapability.json_timeout := None;
       SemanTestCapability.json_retries := None;
       SemanTestCapability.json_conditions := Some [];
       SemanTestCapability.json_examples := Some [];
       SemanTestCapability.json_createdAt := "yesterday";
       SemanTestCapability.json_updatedAt := "2023-11-14T22:13:20.000Z" |}.

(** A parameter with the given bounds and nothing else. *)
Definition bounded_validation (minLength maxLength : option Z) (pattern : option string)
    (minimum maximum : option Z) : ParameterValidation :=
  {| minLength := minLength; maxLength := maxLength; pattern := pattern;
     minimum := minimum; maximum := maximum; enum := None |}.

(** A world without map objects. *)
Definition empty_clock_world : World :=
  {| capabilityMaps := []; workflowMaps := []; clock := fun k => 1000 + Z.of_nat k;
     ticks := 0 |}.





(** The JSON object of [refresh]. *)
Definition refresh_json : SemanTestCapability.CapabilityJSON :=
  {| SemanTestCapability.json_id := "refresh";
     SemanTestCapability.json_name := "refresh";
     SemanTestCapability.json_type := CAction;
     SemanTestCapability.json_description := "Reload the page";
     SemanTestCapability.json_selector := SelectorString "#reload";
     SemanTestCapability.json_parameters := Some [];
     SemanTestCapability.json_returnType := None;
     SemanTestCapability.json_validation := None;
     SemanTestCapability.json_timeout := None;
     SemanTestCapability.json_retries := None;
     SemanTestCapability.json_conditions := Some [];
     SemanTestCapability.json_examples := Some [];
     SemanTestCapability.json_createdAt := "2023-11-14T22:13:20.000Z";
     SemanTestCapability.json_updatedAt := "2023-11-14T22:13:20.000Z" |}.

End Samples.

(** ** Argument validation *)

Section ArgumentValidation.
Import SemanTestCapability.
Variable RegExp : string -> Result (string -> bool).

















Lemma check_argument_returns this name value acc :
  (forall s def v pat, value = VString s -> getParameter this name = Some def ->
     param_validation def = Some v -> pattern v = Some pat -> truthy_string pat = true ->
     exists re, RegExp pat = Ok re) ->
  exists acc', check_argument RegExp this (name, value) acc = Ok acc'.
Proof.
  intros H. destruct acc as [errs warns]. unfold check_argument.
  destruct (getParameter this name) as [def|] eqn:Hd; [|eauto].
  destruct (param_validation def) as [v|] eqn:Hv; [|eauto].
  assert (Hs : exists e, check_string_rules RegExp name value v
                           (check_type name value def errs) = Ok e).
  { unfold check_string_rules. destruct value; eauto.
    destruct (pattern v) as [pat|] eqn:Hp; eauto.
    destruct (truthy_string pat) eqn:Ht; eauto.
    destruct (H s def v pat eq_refl eq_refl Hv Hp Ht) as [re ->]. simpl. eauto. }
  destruct Hs as [e ->]. simpl. eauto.
Qed.

Lemma for_of_check_argument_returns this entries acc :
  (forall name value def v pat, In (name, VString value) entries ->
     getParameter this name = Some def -> param_validation def = Some v ->
     pattern v = Some pat -> truthy_string pat = true -> exists re, RegExp pat = Ok re) ->
  exists acc', for_of entries (check_argument RegExp this) acc = Ok acc'.
Proof.
  revert acc. induction entries as [|[name value] entries IH]; intros acc H; cbn [for_of].
  - eauto.
  - destruct (check_argument_returns this name value acc) as [acc1 ->].
    { intros s def v pat -> Hd Hv Hp Ht. eapply (H name s); eauto. now left. }
    simpl. apply IH. intros. eapply H; eauto. right. eassumption.
Qed.

Lemma validateParameters_returns this parameters :
  patterns_compile RegExp this parameters ->
  exists r, validateParameters RegExp this parameters = Ok r.
Proof.
  intros H. unfold validateParameters.
  destruct (for_of_check_argument_returns this (Object_entries parameters)
              (fold_left (check_required parameters) (getRequiredParameters this) [], []) H)
    as [[e w] ->].
  simpl. eauto.
Qed.

(** A capability whose declared patterns are well formed validates
    every argument mapping without throwing. *)
Lemma patterns_well_formed_compile this parameters :
  patterns_well_formed RegExp this -> patterns_compile RegExp this parameters.
Proof.
  intros H name value def v pat _ Hd Hv Hp _.
  apply (H def v pat); [|exact Hv|exact Hp].
  unfold getParameter in Hd. apply find_some in Hd. apply Hd.
Qed.















End ArgumentValidation.

Section ZeroBounds.
Import SemanTestCapability.
Variable RegExp : string -> Result (string -> bool).

Lemma validateParameters_single this name value def :
  getParameters this = [def] ->
  param_name def = name ->
  validateParameters RegExp this [(name, value)] =
  bindR (check_argument RegExp this (name, value) ([], []))
        (fun '(errors, warnings) =>
           Ok {| params_valid := (List.length errors =? 0)%nat;
                 params_errors := errors;
                 params_warnings := warnings |})
  /\ getParameter this name = Some def.
Proof.
  intros Hp Hn. unfold validateParameters, getRequiredParameters, getParameter.
  rewrite Hp. cbn [filter find fold_left for_of Object_entries].
  rewrite Hn, String.eqb_refl. split; [|reflexivity].
  assert (Hreq : fold_left (check_required [(name, value)])
                   (if truthy_opt (fun b : bool => b) (param_required def) then [def] else [])
                   [] = []).
  { destruct (truthy_opt _ _); cbn [fold_left]; [|reflexivity].
    unfold check_required, has_property, has_key. cbn [existsb fst].
    now rewrite Hn, String.eqb_refl. }
  rewrite Hreq.
  destruct (check_argument RegExp this (name, value) ([], [])) as [[e w]|]; reflexivity.
Qed.

(** Claim C10.  The string rules [minLength], [maxLength] and [pattern]
    are applied only when their value is truthy: a bound of 0 or an
    empty pattern behaves as an absent one, and every string passes a
    parameter whose three string rules are falsy.  The numeric rules
    [minimum] and [maximum] are guarded by a test against [undefined]:
    a bound of 0 is enforced. *)
Theorem falsy_bounds_not_enforced :
  (forall name value v errs,
      minLength v = Some 0 ->
      check_string_rules RegExp name value v errs
      = check_string_rules RegExp name value (with_minLength None v) errs)
  /\ (forall name value v errs,
      maxLength v = Some 0 ->
      check_string_rules RegExp name value v errs
      = check_string_rules RegExp name value (with_maxLength None v) errs)
  /\ (forall name value v errs,
      pattern v = Some "" ->
      check_string_rules RegExp name value v errs
      = check_string_rules RegExp name value (with_pattern None v) errs)
  /\ (forall this name s def,
      getParameters this = [def] ->
      param_name def = name ->
      param_type def = PString ->
      param_validation def
      = Some {| minLength := Some 0; maxLength := Some 0; pattern := Some "";
                minimum := None; maximum := None; enum := None |} ->
      validateParameters RegExp this [(name, VString s)]
      = Ok {| params_valid := true; params_errors := []; params_warnings := [] |})
  /\ (forall name n v errs,
      minimum v = Some 0 -> n < 0 ->
      In ("Parameter '" ++ name ++ "' must be at least 0")
         (check_number_rules name (VNumber n) v errs))
  /\ (forall name n v errs,
      maximum v = Some 0 -> 0 < n ->
      In ("Parameter '" ++ name ++ "' must be at most 0")
         (check_number_rules name (VNumber n) v errs))
  /\ (forall this name n def,
      getParameters this = [def] ->
      param_name def = name ->
      param_type def = PNumber ->
      param_validation def
      = Some {| minLength := None; maxLength := None; pattern := None;
                minimum := Some 0; maximum := Some 0; enum := None |} ->
      n <> 0 ->
      validateParameters RegExp this [(name, VNumber n)]
      = Ok {| params_valid := false;
              params_errors :=
                ["Parameter '" ++ name
                 ++ (if n <? 0 then "' must be at least 0" else "' must be at most 0")];
              params_warnings := [] |}).
Proof.
  repeat split.
  - intros name value v errs H. unfold check_string_rules, with_minLength.
    destruct value; try reflexivity. cbn [minLength maxLength pattern]. now rewrite H.
  - intros name value v errs H. unfold check_string_rules, with_maxLength.
    destruct value; try reflexivity. cbn [minLength maxLength pattern]. now rewrite H.
  - intros name value v errs H. unfold check_string_rules, with_pattern.
    destruct value; try reflexivity. cbn [minLength maxLength pattern]. now rewrite H.
  - intros this name s def Hp Hn Ht Hv.
    destruct (validateParameters_single this name (VString s) def Hp Hn) as [-> Hd].
    unfold check_argument. rewrite Hd, Hv.
    unfold check_type. rewrite Ht. reflexivity.
  - intros name n v errs H Hn. unfold check_number_rules. rewrite H.
    apply Z.ltb_lt in Hn. rewrite Hn.
    assert (In ("Parameter '" ++ name ++ "' must be at least 0")
               (push errs ("Parameter '" ++ name ++ "' must be at least " ++ Number_toString 0))).
    { apply in_or_app. right. now left. }
    destruct (maximum v) as [m|]; [|assumption].
    destruct (m <? n); [|assumption].
    apply in_or_app. now left.
  - intros name n v errs H Hn. unfold check_number_rules. rewrite H.
    apply Z.ltb_lt in Hn. rewrite Hn. apply in_or_app. right. now left.
  - intros this name n def Hp Hn Ht Hv Hz.
    destruct (validateParameters_single this name (VNumber n) def Hp Hn) as [-> Hd].
    unfold check_argument. rewrite Hd, Hv.
    unfold check_type. rewrite Ht.
    cbn [bindR check_string_rules check_number_rules check_enum minimum maximum enum
         ParameterType_name typeof Array_isArray].
    destruct (n <? 0) eqn:Hlt.
    + assert (Hgt : (0 <? n) = false) by (apply Z.ltb_lt in Hlt; apply Z.ltb_ge; lia).
      rewrite Hgt. reflexivity.
    + assert (Hgt : (0 <? n) = true) by (apply Z.ltb_ge in Hlt; apply Z.ltb_lt; lia).
      rewrite Hgt. reflexivity.
Qed.
End ZeroBounds.

(** ** Contract validation *)

Section ContractValidation.
Variable RegExp : string -> Result (string -> bool).

Lemma same_store_refl w : same_store w w.
Proof. repeat split. Qed.

Lemma same_store_trans w1 w2 w3 : same_store w1 w2 -> same_store w2 w3 -> same_store w1 w3.
Proof. intros (A & B & C) (D & E & F). repeat split; congruence. Qed.

Lemma same_store_tick w : same_store w (tick w).
Proof. repeat split. Qed.

Lemma check_selectors_returns this warns :
  exists warns', SemanTestCapability.check_selectors this warns = Ok warns'.
Proof.
  unfold SemanTestCapability.check_selectors.
  match goal with |- context [for_of ?l _ ?w0] => generalize w0; generalize l end.
  intros l w0. revert w0. induction l as [|x l IH]; intros w0; cbn [for_of bindR try_catchR].
  - eauto.
  - apply IH.
Qed.

(** [validate] on a capability either throws in every world or returns
    the same errors and warnings in every world; it leaves the map
    objects alone. *)
Lemma capability_validate_cases capability :
  (exists e, forall w,
      SemanTestCapability.validate RegExp capability w = (Throw e, w))
  \/ (exists errs warns, forall w,
        SemanTestCapability.validate RegExp capability w
        = (Ok {| valid := (List.length errs =? 0)%nat;
                 errors := errs;
                 warnings := warns;
                 timestamp := TimeValue (clock w (ticks w)) |}, tick w)).
Proof.
  unfold SemanTestCapability.validate.
  match goal with
  | |- context [fold_left SemanTestCapability.check_parameter _ (_, ?e)] => generalize e
  end.
  intros errs0.
  destruct (check_selectors_returns capability []) as [warns1 Hs].
  unfold bind, lift. rewrite Hs.
  destruct (fold_left SemanTestCapability.check_parameter _ _) as [names errs1].
  destruct (for_of _ _ _) as [[errs2 warns2]|e].
  - right. exists errs2, warns2. intros w. reflexivity.
  - left. exists e. intros w. reflexivity.
Qed.

Lemma capability_validate_store capability w :
  same_store w (snd (SemanTestCapability.validate RegExp capability w)).
Proof.
  destruct (capability_validate_cases capability) as [[e H]|(errs & warns & H)];
    rewrite H; [apply same_store_refl | apply same_store_tick].
Qed.

Lemma validate_throws_errors name capability e :
  validate_throws RegExp capability e ->
  capability_errors RegExp name capability = [thrown_message name e].
Proof.
  intros H. unfold capability_errors. destruct (H empty_world) as [w' ->]. reflexivity.
Qed.

Lemma validate_reports_errors name capability errs warns :
  validate_reports RegExp capability errs warns ->
  capability_errors RegExp name capability
  = if (List.length errs =? 0)%nat then [] else [reported_message name errs].
Proof.
  intros H. unfold capability_errors.
  destruct (H empty_world) as (r & w' & -> & He & _ & Hv). cbn [fst].
  rewrite Hv, He. reflexivity.
Qed.

Lemma check_capability_run name capability errs warns w :
  exists warns' w',
    SemanTestContract.check_capability RegExp (name, capability) (errs, warns) w
    = (Ok ((errs ++ capability_errors RegExp name capability)%list, warns'), w')
    /\ same_store w w'.
Proof.
  unfold SemanTestContract.check_capability, capability_errors, try_catch, bind.
  destruct (capability_validate_cases capability) as [[e H]|(es & ws & H)];
    rewrite !H; cbn [fst].
  - exists warns, w. split; [reflexivity | apply same_store_refl].
  - cbn [valid errors warnings ret].
    eexists _, (tick w). split; [|apply same_store_tick].
    destruct (List.length es =? 0)%nat; cbn [negb];
      [rewrite app_nil_r|]; reflexivity.
Qed.

Lemma capability_loop entries errs warns w :
  exists warns' w',
    for_each entries (SemanTestContract.check_capability RegExp) (errs, warns) w
    = (Ok ((errs ++ flat_map (fun entry => capability_errors RegExp (fst entry) (snd entry))
                             entries)%list, warns'), w')
    /\ same_store w w'.
Proof.
  revert errs warns w. induction entries as [|[name capability] entries IH];
    intros errs warns w; cbn [for_each flat_map fst snd].
  - exists warns, w. rewrite app_nil_r. split; [reflexivity | apply same_store_refl].
  - destruct (check_capability_run name capability errs warns w)
      as (warns1 & w1 & Hc & Hs1).
    unfold bind at 1. rewrite Hc.
    destruct (IH (errs ++ capability_errors RegExp name capability)%list warns1 w1)
      as (warns2 & w2 & Hl & Hs2).
    exists warns2, w2. rewrite Hl, <- app_assoc. split; [reflexivity|].
    eapply same_store_trans; eassumption.
Qed.

Lemma step_loop this name steps errs w :
  for_each steps (SemanTestContract.check_step this name) errs w
  = (Ok (errs ++ map (fun step => dangling_message name (step_capability step))
                     (filter (fun step =>
                                negb (has_property (step_capability step)
                                        (capabilities_at w (contract_capabilities this))))
                             steps))%list, w).
Proof.
  revert errs. induction steps as [|step steps IH]; intros errs;
    cbn [for_each filter map].
  - unfold ret. now rewrite app_nil_r.
  - unfold bind at 1.
    unfold SemanTestContract.check_step, SemanTestContract.hasCapability, bind,
      read_capabilities, ret.
    rewrite IH.
    destruct (has_property (step_capability step) _); cbn [negb map].
    + reflexivity.
    + unfold push, dangling_message. now rewrite <- app_assoc.
Qed.

Lemma workflow_loop this entries errs w :
  for_each entries (SemanTestContract.check_workflow this) errs w
  = (Ok (errs ++ flat_map (dangling_errors (capabilities_at w (contract_capabilities this)))
                          entries)%list, w).
Proof.
  revert errs. induction entries as [|[name workflow] entries IH]; intros errs;
    cbn [for_each flat_map].
  - unfold ret. now rewrite app_nil_r.
  - unfold bind at 1. unfold SemanTestContract.check_workflow.
    rewrite step_loop, IH. unfold dangling_errors. cbn [fst snd].
    now rewrite <- app_assoc.
Qed.

(** [validate] on a contract returns, with the errors of the required
    fields, of the capabilities and of the workflows, in this order. *)
Lemma contract_validate_run this w :
  exists r w',
    SemanTestContract.validate RegExp this w = (Ok r, w')
    /\ errors r
       = (required_field_errors this
          ++ flat_map (fun entry => capability_errors RegExp (fst entry) (snd entry))
                      (capabilities_at w (contract_capabilities this))
          ++ workflow_errors w this)%list
    /\ valid r = (List.length (errors r) =? 0)%nat.
Proof.
  unfold SemanTestContract.validate.
  match goal with
  | |- context [for_each _ (SemanTestContract.check_capability RegExp) (?e, _)] =>
      replace e with (required_field_errors this)
  end.
  2:{ unfold required_field_errors, SemanTestContract.getId, SemanTestContract.getVersion,
        SemanTestContract.getDomain, SemanTestContract.getTitle, push.
      destruct (truthy_string (contract_id this)), (truthy_string (contract_version this)),
        (truthy_string (contract_domain this)), (truthy_string (contract_title this));
        reflexivity. }
  unfold bind at 1. unfold bind at 1. unfold read_capabilities at 1. unfold ret at 1.
  unfold bind at 1. unfold bind at 1. unfold read_capabilities at 1. unfold ret at 1.
  unfold bind at 1. unfold Object_entries, SemanTestContract.getCapabilities.
  match goal with
  | |- context [for_each ?l (SemanTestContract.check_capability RegExp) (?e, ?wn) w] =>
      destruct (capability_loop l e wn w) as (warns1 & w1 & -> & Hs1)
  end.
  destruct Hs1 as (Hcaps & Hwfs & _).
  assert (Hc : capabilities_at w1 (contract_capabilities this)
               = capabilities_at w (contract_capabilities this)).
  { unfold capabilities_at. now rewrite Hcaps. }
  unfold bind at 1. unfold workflow_errors, SemanTestContract.getWorkflows.
  destruct (contract_workflows this) as [workflows|].
  - unfold bind at 1. unfold bind at 1. unfold read_workflows at 1. unfold ret at 1.
    unfold Object_entries. rewrite workflow_loop.
    unfold bind, new_Date, ret.
    eexists _, _. split; [reflexivity|]. cbn [errors valid].
    rewrite Hc. unfold workflows_at. rewrite Hwfs, <- app_assoc.
    split; reflexivity.
  - unfold ret at 1. unfold bind, new_Date, ret.
    eexists _, _. split; [reflexivity|]. cbn [errors valid].
    rewrite app_nil_r. split; reflexivity.
Qed.
End ContractValidation.

Section ContractTheorems.
Variable RegExp : string -> Result (string -> bool).

Lemma dangling_error_reported w this workflows name workflow step :
  contract_workflows this = Some workflows ->
  In (name, workflow) (workflows_at w workflows) ->
  In step (wf_steps workflow) ->
  has_property (step_capability step)
    (capabilities_at w (contract_capabilities this)) = false ->
  In (dangling_message name (step_capability step)) (workflow_errors w this).
Proof.
  intros Hw Hin Hstep Hkey. unfold workflow_errors. rewrite Hw.
  apply in_flat_map. exists (name, workflow). split; [exact Hin|].
  unfold dangling_errors. cbn [fst snd].
  apply (in_map (fun s => dangling_message name (step_capability s))).
  apply filter_In. split; [exact Hstep|]. now rewrite Hkey.
Qed.

Lemma valid_capabilities_no_errors (entries : JsRecord SemanTestCapabilityProps) :
  (forall name capability, In (name, capability) entries ->
     exists warns, validate_reports RegExp capability [] warns) ->
  flat_map (fun entry => capability_errors RegExp (fst entry) (snd entry)) entries = [].
Proof.
  induction entries as [|[name capability] entries IH]; intros H; cbn [flat_map fst snd].
  - reflexivity.
  - destruct (H name capability (or_introl eq_refl)) as [warns Hr].
    rewrite (validate_reports_errors RegExp name capability [] warns Hr).
    cbn [List.length Nat.eqb app]. apply IH. intros n c Hin. apply (H n c). now right.
Qed.

Lemma prefix_append (s q : string) : String.prefix s (s ++ q) = true.
Proof.
  induction s as [|c s IH]; cbn [String.prefix append].
  - now destruct q.
  - destruct (ascii_dec c c) as [_|N]; [exact IH|now elim N].
Qed.

Lemma append_assoc (a b c : string) : a ++ (b ++ c) = (a ++ b) ++ c.
Proof. induction a as [|x a IH]; cbn [append]; [reflexivity|now rewrite IH]. Qed.

(** A string includes each of the parts it is built from. *)
Lemma String_includes_middle (p s q : string) :
  String_includes (p ++ s ++ q) s = true.
Proof.
  induction p as [|c p IH].
  - cbn [append]. destruct (s ++ q) eqn:E; cbn [String_includes];
      rewrite <- E, prefix_append; reflexivity.
  - cbn [append String_includes]. rewrite IH. apply orb_true_r.
Qed.

Lemma nonempty_invalid (l : list string) x : In x l -> (List.length l =? 0)%nat = false.
Proof. destruct l; [contradiction | reflexivity]. Qed.

Lemma has_property_ordinary {V : Type} key (obj : JsRecord V) :
  inherited key = false -> has_property key obj = has_key key obj.
Proof. intros H. unfold has_property. now rewrite H, orb_false_r. Qed.

Lemma unknown_step_errors_ordinary w this :
  ordinary_steps w this -> workflow_errors w this = unknown_step_errors w this.
Proof.
  unfold ordinary_steps, workflow_errors, unknown_step_errors. intros H.
  destruct (contract_workflows this) as [workflows|]; [|reflexivity].
  specialize (H workflows).
  induction (workflows_at w workflows) as [|[name workflow] entries IH];
    cbn [flat_map]; [reflexivity|].
  rewrite IH by (intros n wf0 s E Hin; apply (H n wf0 s E); now right).
  f_equal. unfold dangling_errors, unknown_errors. cbn [fst snd]. f_equal.
  apply filter_ext_in. intros step Hs.
  now rewrite (has_property_ordinary _ _ (H name workflow step eq_refl (or_introl eq_refl) Hs)).
Qed.

Lemma entries_index {A : Type} (x : A) (l : list A) k :
  In x l -> exists i, In (i, x) (combine (seq k (List.length l)) l).
Proof.
  revert k. induction l as [|y l IH]; intros k Hin; [contradiction|].
  cbn [List.length seq combine]. destruct Hin as [->|Hin].
  - exists k. now left.
  - destruct (IH (S k) Hin) as [i Hi]. exists i. now right.
Qed.

Lemma example_loop_throws this entries index example e acc :
  In (index, example) entries ->
  SemanTestCapability.validateParameters RegExp this (ex_parameters example) = Throw e ->
  exists e', for_of entries (SemanTestCapability.check_example RegExp this) acc = Throw e'.
Proof.
  intros Hin Hthrow. revert acc.
  induction entries as [|entry entries IH]; intros acc; [contradiction|].
  cbn [for_of].
  destruct (SemanTestCapability.check_example RegExp this entry acc) as [acc1|e1] eqn:Hc.
  - cbn [bindR]. destruct Hin as [->|Hin]; [|apply IH; exact Hin].
    unfold SemanTestCapability.check_example in Hc. destruct acc as [errs warns].
    rewrite Hthrow in Hc. discriminate.
  - cbn [bindR]. eauto.
Qed.

(** A throwing example makes [validate] throw. *)
Lemma capability_validate_propagates capability example e :
  In example (SemanTestCapability.getExamples capability) ->
  SemanTestCapability.validateParameters RegExp capability (ex_parameters example) = Throw e ->
  exists e', forall w, SemanTestCapability.validate RegExp capability w = (Throw e', w).
Proof.
  intros Hin Hthrow.
  destruct (entries_index example _ 0%nat Hin) as [index Hi].
  unfold SemanTestCapability.validate.
  match goal with
  | |- context [fold_left SemanTestCapability.check_parameter _ (_, ?e)] => generalize e
  end.
  intros errs0.
  destruct (check_selectors_returns capability []) as [warns1 Hs].
  unfold bind, lift. rewrite Hs.
  destruct (fold_left SemanTestCapability.check_parameter _ _) as [names errs1].
  destruct (example_loop_throws capability _ index example e (errs1, warns1) Hi Hthrow)
    as [e' He].
  unfold Array_entries. rewrite He. exists e'. reflexivity.
Qed.

Lemma example_loop_returns this entries acc :
  (forall index example, In (index, example) entries ->
     patterns_compile RegExp this (ex_parameters example)) ->
  exists acc', for_of entries (SemanTestCapability.check_example RegExp this) acc = Ok acc'.
Proof.
  revert acc. induction entries as [|[index example] entries IH]; intros acc H;
    cbn [for_of].
  - eauto.
  - destruct (validateParameters_returns RegExp this (ex_parameters example)
                (H index example (or_introl eq_refl))) as [r Hr].
    unfold SemanTestCapability.check_example at 1. destruct acc as [errs warns].
    rewrite Hr. cbn [bindR]. apply IH. intros i x Hin. apply (H i x). now right.
Qed.

(** [validate] returns a report when the patterns its examples make it
    compile are well formed. *)
Lemma capability_validate_returns capability :
  (forall example, In example (SemanTestCapability.getExamples capability) ->
     patterns_compile RegExp capability (ex_parameters example)) ->
  exists errs warns, validate_reports RegExp capability errs warns.
Proof.
  intros H.
  assert (G : exists errs warns, forall w,
               SemanTestCapability.validate RegExp capability w
               = (Ok {| valid := (List.length errs =? 0)%nat;
                        errors := errs;
                        warnings := warns;
                        timestamp := TimeValue (clock w (ticks w)) |}, tick w)).
  { unfold SemanTestCapability.validate.
    match goal with
    | |- context [fold_left SemanTestCapability.check_parameter _ (_, ?e)] => generalize e
    end.
    intros errs0.
    destruct (check_selectors_returns capability []) as [warns1 Hs].
    unfold bind, lift. rewrite Hs.
    destruct (fold_left SemanTestCapability.check_parameter _ _) as [names errs1].
    destruct (example_loop_returns capability
                (Array_entries (SemanTestCapability.getExamples capability))
                (errs1, warns1)) as [[errs2 warns2] Hl].
    { intros index example Hin. apply H. unfold Array_entries in Hin.
      eapply in_combine_r. exact Hin. }
    rewrite Hl. exists errs2, warns2. intros w. reflexivity. }
  destruct G as (errs & warns & G). exists errs, warns. intros w.
  eexists _, _. split; [apply G|]. repeat split.
Qed.

(** X30.  [validate] on a contract never throws: it returns a report.
    An exception thrown by the validation of one capability has become
    the error ["Capability '<name>': <message>"], and the errors of a
    capability that is not valid the error
    ["Capability '<name>': <errors>"]; either way the contract is not
    valid.  Every step of a workflow whose capability is neither a key
    of the capability map nor the name of a member of
    [Object.prototype] adds the error
    ["Workflow '<workflow>' references unknown capability '<name>'"],
    and the contract is not valid.  When no step names a member of
    [Object.prototype], the errors of the report are those of the
    required fields, then those of the capabilities, then exactly one
    error for each step whose capability is not a key, in the order of
    the workflows and of their steps.  A contract with one workflow of
    one such step and no other defect (its four required fields are
    not empty and its capabilities are valid) has exactly this one
    error.  The error mentions the workflow and the capability. *)
Theorem contract_validate_report this w :
  exists r w',
    SemanTestContract.validate RegExp this w = (Ok r, w')
    /\ (forall name capability,
          In (name, capability) (capabilities_at w (contract_capabilities this)) ->
          (forall e, validate_throws RegExp capability e ->
                     In (thrown_message name e) (errors r) /\ valid r = false)
          /\ (forall errs warns,
                 validate_reports RegExp capability errs warns -> errs <> [] ->
                 In (reported_message name errs) (errors r) /\ valid r = false))
    /\ (forall workflows name workflow step,
          contract_workflows this = Some workflows ->
          In (name, workflow) (workflows_at w workflows) ->
          In step (wf_steps workflow) ->
          inherited (step_capability step) = false ->
          has_key (step_capability step)
                  (capabilities_at w (contract_capabilities this)) = false ->
          In (dangling_message name (step_capability step)) (errors r)
          /\ valid r = false)
    /\ (ordinary_steps w this ->
        errors r
        = (required_field_errors this
           ++ flat_map (fun entry => capability_errors RegExp (fst entry) (snd entry))
                (capabilities_at w (contract_capabilities this))
           ++ unknown_step_errors w this)%list)
    /\ (forall workflows name workflow step,
          contract_workflows this = Some workflows ->
          workflows_at w workflows = [(name, workflow)] ->
          wf_steps workflow = [step] ->
          inherited (step_capability step) = false ->
          has_key (step_capability step)
                  (capabilities_at w (contract_capabilities this)) = false ->
          truthy_string (contract_id this) = true ->
          truthy_string (contract_version this) = true ->
          truthy_string (contract_domain this) = true ->
          truthy_string (contract_title this) = true ->
          (forall cname capability,
              In (cname, capability) (capabilities_at w (contract_capabilities this)) ->
              exists warns, validate_reports RegExp capability [] warns) ->
          errors r = [dangling_message name (step_capability step)]
          /\ valid r = false)
    /\ (forall workflow capability,
          String_includes (dangling_message workflow capability) workflow = true
          /\ String_includes (dangling_message workflow capability) capability = true).
Proof.
  destruct (contract_validate_run RegExp this w) as (r & w' & Hrun & Herr & Hvalid).
  exists r, w'. split; [exact Hrun|]. split; [|split; [|split; [|split]]].
  5:{ intros workflow capability. unfold dangling_message. split.
      - apply (String_includes_middle "Workflow '" workflow).
      - assert (E : "Workflow '" ++ workflow ++ "' references unknown capability '"
                    ++ capability ++ "'"
                    = ("Workflow '" ++ workflow ++ "' references unknown capability '")
                      ++ capability ++ "'").
        { rewrite <- !append_assoc. reflexivity. }
        rewrite E. apply String_includes_middle. }
  - intros name capability Hin.
    assert (Hsub : incl (capability_errors RegExp name capability) (errors r)).
    { rewrite Herr. intros x Hx. apply in_or_app. right. apply in_or_app. left.
      apply in_flat_map. exists (name, capability). split; [exact Hin|exact Hx]. }
    split.
    + intros e He. rewrite (validate_throws_errors RegExp name capability e He) in Hsub.
      assert (H : In (thrown_message name e) (errors r)) by (apply Hsub; now left).
      split; [exact H|]. rewrite Hvalid. eapply nonempty_invalid; exact H.
    + intros errs warns Hr Hne.
      rewrite (validate_reports_errors RegExp name capability errs warns Hr) in Hsub.
      destruct errs; [contradiction|].
      assert (H : In (reported_message name (s :: errs)) (errors r))
        by (apply Hsub; now left).
      split; [exact H|]. rewrite Hvalid. eapply nonempty_invalid; exact H.
  - intros workflows name workflow step Hw Hin Hstep Hn Hkey.
    assert (H : In (dangling_message name (step_capability step)) (errors r)).
    { rewrite Herr. apply in_or_app. right. apply in_or_app. right.
      eapply dangling_error_reported; try eassumption.
      now rewrite has_property_ordinary. }
    split; [exact H|]. rewrite Hvalid. eapply nonempty_invalid; exact H.
  - intros Hord. now rewrite Herr, unknown_step_errors_ordinary.
  - intros workflows name workflow step Hw Hwf Hsteps Hn Hkey Hid Hver Hdom Htitle Hcaps.
    assert (H : errors r = [dangling_message name (step_capability step)]).
    { rewrite Herr, (valid_capabilities_no_errors _ Hcaps).
      unfold required_field_errors. rewrite Hid, Hver, Hdom, Htitle.
      unfold workflow_errors. rewrite Hw, Hwf. cbn [flat_map app].
      unfold dangling_errors. cbn [fst snd]. rewrite Hsteps. cbn [filter].
      rewrite has_property_ordinary, Hkey by exact Hn. reflexivity. }
    split; [exact H|]. rewrite Hvalid, H. reflexivity.
Qed.
End ContractTheorems.

Section Scenario.
Import Samples.
Variable RegExp : string -> Result (string -> bool).

(** Claim C8, as amended.  The contract "c1" of the concrete scenario,
    whose capability [login] has a non-empty id, name and description,
    is valid; with the step of its workflow [signIn] invoking [logout]
    the report is not valid and holds exactly one error. *)
Theorem login_scenario id name description :
  truthy_string id = true ->
  truthy_string name = true ->
  truthy_string description = true ->
  (exists r w',
      SemanTestContract.validate RegExp login_contract
        (login_world (login_capability id name description) "login") = (Ok r, w')
      /\ valid r = true /\ errors r = [])
  /\ (exists r w',
      SemanTestContract.validate RegExp login_contract
        (login_world (login_capability id name description) "logout") = (Ok r, w')
      /\ valid r = false
      /\ errors r = ["Workflow 'signIn' references unknown capability 'logout'"]).
Proof.
  intros Hid Hname Hdesc.
  assert (Hcap : forall w,
             SemanTestCapability.validate RegExp (login_capability id name description) w
             = (Ok {| valid := true; errors := []; warnings := [];
                      timestamp := TimeValue (clock w (ticks w)) |}, tick w)).
  { intros w. unfold SemanTestCapability.validate, login_capability,
      SemanTestCapability.getId, SemanTestCapability.getName,
      SemanTestCapability.getDescription, SemanTestCapability.getPrimarySelector,
      SemanTestCapability.getSelector, SemanTestCapability.getParameters,
      SemanTestCapability.getExamples.
    cbn [cap_id cap_name cap_description cap_selector cap_parameters cap_examples].
    rewrite Hid, Hname, Hdesc. reflexivity. }
  assert (Hrep : validate_reports RegExp (login_capability id name description) [] []).
  { intros w. eexists _, _. split; [apply Hcap|]. repeat split. }
  split.
  - destruct (contract_validate_run RegExp login_contract
                (login_world (login_capability id name description) "login"))
      as (r & w' & Hrun & Herr & Hvalid).
    exists r, w'. split; [exact Hrun|].
    assert (H : errors r = []).
    { rewrite Herr. cbn [capabilities_at login_world login_contract contract_capabilities
                           capabilityMaps nth flat_map fst snd].
      rewrite (validate_reports_errors RegExp "login" _ [] [] Hrep). reflexivity. }
    split; [|exact H]. rewrite Hvalid, H. reflexivity.
  - destruct (contract_validate_run RegExp login_contract
                (login_world (login_capability id name description) "logout"))
      as (r & w' & Hrun & Herr & Hvalid).
    exists r, w'. split; [exact Hrun|].
    assert (H : errors r = ["Workflow 'signIn' references unknown capability 'logout'"]).
    { rewrite Herr. cbn [capabilities_at login_world login_contract contract_capabilities
                           capabilityMaps nth flat_map fst snd].
      rewrite (validate_reports_errors RegExp "login" _ [] [] Hrep). reflexivity. }
    split; [|exact H]. rewrite Hvalid, H. reflexivity.
Qed.
End Scenario.

(** The scenario with the capability id "cap-login", name "login" and
    description "Log in". *)
Lemma login_scenario_witness :
  (truthy_string "cap-login" = true /\ truthy_string "login" = true
   /\ truthy_string "Log in" = true)
  /\ exists r w',
       SemanTestContract.validate Samples.sample_RegExp Samples.login_contract
         (Samples.login_world (Samples.login_capability "cap-login" "login" "Log in")
            "login")
       = (Ok r, w')
       /\ valid r = true /\ errors r = [].
Proof.
  split; [repeat split|].
  exact (proj1 (login_scenario Samples.sample_RegExp "cap-login" "login" "Log in"
                  eq_refl eq_refl eq_refl)).
Defined.

(** The scenario as it is written gives the capability [login] its
    type, selector and parameters only: without an id and a description
    the capability is not valid, and neither is the contract. *)
Lemma login_scenario_counterexample :
  SemanTestContract.validate Samples.sample_RegExp Samples.login_contract
    (Samples.login_world (Samples.login_capability "" "login" "") "login")
  = (Ok {| valid := false;
           errors := ["Capability 'login': Capability ID is required, Capability description is required"];
           warnings := [];
           timestamp := TimeValue 1001 |},
     tick (tick (Samples.login_world (Samples.login_capability "" "login" "") "login"))).
Proof. reflexivity. Qed.

(** Claim C5, a defect of the code.  The first example of the
    capability makes [validateParameters] compile the pattern ["("]:
    [validate] throws the [SyntaxError] instead of returning a report,
    and the second example, whose argument has the wrong type, is never
    checked.  [validate] on a contract that holds the capability
    catches the exception and reports it. *)
Theorem example_exception_propagates :
  SemanTestCapability.validate Samples.sample_RegExp Samples.search_capability
    Samples.empty_clock_world
  = (Throw {| error_name := "SyntaxError";
              error_message := "Invalid regular expression: /(/: Unterminated group" |},
     Samples.empty_clock_world)
  /\ SemanTestCapability.validateParameters Samples.sample_RegExp
       Samples.search_capability [("term", VNumber 1)]
     = Ok {| params_valid := false;
             params_errors := ["Parameter 'term' expected string, got number"];
             params_warnings := [] |}
  /\ SemanTestContract.validate Samples.sample_RegExp Samples.login_contract
       (Samples.login_world Samples.search_capability "login")
     = (Ok {| valid := false;
              errors :=
                ["Capability 'login': Invalid regular expression: /(/: Unterminated group"];
              warnings := [];
              timestamp := TimeValue 1000 |},
        tick (Samples.login_world Samples.search_capability "login")).
Proof. repeat split. Qed.

(** ** The "with" operations *)

Section WithOperations.
Import SemanTestContract.

Lemma update_at_fresh {A : Type} (f : A -> A) (l : list A) (x : A) :
  update_at (List.length l) f (l ++ [x])%list = (l ++ [f x])%list.
Proof. induction l as [|y l IH]; cbn [List.length app update_at]; [|rewrite IH]; reflexivity. Qed.

Lemma nth_fresh {A : Type} (l : list A) (x d : A) :
  nth (List.length l) (l ++ [x])%list d = x.
Proof. induction l as [|y l IH]; cbn [List.length app nth]; [reflexivity|exact IH]. Qed.

Lemma nth_old {A : Type} (l : list A) (x d : A) r :
  (r < List.length l)%nat -> nth r (l ++ [x])%list d = nth r l d.
Proof. intros H. now apply app_nth1. Qed.

Lemma view_preserved w w' this :
  allocated w this -> objects_preserved w w' -> view w' this = view w this.
Proof.
  intros [Hc Hw] [Pc Pw]. unfold view. rewrite (Pc _ Hc).
  destruct (contract_workflows this) as [r|]; cbn [option_map]; [|reflexivity].
  now rewrite (Pw _ Hw).
Qed.

Lemma withCapability_run this name capability w :
  exists this' w',
    withCapability this name capability w = (Ok this', w')
    /\ capabilities_at w' (contract_capabilities this')
       = set_property name capability (capabilities_at w (contract_capabilities this))
    /\ workflowMaps w' = workflowMaps w
    /\ clock w' = clock w
    /\ ticks w' = S (ticks w)
    /\ capabilityMaps w'
       = (capabilityMaps w
          ++ [set_property name capability
                (capabilities_at w (contract_capabilities this))])%list
    /\ this' = {| contract_id := contract_id this;
                  contract_version := contract_version this;
                  contract_domain := contract_domain this;
                  contract_title := contract_title this;
                  contract_description := contract_description this;
                  contract_capabilities := List.length (capabilityMaps w);
                  contract_workflows := contract_workflows this;
                  contract_metadata := contract_metadata this;
                  contract_createdAt := contract_createdAt this;
                  contract_updatedAt := TimeValue (clock w (ticks w)) |}.
Proof.
  eexists _, _. split; [reflexivity|].
  cbn [contract_capabilities capabilities_at capabilityMaps workflowMaps clock ticks tick].
  rewrite update_at_fresh. split; [|repeat split].
  unfold capabilities_at at 1. cbn [tick capabilityMaps]. apply nth_fresh.
Qed.
Lemma set_property_idempotent {V : Type} (key : string) (v : V) (obj : JsRecord V) :
  set_property key v (set_property key v obj) = set_property key v obj.
Proof.
  induction obj as [|[k x] obj IH]; cbn [set_property].
  - now rewrite String.eqb_refl.
  - destruct (String.eqb k key) eqn:E; cbn [set_property]; rewrite E; [reflexivity|].
    now rewrite IH.
Qed.

(** Claim C7.  Adding the same capability under the same name twice
    gives a contract equal to the one after the first addition in every
    field except [updatedAt]. *)
Theorem withCapability_idempotent this name capability w :
  exists this1 w1 this2 w2,
    withCapability this name capability w = (Ok this1, w1)
    /\ withCapability this1 name capability w1 = (Ok this2, w2)
    /\ view w2 this2
       = {| view_id := view_id (view w1 this1);
            view_version := view_version (view w1 this1);
            view_domain := view_domain (view w1 this1);
            view_title := view_title (view w1 this1);
            view_description := view_description (view w1 this1);
            view_capabilities := view_capabilities (view w1 this1);
            view_workflows := view_workflows (view w1 this1);
            view_metadata := view_metadata (view w1 this1);
            view_createdAt := view_createdAt (view w1 this1);
            view_updatedAt := TimeValue (clock w1 (ticks w1)) |}
    /\ view_capabilities (view w1 this1)
       = set_property name capability (capabilities_at w (contract_capabilities this)).
Proof.
  destruct (withCapability_run this name capability w)
    as (this1 & w1 & H1 & Hc1 & Hw1 & Hk1 & Ht1 & Hm1 & E1).
  destruct (withCapability_run this1 name capability w1)
    as (this2 & w2 & H2 & Hc2 & Hw2 & Hk2 & Ht2 & Hm2 & E2).
  exists this1, w1, this2, w2. split; [exact H1|]. split; [exact H2|].
  split; [|exact Hc1].
  unfold view. rewrite Hc2, Hc1, set_property_idempotent.
  rewrite E2. cbn [contract_id contract_version contract_domain contract_title
                   contract_description contract_workflows contract_metadata
                   contract_createdAt contract_updatedAt view_id view_version
                   view_domain view_title view_description view_capabilities
                   view_workflows view_metadata view_createdAt].
  unfold workflows_at. rewrite Hw2. reflexivity.
Qed.

Lemma objects_preserved_fresh_capabilities w w' obj :
  capabilityMaps w' = (capabilityMaps w ++ [obj])%list ->
  workflowMaps w' = workflowMaps w ->
  objects_preserved w w'.
Proof.
  intros Hc Hw. split; intros r Hr.
  - unfold capabilities_at. rewrite Hc. now apply nth_old.
  - unfold workflows_at. now rewrite Hw.
Qed.

Lemma objects_preserved_fresh_workflows w w' obj :
  capabilityMaps w' = capabilityMaps w ->
  workflowMaps w' = (workflowMaps w ++ [obj])%list ->
  objects_preserved w w'.
Proof.
  intros Hc Hw. split; intros r Hr.
  - unfold capabilities_at. now rewrite Hc.
  - unfold workflows_at. rewrite Hw. now apply nth_old.
Qed.

(** Claim C6.  Each of [withCapability], [withoutCapability],
    [withMetadata] and [withWorkflow] returns a new contract in which
    the named field is replaced and [updatedAt] is the current time,
    every other field being that of the original; the original contract
    and every object of the store are left as they were. *)
Theorem with_operations_frame this w :
  allocated w this ->
  (forall name capability,
      exists this' w',
        withCapability this name capability w = (Ok this', w')
        /\ view w' this'
           = updated_view w this
               (set_property name capability (view_capabilities (view w this)))
               (view_workflows (view w this)) (view_metadata (view w this))
        /\ view w' this = view w this
        /\ objects_preserved w w')
  /\ (forall name,
      exists this' w',
        withoutCapability this name w = (Ok this', w')
        /\ view w' this'
           = updated_view w this
               (delete_property name (view_capabilities (view w this)))
               (view_workflows (view w this)) (view_metadata (view w this))
        /\ view w' this = view w this
        /\ objects_preserved w w')
  /\ (forall metadata,
      exists this' w',
        withMetadata this metadata w = (Ok this', w')
        /\ view w' this'
           = updated_view w this (view_capabilities (view w this))
               (view_workflows (view w this)) (Some metadata)
        /\ view w' this = view w this
        /\ objects_preserved w w')
  /\ (forall name workflow,
      exists this' w',
        withWorkflow this name workflow w = (Ok this', w')
        /\ view w' this'
           = updated_view w this (view_capabilities (view w this))
               (Some (set_property name workflow (workflows_or_empty w this)))
               (view_metadata (view w this))
        /\ view w' this = view w this
        /\ objects_preserved w w').
Proof.
  intros Halloc. assert (Ha := Halloc). destruct Ha as [Hc Hw].
  split; [|split; [|split]].
  - intros name capability.
    destruct (withCapability_run this name capability w)
      as (this1 & w1 & H1 & Hc1 & Hw1 & Hk1 & Ht1 & Hm1 & E1).
    assert (P : objects_preserved w w1)
      by (eapply objects_preserved_fresh_capabilities; eassumption).
    exists this1, w1. split; [exact H1|]. split; [|split; [|exact P]].
    + unfold view at 1. rewrite Hc1. rewrite E1. unfold updated_view, view.
      cbn [contract_id contract_version contract_domain contract_title
           contract_description contract_workflows contract_metadata
           contract_createdAt contract_updatedAt view_capabilities view_workflows
           view_metadata].
      unfold workflows_at. now rewrite Hw1.
    + now apply view_preserved.
  - intros name. eexists _, _. split; [reflexivity|].
    assert (P : objects_preserved w
                  (tick {| capabilityMaps :=
                             update_at (List.length (capabilityMaps w))
                               (delete_property name)
                               (capabilityMaps w
                                ++ [capabilities_at w (contract_capabilities this)])%list;
                           workflowMaps := workflowMaps w;
                           clock := clock w;
                           ticks := ticks w |})).
    { eapply objects_preserved_fresh_capabilities; [|reflexivity].
      cbn [tick capabilityMaps]. apply update_at_fresh. }
    split; [|split; [|exact P]].
    + unfold view at 1, updated_view.
      cbn [contract_id contract_version contract_domain contract_title
           contract_description contract_workflows contract_metadata
           contract_createdAt contract_updatedAt contract_capabilities].
      unfold capabilities_at at 1. cbn [tick capabilityMaps].
      rewrite update_at_fresh, nth_fresh. reflexivity.
    + now apply view_preserved.
  - intros metadata. eexists _, _. split; [reflexivity|].
    assert (P : objects_preserved w (tick w)) by (split; intros; reflexivity).
    split; [|split; [|exact P]].
    + reflexivity.
    + now apply view_preserved.
  - intros name workflow.
    assert (Hrun : withWorkflow this name workflow w
                   = (Ok {| contract_id := contract_id this;
                            contract_version := contract_version this;
                            contract_domain := contract_domain this;
                            contract_title := contract_title this;
                            contract_description := contract_description this;
                            contract_capabilities := contract_capabilities this;
                            contract_workflows := Some (List.length (workflowMaps w));
                            contract_metadata := contract_metadata this;
                            contract_createdAt := contract_createdAt this;
                            contract_updatedAt := TimeValue (clock w (ticks w)) |},
                      tick {| capabilityMaps := capabilityMaps w;
                              workflowMaps :=
                                (workflowMaps w
                                 ++ [set_property name workflow
                                       (workflows_or_empty w this)])%list;
                              clock := clock w;
                              ticks := ticks w |})).
    { unfold withWorkflow, spread_workflows, workflows_or_empty.
      destruct (contract_workflows this) as [r|];
        unfold bind, read_workflows, new_workflows, modify_workflows, new_Date, ret;
        cbn [workflowMaps capabilityMaps clock ticks];
        rewrite update_at_fresh; reflexivity. }
    eexists _, _. split; [exact Hrun|].
    assert (P : objects_preserved w
                  (tick {| capabilityMaps := capabilityMaps w;
                           workflowMaps :=
                             (workflowMaps w
                              ++ [set_property name workflow
                                    (workflows_or_empty w this)])%list;
                           clock := clock w;
                           ticks := ticks w |})).
    { eapply objects_preserved_fresh_workflows; reflexivity. }
    split; [|split; [|exact P]].
    + unfold view at 1, updated_view.
      cbn [contract_id contract_version contract_domain contract_title
           contract_description contract_workflows contract_metadata
           contract_createdAt contract_updatedAt contract_capabilities option_map].
      unfold workflows_at at 1. cbn [tick workflowMaps]. rewrite nth_fresh.
      reflexivity.
    + now apply view_preserved.
Qed.
End WithOperations.

(** ** Serialization *)

Section DateRoundTrip.

Lemma digit_value_char d : 0 <= d < 10 -> digit_value (digit_char d) = Some d.
Proof.
  intros H.
  assert (E : d = 0 \/ d = 1 \/ d = 2 \/ d = 3 \/ d = 4 \/ d = 5 \/ d = 6 \/ d = 7
              \/ d = 8 \/ d = 9) by lia.
  repeat (destruct E as [->|E]; [reflexivity|]). subst. reflexivity.
Qed.

Lemma digit_char_not_sign d :
  0 <= d < 10 -> digit_char d <> "+"%char /\ digit_char d <> "-"%char.
Proof.
  intros H.
  assert (E : d = 0 \/ d = 1 \/ d = 2 \/ d = 3 \/ d = 4 \/ d = 5 \/ d = 6 \/ d = 7
              \/ d = 8 \/ d = 9) by lia.
  repeat (destruct E as [->|E]; [split; discriminate|]). subst. split; discriminate.
Qed.

Lemma read_digits_pad w n rest acc :
  0 <= n < 10 ^ Z.of_nat w ->
  read_digits w (pad w n ++ rest) acc = Some (acc * 10 ^ Z.of_nat w + n, rest).
Proof.
  revert n acc. induction w as [|w IH]; intros n acc H.
  - cbn [read_digits pad append]. f_equal. f_equal. cbn in H. cbn. lia.
  - cbn [read_digits pad append].
    assert (P : 0 < 10 ^ Z.of_nat w) by (apply Z.pow_pos_nonneg; lia).
    assert (E : 10 ^ Z.of_nat (S w) = 10 * 10 ^ Z.of_nat w).
    { rewrite Nat2Z.inj_succ, Z.pow_succ_r by lia. reflexivity. }
    rewrite E in H |- *.
    assert (D : 0 <= n / 10 ^ Z.of_nat w < 10).
    { split; [apply Z.div_pos; lia|]. apply Z.div_lt_upper_bound; lia. }
    rewrite (digit_value_char _ D).
    rewrite IH by (apply Z.mod_pos_bound; exact P).
    f_equal. f_equal.
    pose proof (Z.div_mod n (10 ^ Z.of_nat w)) as M. nia.
Qed.

End DateRoundTrip.

Section Calendar.

Lemma first_integers_In n i : 0 <= i < Z.of_nat n -> In i (first_integers n).
Proof.
  intros H. unfold first_integers. rewrite <- (Z2Nat.id i) by lia.
  apply in_map. apply in_seq. lia.
Qed.

Lemma cycle_years_checked : forallb cycle_year_ok (first_integers 400) = true.
Proof. vm_compute. reflexivity. Qed.

Lemma year_days_checked : forallb year_day_ok (first_integers 366) = true.
Proof. vm_compute. reflexivity. Qed.

Lemma cycle_year_ok_spec y :
  0 <= y < 400 ->
  year_of_cycle (year_start y) = y
  /\ year_of_cycle (year_start (y + 1) - 1) = y
  /\ year_start (y + 1) - year_start y <= 366.
Proof.
  intros H.
  pose proof (proj1 (forallb_forall _ _) cycle_years_checked y
                (first_integers_In 400 y H)) as C.
  unfold cycle_year_ok in C.
  apply andb_true_iff in C. destruct C as [C C3].
  apply andb_true_iff in C. destruct C as [C1 C2].
  apply Z.eqb_eq in C1. apply Z.eqb_eq in C2. apply Z.leb_le in C3. auto.
Qed.

Lemma cycle_numerator_step a :
  0 <= a < 146096 ->
  a - a / 1460 + a / 36524 - a / 146096
  <= a + 1 - (a + 1) / 1460 + (a + 1) / 36524 - (a + 1) / 146096.
Proof.
  intros H.
  pose proof (Z.div_mod a 1460) as A1. pose proof (Z.mod_pos_bound a 1460) as A2.
  pose proof (Z.div_mod (a + 1) 1460) as B1.
  pose proof (Z.mod_pos_bound (a + 1) 1460) as B2.
  pose proof (Z.div_mod a 36524) as C1. pose proof (Z.mod_pos_bound a 36524) as C2.
  pose proof (Z.div_mod (a + 1) 36524) as D1.
  pose proof (Z.mod_pos_bound (a + 1) 36524) as D2.
  assert (E : a / 146096 = 0) by (apply Z.div_small; lia).
  assert (F : (a + 1) / 146096 <= 1).
  { apply Z.div_le_upper_bound; lia. }
  assert (G : (a + 1) / 146096 = 1 -> (a + 1) / 1460 = 100 /\ a / 1460 = 100).
  { intros G1.
    assert (G2 : a + 1 = 146096).
    { pose proof (Z.div_mod (a + 1) 146096). pose proof (Z.mod_pos_bound (a + 1) 146096).
      lia. }
    split; [rewrite G2; reflexivity|].
    replace a with 146095 by lia. reflexivity. }
  assert (P : 0 <= (a + 1) / 146096) by (apply Z.div_pos; lia).
  lia.
Qed.

Lemma year_of_cycle_mono a b :
  0 <= a <= b -> b <= 146096 -> year_of_cycle a <= year_of_cycle b.
Proof.
  intros Hab Hb. unfold year_of_cycle. apply Z.div_le_mono; [lia|].
  assert (G : forall n a, 0 <= a -> a + Z.of_nat n <= 146096 ->
                a - a / 1460 + a / 36524 - a / 146096
                <= a + Z.of_nat n - (a + Z.of_nat n) / 1460 + (a + Z.of_nat n) / 36524
                   - (a + Z.of_nat n) / 146096).
  { induction n as [|n IH]; intros x Hx Hn.
    - replace (x + Z.of_nat 0) with x by lia. lia.
    - rewrite Nat2Z.inj_succ in *.
      replace (x + Z.succ (Z.of_nat n)) with (x + 1 + Z.of_nat n) in * by lia.
      etransitivity; [apply (cycle_numerator_step x); lia|].
      apply (IH (x + 1)); lia. }
  specialize (G (Z.to_nat (b - a)) a).
  rewrite Z2Nat.id in G by lia.
  replace (a + (b - a)) with b in G by lia. apply G; lia.
Qed.

(** The year of a day of the cycle and the day of that year. *)
Lemma year_of_cycle_range doe :
  0 <= doe < 146097 ->
  0 <= year_of_cycle doe < 400
  /\ 0 <= doe - year_start (year_of_cycle doe) <= 365.
Proof.
  assert (G : forall n, (n <= 400)%nat -> forall doe,
                0 <= doe < year_start (Z.of_nat n) ->
                0 <= year_of_cycle doe < Z.of_nat n
                /\ 0 <= doe - year_start (year_of_cycle doe) <= 365).
  { induction n as [|n IH]; intros Hn x Hx.
    - change (year_start (Z.of_nat 0)) with 0 in Hx. lia.
    - assert (Hy : 0 <= Z.of_nat n < 400) by lia.
      destruct (cycle_year_ok_spec (Z.of_nat n) Hy) as (Y1 & Y2 & Y3).
      rewrite Nat2Z.inj_succ in *. unfold Z.succ in *.
      destruct (Z_lt_dec x (year_start (Z.of_nat n))) as [L|L].
      + destruct (IH (Nat.le_trans _ _ _ (Nat.le_succ_diag_r n) Hn) x) as [I1 I2];
          [lia|]. split; [lia|exact I2].
      + assert (B : year_start (Z.of_nat n + 1) <= 146096).
        { assert (M : forall k, (k <= 400)%nat -> forall j, (j <= k)%nat ->
                        year_start (Z.of_nat j) <= year_start (Z.of_nat k)).
          { induction k as [|k IHk]; intros Hk j Hj.
            - replace j with 0%nat by lia. lia.
            - destruct (Nat.eq_dec j (S k)) as [->|N]; [lia|].
              assert (Hk' : 0 <= Z.of_nat k < 400) by lia.
              destruct (cycle_year_ok_spec (Z.of_nat k) Hk') as (K1 & K2 & _).
              assert (S1 : year_start (Z.of_nat k) <= year_start (Z.of_nat (S k))).
              { rewrite Nat2Z.inj_succ. unfold Z.succ. unfold year_start.
                pose proof (Z.div_le_mono (Z.of_nat k) (Z.of_nat k + 1) 4).
                pose proof (Z.div_mod (Z.of_nat k) 100).
                pose proof (Z.mod_pos_bound (Z.of_nat k) 100).
                pose proof (Z.div_mod (Z.of_nat k + 1) 100).
                pose proof (Z.mod_pos_bound (Z.of_nat k + 1) 100).
                lia. }
              specialize (IHk ltac:(lia) j ltac:(lia)). lia. }
          specialize (M 400%nat (Nat.le_refl _) (S n) Hn).
          rewrite Nat2Z.inj_succ in M. unfold Z.succ in M.
          change (year_start (Z.of_nat 400)) with 146096 in M. exact M. }
        assert (P0 : 0 <= year_start (Z.of_nat n)).
        { unfold year_start.
          pose proof (Z.div_mod (Z.of_nat n) 100). pose proof (Z.mod_pos_bound (Z.of_nat n) 100).
          pose proof (Z.div_pos (Z.of_nat n) 4). lia. }
        assert (M1 : year_of_cycle (year_start (Z.of_nat n)) <= year_of_cycle x).
        { apply year_of_cycle_mono; lia. }
        assert (M2 : year_of_cycle x <= year_of_cycle (year_start (Z.of_nat n + 1) - 1)).
        { apply year_of_cycle_mono; lia. }
        assert (E : year_of_cycle x = Z.of_nat n) by lia.
        rewrite E. lia. }
  intros H. destruct (Z.eq_dec doe 146096) as [->|N].
  - change (year_of_cycle 146096) with 399. change (year_start 399) with 145731. lia.
  - apply (G 400%nat (Nat.le_refl _)).
    change (year_start (Z.of_nat 400)) with 146096. lia.
Qed.

Lemma year_day_ok_spec doy :
  0 <= doy <= 365 -> year_day_ok doy = true.
Proof.
  intros H. apply (proj1 (forallb_forall _ _) year_days_checked).
  apply first_integers_In. lia.
Qed.

Lemma YearMonthDate_shift day k :
  YearMonthDate (day + k * 146097)
  = let '(y, m, d) := YearMonthDate day in (y + k * 400, m, d).
Proof.
  unfold YearMonthDate. cbv zeta.
  replace (day + k * 146097 + 719468) with (day + 719468 + k * 146097) by ring.
  rewrite Z.div_add by lia.
  replace (day + 719468 + k * 146097 - ((day + 719468) / 146097 + k) * 146097)
    with (day + 719468 - (day + 719468) / 146097 * 146097) by ring.
  f_equal. f_equal. ring.
Qed.

Lemma MakeDay_shift y m d k :
  MakeDay (y + k * 400) m d = MakeDay y m d + k * 146097.
Proof.
  unfold MakeDay. cbv zeta.
  replace (y + k * 400 - (if m <=? 2 then 1 else 0))
    with (y - (if m <=? 2 then 1 else 0) + k * 400) by ring.
  rewrite Z.div_add by lia.
  replace (y - (if m <=? 2 then 1 else 0) + k * 400
           - ((y - (if m <=? 2 then 1 else 0)) / 400 + k) * 400)
    with (y - (if m <=? 2 then 1 else 0)
          - (y - (if m <=? 2 then 1 else 0)) / 400 * 400) by ring.
  ring.
Qed.

Lemma cycle_date_spec doe y m d :
  0 <= doe < 146097 ->
  YearMonthDate (doe - 719468) = (y, m, d) ->
  MakeDay y m d = doe - 719468 /\ 1 <= m <= 12 /\ 1 <= d <= 31 /\ 0 <= y <= 400.
Proof.
  intros H E. unfold YearMonthDate in E. cbv zeta in E.
  replace (doe - 719468 + 719468) with doe in E by lia.
  rewrite (Z.div_small doe 146097) in E by lia.
  replace (doe - 0 * 146097) with doe in E by lia.
  change ((doe - doe / 1460 + doe / 36524 - doe / 146096) / 365)
    with (year_of_cycle doe) in E.
  change (365 * year_of_cycle doe + year_of_cycle doe / 4 - year_of_cycle doe / 100)
    with (year_start (year_of_cycle doe)) in E.
  destruct (year_of_cycle_range doe H) as [Hy Hdoy].
  pose proof (year_day_ok_spec _ Hdoy) as Hok.
  unfold year_day_ok in Hok. cbv zeta in Hok.
  remember (year_of_cycle doe) as yoe eqn:Eyoe.
  remember (doe - year_start yoe) as doy eqn:Edoy.
  remember ((5 * doy + 2) / 153) as mp eqn:Emp.
  remember (doy - (153 * mp + 2) / 5 + 1) as d0 eqn:Ed0.
  remember (if mp <? 10 then mp + 3 else mp - 9) as m0 eqn:Em0.
  injection E as Ey Em Ed. subst y m d.
  repeat (apply andb_true_iff in Hok; destruct Hok as [Hok ?]).
  apply Z.eqb_eq in H0.
  repeat match goal with
         | H : (_ <=? _) = true |- _ => apply Z.leb_le in H
         end.
  assert (Hc : 0 <= (if m0 <=? 2 then 1 else 0) <= 1) by (destruct (m0 <=? 2); lia).
  split; [|lia].
  unfold MakeDay. cbv zeta.
  replace (yoe + 0 + (if m0 <=? 2 then 1 else 0) - (if m0 <=? 2 then 1 else 0))
    with yoe by lia.
  rewrite (Z.div_small yoe 400) by lia.
  replace (yoe - 0 * 400) with yoe by lia.
  rewrite H0. unfold year_start in Edoy. lia.
Qed.

(** Calendar dates and day numbers correspond. *)
Lemma MakeDay_YearMonthDate day y m d :
  YearMonthDate day = (y, m, d) ->
  MakeDay y m d = day
  /\ 1 <= m <= 12 /\ 1 <= d <= 31
  /\ (day + 719468) / 146097 * 400 <= y <= (day + 719468) / 146097 * 400 + 400.
Proof.
  intros E.
  pose proof (Z.mod_pos_bound (day + 719468) 146097 eq_refl) as Hdoe.
  pose proof (Z.div_mod (day + 719468) 146097) as Hdiv.
  remember ((day + 719468) / 146097) as k eqn:Hk.
  remember ((day + 719468) mod 146097) as doe eqn:Hd.
  assert (Hday : day = doe - 719468 + k * 146097) by lia.
  pose proof (YearMonthDate_shift (doe - 719468) k) as Hshift.
  rewrite <- Hday, E in Hshift.
  destruct (YearMonthDate (doe - 719468)) as [[y0 m0] d0] eqn:E0.
  injection Hshift as Ey Em Ed.
  destruct (cycle_date_spec doe y0 m0 d0 Hdoe E0)
    as (Hmk & Hm & Hdd & Hy).
  rewrite Ey, Em, Ed, MakeDay_shift. lia.
Qed.

End Calendar.

Section ISO.

Lemma read_year_unsigned c s :
  c <> "+"%char -> c <> "-"%char ->
  read_year (String c s) = read_digits 4 (String c s) 0.
Proof.
  intros Hp Hm. unfold read_year.
  destruct c as [[] [] [] [] [] [] [] []]; try reflexivity; congruence.
Qed.

Lemma read_year_string y rest :
  -999999 <= y <= 999999 ->
  read_year (year_string y ++ rest) = Some (y, rest).
Proof.
  intros H. unfold year_string.
  destruct ((0 <=? y) && (y <=? 9999)) eqn:E.
  - apply andb_true_iff in E. destruct E as [E1 E2].
    apply Z.leb_le in E1. apply Z.leb_le in E2.
    assert (B : 0 <= y < 10 ^ Z.of_nat 4) by (cbn; lia).
    pose proof (read_digits_pad 4 y rest 0 B) as R.
    cbn [pad append] in R |- *.
    assert (D : 0 <= y / 10 ^ Z.of_nat 3 < 10).
    { split; [apply Z.div_pos; cbn; lia|]. apply Z.div_lt_upper_bound; cbn; lia. }
    destruct (digit_char_not_sign _ D) as [Hp Hm].
    rewrite (read_year_unsigned _ _ Hp Hm), R.
    reflexivity.
  - destruct (y <? 0) eqn:N.
    + apply Z.ltb_lt in N. cbn [append read_year].
      rewrite (read_digits_pad 6 (- y) rest 0) by (cbn; lia).
      replace (0 * 10 ^ Z.of_nat 6 + - y) with (- y) by lia.
      destruct (- y =? 0) eqn:Z0; [apply Z.eqb_eq in Z0; lia|].
      now rewrite Z.opp_involutive.
    + apply Z.ltb_ge in N. cbn [append read_year].
      rewrite (read_digits_pad 6 y rest 0) by (cbn; lia).
      reflexivity.
Qed.

Lemma time_of_day ms :
  0 <= ms < msPerDay ->
  0 <= ms / 3600000 <= 23
  /\ 0 <= ms / 60000 mod 60 <= 59
  /\ 0 <= ms / 1000 mod 60 <= 59
  /\ 0 <= ms mod 1000 <= 999
  /\ ms / 3600000 * 3600000 + ms / 60000 mod 60 * 60000
     + ms / 1000 mod 60 * 1000 + ms mod 1000 = ms.
Proof.
  unfold msPerDay. intros H.
  pose proof (Z.div_mod ms 1000) as A.
  pose proof (Z.mod_pos_bound ms 1000) as A'.
  pose proof (Z.div_mod (ms / 1000) 60) as B.
  pose proof (Z.mod_pos_bound (ms / 1000) 60) as B'.
  pose proof (Z.div_mod (ms / 60000) 60) as C.
  pose proof (Z.mod_pos_bound (ms / 60000) 60) as C'.
  assert (E1 : ms / 1000 / 60 = ms / 60000) by (rewrite Z.div_div by lia; reflexivity).
  assert (E2 : ms / 60000 / 60 = ms / 3600000) by (rewrite Z.div_div by lia; reflexivity).
  rewrite E1 in B. rewrite E2 in C. lia.
Qed.

(** A valid date survives [toISOString] and the parsing constructor. *)
Lemma Date_of_toISOString t :
  valid_time t ->
  exists s, toISOString (TimeValue t) = Ok s /\ Date_of_string s = TimeValue t.
Proof.
  unfold valid_time, maxTime. intros Ht. unfold toISOString.
  destruct (YearMonthDate (t / msPerDay)) as [[y m] d] eqn:Ecal.
  destruct (MakeDay_YearMonthDate _ _ _ _ Ecal) as (Hday & Hm & Hd & Hy).
  eexists. split; [reflexivity|].
  assert (Hms : 0 <= t mod msPerDay < msPerDay) by (apply Z.mod_pos_bound; reflexivity).
  destruct (time_of_day _ Hms) as (Hh & Hmi & Hs & Hmilli & Hsum).
  assert (Hdays : -100000000 <= t / msPerDay <= 100000000).
  { unfold msPerDay. split.
    - apply Z.div_le_lower_bound; lia.
    - apply Z.div_le_upper_bound; lia. }
  assert (Hera : -680 <= (t / msPerDay + 719468) / 146097 < 690).
  { split.
    - apply Z.div_le_lower_bound; lia.
    - apply Z.div_lt_upper_bound; lia. }
  assert (Hyear : -999999 <= y <= 999999) by lia.
  unfold Date_of_string, parse_fields.
  rewrite read_year_string by exact Hyear. cbn [bindO append expect Ascii.eqb Bool.eqb].
  rewrite (read_digits_pad 2) by (cbn; lia). cbn [bindO append expect Ascii.eqb Bool.eqb].
  rewrite (read_digits_pad 2) by (cbn; lia). cbn [bindO append expect Ascii.eqb Bool.eqb].
  rewrite (read_digits_pad 2) by (cbn; lia). cbn [bindO append expect Ascii.eqb Bool.eqb].
  rewrite (read_digits_pad 2) by (cbn; lia). cbn [bindO append expect Ascii.eqb Bool.eqb].
  rewrite (read_digits_pad 2) by (cbn; lia). cbn [bindO append expect Ascii.eqb Bool.eqb].
  rewrite (read_digits_pad 3) by (cbn; lia). cbn [bindO append expect Ascii.eqb Bool.eqb].
  replace (0 * 10 ^ Z.of_nat 2 + m) with m by lia.
  replace (0 * 10 ^ Z.of_nat 2 + d) with d by lia.
  replace (0 * 10 ^ Z.of_nat 2 + t mod msPerDay / 3600000)
    with (t mod msPerDay / 3600000) by lia.
  replace (0 * 10 ^ Z.of_nat 2 + t mod msPerDay / 60000 mod 60)
    with (t mod msPerDay / 60000 mod 60) by lia.
  replace (0 * 10 ^ Z.of_nat 2 + t mod msPerDay / 1000 mod 60)
    with (t mod msPerDay / 1000 mod 60) by lia.
  replace (0 * 10 ^ Z.of_nat 3 + t mod msPerDay mod 1000)
    with (t mod msPerDay mod 1000) by lia.
  replace ((1 <=? m) && (m <=? 12) && (1 <=? d) && (d <=? 31)
           && (t mod msPerDay / 3600000 <=? 23)
           && (t mod msPerDay / 60000 mod 60 <=? 59)
           && (t mod msPerDay / 1000 mod 60 <=? 59)) with true.
  2:{ symmetry. repeat (apply andb_true_iff; split); apply Z.leb_le; lia. }
  rewrite Hday.
  replace (t / msPerDay * msPerDay + t mod msPerDay / 3600000 * 3600000
           + t mod msPerDay / 60000 mod 60 * 60000
           + t mod msPerDay / 1000 mod 60 * 1000 + t mod msPerDay mod 1000) with t.
  2:{ pose proof (Z.div_mod t msPerDay). unfold msPerDay in *. lia. }
  assert (C : (- maxTime <=? t) && (t <=? maxTime) = true).
  { unfold maxTime. apply andb_true_iff. split; apply Z.leb_le; lia. }
  unfold TimeClip. rewrite C. reflexivity.
Qed.
End ISO.

Section RoundTrip.
Import SemanTestCapability.

Lemma normalized_present this :
  cap_parameters this <> None ->
  cap_conditions this <> None ->
  cap_examples this <> None ->
  normalized this = this.
Proof.
  destruct this as [i n ty de se pa re va ti rt co ex cr up].
  unfold normalized, getParameters, getConditions, getExamples.
  cbn. intros Hp Hc He.
  destruct pa; [|contradiction]. destruct co; [|contradiction].
  destruct ex; [|contradiction]. reflexivity.
Qed.

(** Claim C2, as amended.  For a capability whose two dates are valid,
    [fromJSON] of [toJSON] rebuilds every field, the dates through their
    ISO strings, except that an absent [parameters], [conditions] or
    [examples] comes back as the empty array; a capability that holds
    the three arrays is rebuilt as it was. *)
Theorem capability_json_round_trip this created updated :
  cap_createdAt this = TimeValue created -> valid_time created ->
  cap_updatedAt this = TimeValue updated -> valid_time updated ->
  exists json,
    toJSON this = Ok json
    /\ fromJSON json = normalized this
    /\ (cap_parameters this <> None -> cap_conditions this <> None ->
        cap_examples this <> None -> fromJSON json = this).
Proof.
  intros Hc Vc Hu Vu.
  destruct (Date_of_toISOString created Vc) as (sc & Hsc & Hpc).
  destruct (Date_of_toISOString updated Vu) as (su & Hsu & Hpu).
  unfold toJSON, getCreatedAt, getUpdatedAt. rewrite Hc, Hu, Hsc, Hsu.
  cbn [bindR]. eexists. split; [reflexivity|].
  assert (E : fromJSON
                {| json_id := getId this;
                   json_name := getName this;
                   json_type := getType this;
                   json_description := getDescription this;
                   json_selector := getSelector this;
                   json_parameters := Some (getParameters this);
                   json_returnType := getReturnType this;
                   json_validation := getValidation this;
                   json_timeout := getTimeout this;
                   json_retries := getRetries this;
                   json_conditions := Some (getConditions this);
                   json_examples := Some (getExamples this);
                   json_createdAt := sc;
                   json_updatedAt := su |} = normalized this).
  { unfold fromJSON, normalized.
    cbn [json_id json_name json_type json_description json_selector json_parameters
         json_returnType json_validation json_timeout json_retries json_conditions
         json_examples json_createdAt json_updatedAt].
    rewrite Hpc, Hpu, Hc, Hu. reflexivity. }
  split; [exact E|].
  intros Hp Hco He. rewrite E. now apply normalized_present.
Qed.
End RoundTrip.

(** ** The properties on the sample data *)








(** A capability without [parameters] comes back with the empty
    array, and a capability that holds an invalid date cannot be
    serialized. *)
Lemma capability_json_round_trip_counterexample :
  (exists json,
      SemanTestCapability.toJSON Samples.refresh_capability = Ok json
      /\ cap_parameters Samples.refresh_capability = None
      /\ cap_parameters (SemanTestCapability.fromJSON json) = Some []
      /\ SemanTestCapability.fromJSON json <> Samples.refresh_capability)
  /\ SemanTestCapability.toJSON Samples.undated_capability
     = Throw {| error_name := "RangeError"; error_message := "Invalid time value" |}.
Proof.
  split; [|reflexivity].
  eexists. split; [reflexivity|]. split; [reflexivity|]. split; [reflexivity|].
  intros H. apply (f_equal cap_parameters) in H. discriminate H.
Qed.

(** The round trip of a capability dated at the epoch. *)
Lemma capability_json_round_trip_witness :
  (cap_createdAt Samples.lookup_capability = TimeValue 0 /\ valid_time 0
   /\ cap_updatedAt Samples.lookup_capability = TimeValue 0 /\ valid_time 0)
  /\ exists json,
       SemanTestCapability.toJSON Samples.lookup_capability = Ok json
       /\ SemanTestCapability.fromJSON json = normalized Samples.lookup_capability.
Proof.
  assert (V : valid_time 0) by (unfold valid_time, maxTime; lia).
  split; [repeat split; first [reflexivity | apply V]|].
  destruct (capability_json_round_trip Samples.lookup_capability 0 0 eq_refl V eq_refl V)
    as (json & Hj & Hn & _).
  exists json. split; [exact Hj|exact Hn].
Defined.

(** Adding a capability to the contract of the scenario. *)
Lemma with_operations_frame_witness :
  allocated (Samples.login_world (Samples.login_capability "cap-login" "login" "Log in")
               "login") Samples.login_contract
  /\ exists this' w',
       SemanTestContract.withCapability Samples.login_contract "refresh"
         Samples.refresh_capability
         (Samples.login_world (Samples.login_capability "cap-login" "login" "Log in") "login")
       = (Ok this', w')
       /\ SemanTestContract.view w' Samples.login_contract
          = SemanTestContract.view
              (Samples.login_world (Samples.login_capability "cap-login" "login" "Log in")
                 "login")
              Samples.login_contract.
Proof.
  assert (A : allocated
                (Samples.login_world (Samples.login_capability "cap-login" "login" "Log in")
                   "login") Samples.login_contract).
  { split; cbn; lia. }
  split; [exact A|].
  destruct (with_operations_frame Samples.login_contract _ A) as (Hcap & _).
  destruct (Hcap "refresh" Samples.refresh_capability) as (this' & w' & Hrun & _ & Hsame & _).
  exists this', w'. split; [exact Hrun|exact Hsame].
Defined.

(** Claim C3, a defect of the code.  The contract of the scenario has
    the capability [login] alone, and the step of its workflow names
    [constructor], which is not a key of the capability map.  The
    test [in] finds [Object.prototype.constructor]: [validate] reports
    no error and a valid contract, where the step that names
    [logout], not a key either, is reported. *)
Theorem dangling_reference_unreported :
  has_key "constructor"
    (capabilities_at
       (Samples.login_world (Samples.login_capability "cap-login" "login" "Log in")
          "constructor")
       (contract_capabilities Samples.login_contract)) = false
  /\ map step_capability (wf_steps (Samples.signIn_workflow "constructor"))
     = ["constructor"]
  /\ SemanTestContract.validate Samples.sample_RegExp Samples.login_contract
       (Samples.login_world (Samples.login_capability "cap-login" "login" "Log in")
          "constructor")
     = (Ok {| valid := true; errors := []; warnings := []; timestamp := TimeValue 1001 |},
        tick (tick (Samples.login_world
                      (Samples.login_capability "cap-login" "login" "Log in")
                      "constructor")))
  /\ SemanTestContract.validate Samples.sample_RegExp Samples.login_contract
       (Samples.login_world (Samples.login_capability "cap-login" "login" "Log in")
          "logout")
     = (Ok {| valid := false;
              errors := ["Workflow 'signIn' references unknown capability 'logout'"];
              warnings := [];
              timestamp := TimeValue 1001 |},
        tick (tick (Samples.login_world
                      (Samples.login_capability "cap-login" "login" "Log in")
                      "logout"))).
Proof. repeat split. Qed.

(** A contract whose capability throws while it is validated, and the
    contract of the scenario with a step that names [logout]. *)
Lemma contract_validate_report_witness :
  (exists r w',
      SemanTestContract.validate Samples.sample_RegExp Samples.login_contract
        (Samples.login_world Samples.search_capability "login")
      = (Ok r, w')
      /\ In "Capability 'login': Invalid regular expression: /(/: Unterminated group"
            (errors r)
      /\ valid r = false)
  /\ exists r w',
       SemanTestContract.validate Samples.sample_RegExp Samples.login_contract
         (Samples.login_world (Samples.login_capability "cap-login" "login" "Log in")
            "logout")
       = (Ok r, w')
       /\ errors r = [dangling_message "signIn" "logout"]
       /\ valid r = false.
Proof.
  split.
  - destruct (contract_validate_report Samples.sample_RegExp Samples.login_contract
                (Samples.login_world Samples.search_capability "login"))
      as (r & w' & Hrun & Hcaps & _).
    exists r, w'. split; [exact Hrun|].
    destruct (Hcaps "login" Samples.search_capability (or_introl eq_refl)) as [Hthrow _].
    apply (Hthrow {| error_name := "SyntaxError";
                     error_message :=
                       "Invalid regular expression: /(/: Unterminated group" |}).
    intros w. exists w. reflexivity.
  - destruct (contract_validate_report Samples.sample_RegExp Samples.login_contract
                (Samples.login_world (Samples.login_capability "cap-login" "login" "Log in")
                   "logout"))
      as (r & w' & Hrun & _ & _ & _ & Hone & _).
    exists r, w'. split; [exact Hrun|].
    apply (Hone 0%nat "signIn" (Samples.signIn_workflow "logout")
             (Samples.step_invoking "logout")); try reflexivity.
    intros cname capability [[= <- <-]|[]].
    exists []. intros w. eexists _, _. split; [reflexivity|]. repeat split.
Defined.

(** Bounds of 0 on a string and on a number. *)
Lemma falsy_bounds_not_enforced_witness :
  SemanTestCapability.validateParameters Samples.sample_RegExp
    (Samples.login_capability_with
       [Samples.plain_parameter "user" PString true
          (Some (Samples.bounded_validation (Some 0) (Some 0) (Some "") None None))])
    [("user", VString "alice")]
  = Ok {| params_valid := true; params_errors := []; params_warnings := [] |}
  /\ SemanTestCapability.validateParameters Samples.sample_RegExp
       (Samples.login_capability_with
          [Samples.plain_parameter "age" PNumber true
             (Some (Samples.bounded_validation None None None (Some 0) (Some 0)))])
       [("age", VNumber (-1))]
     = Ok {| params_valid := false;
             params_errors := ["Parameter 'age' must be at least 0"];
             params_warnings := [] |}.
Proof.
  destruct (falsy_bounds_not_enforced Samples.sample_RegExp)
    as (_ & _ & _ & Hstring & _ & _ & Hnumber).
  split.
  - apply (Hstring
             (Samples.login_capability_with
                [Samples.plain_parameter "user" PString true
                   (Some (Samples.bounded_validation (Some 0) (Some 0) (Some "") None None))])
             "user" "alice"
             (Samples.plain_parameter "user" PString true
                (Some (Samples.bounded_validation (Some 0) (Some 0) (Some "") None None))));
      reflexivity.
  - apply (Hnumber
             (Samples.login_capability_with
                [Samples.plain_parameter "age" PNumber true
                   (Some (Samples.bounded_validation None None None (Some 0) (Some 0)))])
             "age" (-1)
             (Samples.plain_parameter "age" PNumber true
                (Some (Samples.bounded_validation None None None (Some 0) (Some 0)))));
      first [reflexivity | discriminate].
Defined.

(** * Further properties *)

(** ** Argument validation: warnings, order, validity *)

Section ArgumentReports.
Import SemanTestCapability.
Variable RegExp : string -> Result (string -> bool).
















End ArgumentReports.

Section ArgumentAcceptance.
Import SemanTestCapability.
Variable RegExp : string -> Result (string -> bool).

Lemma app_nil_iff {A : Type} (a b : list A) : (a ++ b)%list = [] <-> a = [] /\ b = [].
Proof.
  split.
  - intros H. now apply app_eq_nil in H.
  - intros [-> ->]. reflexivity.
Qed.










End ArgumentAcceptance.

Section ArgumentErrors.
Import SemanTestCapability.
Variable RegExp : string -> Result (string -> bool).











End ArgumentErrors.

(** ** The parameters of a capability *)

Section ParameterAccessors.
Import SemanTestCapability.

(** X8.  [getRequiredParameters] and [getOptionalParameters] split the
    declared parameters in two: every parameter is in exactly one of
    them, in declaration order, one whose [required] is absent being
    optional; [requiresParameters] says that some parameter is
    required. *)
Theorem required_optional_partition this :
  (forall p, In p (getParameters this)
             <-> In p (getRequiredParameters this) \/ In p (getOptionalParameters this))
  /\ (forall p, In p (getRequiredParameters this) -> param_required p = Some true)
  /\ (forall p, In p (getOptionalParameters this) -> param_required p <> Some true)
  /\ (List.length (getRequiredParameters this) + List.length (getOptionalParameters this)
      = List.length (getParameters this))%nat
  /\ (requiresParameters this = true
      <-> exists p, In p (getParameters this) /\ param_required p = Some true).
Proof.
  unfold getRequiredParameters, getOptionalParameters, requiresParameters,
    getRequiredParameters.
  assert (T : forall p, truthy_opt (fun b : bool => b) (param_required p) = true
                        <-> param_required p = Some true).
  { intros p. unfold truthy_opt. destruct (param_required p) as [[|]|];
      split; intros H; try reflexivity; discriminate. }
  repeat split.
  - intros H. destruct (truthy_opt (fun b : bool => b) (param_required p)) eqn:E.
    + left. apply filter_In. now split.
    + right. apply filter_In. split; [exact H|]. now rewrite E.
  - intros [H|H]; apply filter_In in H; tauto.
  - intros p H. apply filter_In in H. now apply T.
  - intros p H. apply filter_In in H. destruct H as [_ H]. intros E.
    apply T in E. rewrite E in H. discriminate.
  - induction (getParameters this) as [|p l IH]; [reflexivity|].
    cbn [filter]. destruct (truthy_opt _ (param_required p)); cbn [negb List.length]; lia.
  - intros H. induction (getParameters this) as [|p l IH]; [discriminate|].
    cbn [filter] in H. destruct (truthy_opt _ (param_required p)) eqn:E.
    + exists p. split; [now left|now apply T].
    + destruct (IH H) as (q & Hq & Hr). exists q. split; [now right|exact Hr].
  - intros (p & Hp & Hr). apply T in Hr.
    assert (Hin : In p (filter (fun param => truthy_opt (fun b : bool => b)
                                               (param_required param))
                          (getParameters this))) by (apply filter_In; now split).
    destruct (filter _ (getParameters this)); [contradiction|reflexivity].
Qed.

(** X9.  [getParameter] returns the first declaration of the name, and
    [hasParameter] says whether there is one: a later declaration of
    the same name is never returned. *)
Theorem getParameter_first_declaration this name :
  match getParameter this name with
  | Some def =>
      param_name def = name
      /\ hasParameter this name = true
      /\ exists before after,
           getParameters this = (before ++ def :: after)%list
           /\ forall p, In p before -> param_name p <> name
  | None =>
      hasParameter this name = false
      /\ forall p, In p (getParameters this) -> param_name p <> name
  end.
Proof.
  unfold getParameter, hasParameter.
  induction (getParameters this) as [|p l IH]; cbn [find existsb].
  - split; [reflexivity|intros ? []].
  - destruct (String.eqb (param_name p) name) eqn:E.
    + apply String.eqb_eq in E. split; [exact E|]. split; [reflexivity|].
      exists [], l. split; [reflexivity|intros ? []].
    + apply String.eqb_neq in E. cbn [orb].
      destruct (find _ l) as [def|].
      * destruct IH as (Hn & Hh & before & after & -> & Hb).
        split; [exact Hn|]. split; [exact Hh|].
        exists (p :: before), after. split; [reflexivity|].
        intros q [<-|Hq]; [exact E|now apply Hb].
      * destruct IH as [Hh Hall]. split; [exact Hh|].
        intros q [<-|Hq]; [exact E|now apply Hall].
Qed.
End ParameterAccessors.

(** ** The report of a capability *)

Section CapabilityReport.
Import SemanTestCapability.
Variable RegExp : string -> Result (string -> bool).

Lemma ParameterType_name_truthy type : truthy_string (ParameterType_name type) = true.
Proof. destruct type; reflexivity. Qed.

Lemma check_parameter_loop params seen errs :
  exists seen',
    fold_left check_parameter params (seen, errs)
    = (seen', (errs ++ declaration_errors seen params)%list).
Proof.
  revert seen errs. induction params as [|p rest IH]; intros seen errs;
    cbn [fold_left declaration_errors].
  - exists seen. now rewrite app_nil_r.
  - unfold check_parameter at 2. rewrite ParameterType_name_truthy. cbn [negb].
    match goal with
    | |- context [fold_left check_parameter rest (?s, ?e)] =>
        destruct (IH s e) as [seen' ->]
    end.
    exists seen'. f_equal. unfold push.
    destruct (existsb _ seen), (truthy_string (param_name p)); cbn [negb app];
      rewrite <- ?app_assoc; reflexivity.
Qed.

Lemma fallback_loop selectors warns :
  for_of selectors
    (fun selector warnings =>
       Ok (if negb (isValidCSSSelector selector)
           then push warnings ("Fallback selector '" ++ selector ++ "' may not be valid CSS")
           else warnings))
    warns
  = Ok (warns ++ map fallback_message
                     (filter (fun selector => negb (isValidCSSSelector selector))
                             selectors))%list.
Proof.
  revert warns. induction selectors as [|s rest IH]; intros warns; cbn [for_of filter map].
  - now rewrite app_nil_r.
  - cbn [bindR]. rewrite IH. destruct (isValidCSSSelector s); cbn [negb map].
    + reflexivity.
    + unfold push, fallback_message. now rewrite <- app_assoc.
Qed.

Lemma check_selectors_run this warns :
  check_selectors this warns = Ok (warns ++ selector_warnings this)%list.
Proof.
  unfold check_selectors, selector_warnings. cbv zeta. rewrite fallback_loop.
  cbn [try_catchR]. unfold push.
  destruct (truthy_string (getPrimarySelector this) && _); cbn [app];
    rewrite <- ?app_assoc; reflexivity.
Qed.

Lemma example_loop_run this entries errs warns :
  (forall index example, In (index, example) entries ->
     patterns_compile RegExp this (ex_parameters example)) ->
  for_of entries (check_example RegExp this) (errs, warns)
  = Ok ((errs ++ flat_map (example_errors RegExp this) entries)%list,
        (warns ++ description_warnings entries)%list).
Proof.
  revert errs warns. induction entries as [|[index example] entries IH];
    intros errs warns H; cbn [for_of flat_map].
  - unfold description_warnings. cbn [filter map]. now rewrite !app_nil_r.
  - destruct (validateParameters_returns RegExp this (ex_parameters example)
                (H index example (or_introl eq_refl))) as [r Hr].
    unfold check_example at 1, example_errors at 1. cbn [fst snd]. rewrite Hr.
    cbn [bindR]. rewrite IH by (intros i x Hin; apply (H i x); now right).
    unfold description_warnings. cbn [filter snd fst]. unfold push.
    destruct (params_valid r), (truthy_string (ex_description example));
      cbn [negb map app fst]; rewrite <- ?app_assoc; reflexivity.
Qed.

(** The report of [validate] in closed form. *)
Lemma capability_validate_run this w :
  examples_compile RegExp this ->
  validate RegExp this w
  = (Ok {| valid :=
             (List.length
                (capability_field_errors this
                 ++ declaration_errors [] (getParameters this)
                 ++ flat_map (example_errors RegExp this)
                      (Array_entries (getExamples this)))%list =? 0)%nat;
           errors :=
             (capability_field_errors this
              ++ declaration_errors [] (getParameters this)
              ++ flat_map (example_errors RegExp this)
                   (Array_entries (getExamples this)))%list;
           warnings :=
             (selector_warnings this
              ++ description_warnings (Array_entries (getExamples this)))%list;
           timestamp := TimeValue (clock w (ticks w)) |}, tick w).
Proof.
  intros H. unfold validate. cbv zeta.
  match goal with
  | |- context [fold_left check_parameter _ (_, ?e)] =>
      replace e with (capability_field_errors this)
  end.
  2:{ unfold capability_field_errors, getId, getName, getDescription, push.
      destruct (truthy_string (cap_id this)), (truthy_string (cap_name this)),
        (truthy_string (cap_description this)),
        (truthy_string (getPrimarySelector this)); reflexivity. }
  unfold bind, lift. rewrite check_selectors_run. cbn [app].
  destruct (check_parameter_loop (getParameters this) [] (capability_field_errors this))
    as [seen ->].
  rewrite example_loop_run.
  2:{ intros index example Hin. apply H. unfold Array_entries in Hin.
      eapply in_combine_r. exact Hin. }
  unfold new_Date, ret. rewrite <- !app_assoc. reflexivity.
Qed.



Lemma flat_map_nil {A B : Type} (f : A -> list B) (l : list A) :
  flat_map f l = [] <-> forall x, In x l -> f x = [].
Proof.
  induction l as [|a l IH]; cbn [flat_map].
  - split; [intros _ ? []|reflexivity].
  - rewrite app_nil_iff, IH. split.
    + intros [H1 H2] x [<-|Hx]; [exact H1|now apply H2].
    + intros H. split; [apply H; now left|]. intros x Hx. apply H. now right.
Qed.



Lemma unless_nil {A : Type} (b : bool) (x : A) :
  (if b then [] else [x]) = [] <-> b = true.
Proof. destruct b; split; intros H; try reflexivity; discriminate. Qed.

Lemma length_zero_nil {A : Type} (l : list A) : (List.length l =? 0)%nat = true <-> l = [].
Proof. destruct l; split; intros H; try reflexivity; discriminate. Qed.








End CapabilityReport.

(** ** Serialization of capabilities and contracts *)

Section CapabilityJson.
Import SemanTestCapability.



(** X14.  A JSON object that holds the three arrays and whose dates are
    ISO strings comes back unchanged from [fromJSON] followed by
    [toJSON]: serialization is stable on its own output. *)
Theorem capability_json_stable json created updated :
  valid_time created -> valid_time updated ->
  toISOString (TimeValue created) = Ok (json_createdAt json) ->
  toISOString (TimeValue updated) = Ok (json_updatedAt json) ->
  json_parameters json <> None ->
  json_conditions json <> None ->
  json_examples json <> None ->
  toJSON (fromJSON json) = Ok json.
Proof.
  intros Vc Vu Hc Hu Hp Hco He.
  destruct (Date_of_toISOString created Vc) as (sc & Hsc & Pc).
  destruct (Date_of_toISOString updated Vu) as (su & Hsu & Pu).
  rewrite Hc in Hsc. injection Hsc as <-. rewrite Hu in Hsu. injection Hsu as <-.
  destruct json as [i n ty de se pa re va ti rt co ex cr up].
  cbn [json_createdAt json_updatedAt json_parameters json_conditions json_examples] in *.
  unfold toJSON, fromJSON, getCreatedAt, getUpdatedAt.
  cbn [json_id json_name json_type json_description json_selector json_parameters
       json_returnType json_validation json_timeout json_retries json_conditions
       json_examples json_createdAt json_updatedAt cap_createdAt cap_updatedAt].
  rewrite Pc, Pu, Hc, Hu. cbn [bindR].
  destruct pa; [|contradiction]. destruct co; [|contradiction].
  destruct ex; [|contradiction]. reflexivity.
Qed.
End CapabilityJson.

Section ContractJson.
Import SemanTestContract.

Lemma has_key_In {V : Type} key (obj : JsRecord V) :
  has_key key obj = true <-> In key (Object_keys obj).
Proof.
  unfold has_key, Object_keys. rewrite existsb_exists, in_map_iff. split.
  - intros (kv & Hin & E). apply String.eqb_eq in E. now exists kv.
  - intros (kv & E & Hin). exists kv. split; [exact Hin|]. now apply String.eqb_eq.
Qed.










Lemma toISOString_cases d :
  (d = InvalidDate /\ toISOString d = Throw invalid_time_error)
  \/ (d <> InvalidDate /\ exists s, toISOString d = Ok s).
Proof.
  destruct d as [|t]; [left; now split|right]. split; [discriminate|].
  unfold toISOString. destruct (YearMonthDate _) as [[y m] dd]. eexists. reflexivity.
Qed.

Lemma capability_toJSON_cases capability :
  (capability_undated capability
   /\ SemanTestCapability.toJSON capability = Throw invalid_time_error)
  \/ (~ capability_undated capability
      /\ exists json, SemanTestCapability.toJSON capability = Ok json).
Proof.
  unfold capability_undated, SemanTestCapability.toJSON, SemanTestCapability.getCreatedAt,
    SemanTestCapability.getUpdatedAt.
  destruct (toISOString_cases (cap_createdAt capability)) as [[A ->]|(A & sc & ->)];
    [left; split; [now left|reflexivity]|].
  destruct (toISOString_cases (cap_updatedAt capability)) as [[B ->]|(B & su & ->)];
    [left; split; [now right|reflexivity]|].
  right. split; [tauto|]. eexists. reflexivity.
Qed.

Lemma serialize_loop_cases entries acc :
  ((exists name capability, In (name, capability) entries /\ capability_undated capability)
   /\ for_of entries serialize_capability acc = Throw invalid_time_error)
  \/ ((forall name capability, In (name, capability) entries ->
         ~ capability_undated capability)
      /\ exists capabilities, for_of entries serialize_capability acc = Ok capabilities).
Proof.
  revert acc. induction entries as [|[name capability] rest IH]; intros acc; cbn [for_of].
  - right. split; [intros ? ? []|]. eexists. reflexivity.
  - unfold serialize_capability at 1 3.
    destruct (capability_toJSON_cases capability) as [[A ->]|(A & json & ->)];
      cbn [bindR].
    + left. split; [|reflexivity]. exists name, capability. split; [now left|exact A].
    + destruct (IH (set_property name json acc)) as [[(n & c & Hin & U) ->]|(N & J & ->)].
      * left. split; [|reflexivity]. exists n, c. split; [now right|exact U].
      * right. split; [|eexists; reflexivity].
        intros n c [[= <- <-]|Hin]; [exact A|now apply (N n c)].
Qed.

(** X16.  [toJSON] of a contract has no handler: it throws the
    [RangeError] of [toISOString] when the contract or one of its
    capabilities holds an invalid date, and returns in every other
    case; it does not change the store. *)
Theorem contract_toJSON_invalid_date this w :
  (contract_undated w this -> toJSON this w = (Throw invalid_time_error, w))
  /\ (~ contract_undated w this -> exists json, toJSON this w = (Ok json, w)).
Proof.
  unfold contract_undated, toJSON, bind, read_capabilities, ret, lift, Object_entries,
    getCreatedAt, getUpdatedAt.
  destruct (serialize_loop_cases (capabilities_at w (contract_capabilities this)) [])
    as [[A ->]|(A & J & ->)].
  - split; [reflexivity|]. intros N. elim N. now left.
  - destruct (toISOString_cases (contract_createdAt this)) as [[B ->]|(B & sc & ->)].
    + split; [reflexivity|]. intros N. elim N. right. now left.
    + destruct (toISOString_cases (contract_updatedAt this)) as [[C ->]|(C & su & ->)].
      * split; [reflexivity|]. intros N. elim N. right. now right.
      * split; [|intros _; eexists; reflexivity].
        intros [(n & c & Hin & U)|[U|U]]; [elim (A n c Hin U)|contradiction|contradiction].
Qed.
End ContractJson.

(** ** The report of a contract *)

Section ContractReport.
Import SemanTestContract.
Variable RegExp : string -> Result (string -> bool).

Lemma ticked_store n w :
  capabilityMaps (ticked n w) = capabilityMaps w
  /\ workflowMaps (ticked n w) = workflowMaps w
  /\ clock (ticked n w) = clock w
  /\ ticks (ticked n w) = (n + ticks w)%nat.
Proof.
  induction n as [|n IH]; cbn [ticked]; [repeat split|].
  destruct IH as (A & B & C & D).
  unfold tick. cbn [capabilityMaps workflowMaps clock ticks].
  rewrite A, B, C, D. repeat split.
Qed.

Lemma ticked_tick n w : ticked n (tick w) = ticked (S n) w.
Proof. induction n as [|n IH]; cbn [ticked]; [reflexivity|now rewrite IH]. Qed.

Lemma check_capability_full name capability errs warns w :
  check_capability RegExp (name, capability) (errs, warns) w
  = (Ok ((errs ++ capability_errors RegExp name capability)%list,
         (warns ++ capability_warning RegExp (name, capability))%list),
     if validate_returns RegExp capability then tick w else w).
Proof.
  unfold check_capability, capability_errors, capability_warning, validate_returns,
    try_catch, bind.
  cbn [fst snd].
  destruct (capability_validate_cases RegExp capability) as [[e H]|(es & ws & H)];
    rewrite !H; cbn [fst].
  - unfold ret, push, thrown_message. now rewrite app_nil_r.
  - cbn [valid errors warnings ret]. unfold push, reported_message, reported_warning.
    destruct (List.length es =? 0)%nat, (0 <? List.length ws)%nat; cbn [negb];
      rewrite ?app_nil_r; reflexivity.
Qed.

Lemma capability_loop_full entries errs warns w :
  for_each entries (check_capability RegExp) (errs, warns) w
  = (Ok ((errs ++ flat_map (fun entry => capability_errors RegExp (fst entry) (snd entry))
                           entries)%list,
         (warns ++ flat_map (capability_warning RegExp) entries)%list),
     ticked (returning RegExp entries) w).
Proof.
  revert errs warns w. induction entries as [|[name capability] entries IH];
    intros errs warns w; cbn [for_each flat_map fst snd].
  - unfold ret. now rewrite !app_nil_r.
  - unfold bind at 1. rewrite check_capability_full, IH, <- !app_assoc.
    unfold returning. cbn [filter snd].
    destruct (validate_returns RegExp capability); cbn [List.length];
      [rewrite ticked_tick|]; reflexivity.
Qed.

(** The run of [validate] in closed form. *)
Lemma contract_validate_full this w :
  validate RegExp this w
  = (Ok {| valid :=
             (List.length
                (required_field_errors this
                 ++ flat_map (fun entry => capability_errors RegExp (fst entry) (snd entry))
                      (capabilities_at w (contract_capabilities this))
                 ++ workflow_errors w this)%list =? 0)%nat;
           errors :=
             (required_field_errors this
              ++ flat_map (fun entry => capability_errors RegExp (fst entry) (snd entry))
                   (capabilities_at w (contract_capabilities this))
              ++ workflow_errors w this)%list;
           warnings :=
             ((if (List.length (capabilities_at w (contract_capabilities this)) =? 0)%nat
               then [no_capabilities_warning] else [])
              ++ flat_map (capability_warning RegExp)
                   (capabilities_at w (contract_capabilities this)))%list;
           timestamp :=
             TimeValue
               (clock w (returning RegExp (capabilities_at w (contract_capabilities this))
                         + ticks w)) |},
     ticked (S (returning RegExp (capabilities_at w (contract_capabilities this)))) w).
Proof.
  unfold validate.
  match goal with
  | |- context [for_each _ (check_capability RegExp) (?e, _)] =>
      replace e with (required_field_errors this)
  end.
  2:{ unfold required_field_errors, getId, getVersion, getDomain, getTitle, push.
      destruct (truthy_string (contract_id this)), (truthy_string (contract_version this)),
        (truthy_string (contract_domain this)), (truthy_string (contract_title this));
        reflexivity. }
  unfold bind at 1. unfold bind at 1. unfold read_capabilities at 1. unfold ret at 1.
  unfold bind at 1. unfold bind at 1. unfold read_capabilities at 1. unfold ret at 1.
  unfold bind at 1. unfold Object_entries, Object_keys, getCapabilities.
  rewrite capability_loop_full, length_map.
  set (n := returning RegExp (capabilities_at w (contract_capabilities this))).
  destruct (ticked_store n w) as (Hcaps & Hwfs & Hclock & Hticks).
  assert (Hc : capabilities_at (ticked n w) (contract_capabilities this)
               = capabilities_at w (contract_capabilities this)).
  { unfold capabilities_at. now rewrite Hcaps. }
  assert (W : (push [] "Contract has no capabilities defined" ++
               flat_map (capability_warning RegExp)
                 (capabilities_at w (contract_capabilities this)))%list
              = ([no_capabilities_warning] ++
                 flat_map (capability_warning RegExp)
                   (capabilities_at w (contract_capabilities this)))%list)
    by reflexivity.
  unfold bind at 1. unfold workflow_errors, getWorkflows.
  destruct (contract_workflows this) as [workflows|].
  - unfold bind at 1. unfold bind at 1. unfold read_workflows at 1. unfold ret at 1.
    unfold Object_entries. rewrite workflow_loop.
    unfold bind, new_Date, ret. rewrite Hc, Hclock, Hticks.
    unfold workflows_at. rewrite Hwfs, <- !app_assoc.
    change (tick (ticked n w)) with (ticked (S n) w).
    destruct (List.length (capabilities_at w (contract_capabilities this)) =? 0)%nat;
      reflexivity.
  - unfold ret at 1. unfold bind, new_Date, ret. rewrite Hclock, Hticks, app_nil_r.
    change (tick (ticked n w)) with (ticked (S n) w).
    destruct (List.length (capabilities_at w (contract_capabilities this)) =? 0)%nat;
      reflexivity.
Qed.

Lemma filter_none {A : Type} (f : A -> bool) (l : list A) :
  (forall x, In x l -> f x = false) -> filter f l = [].
Proof.
  induction l as [|a l IH]; intros H; cbn [filter]; [reflexivity|].
  rewrite (H a (or_introl eq_refl)). apply IH. intros x Hx. apply H. now right.
Qed.

Lemma required_field_errors_nil this :
  required_field_errors this = []
  <-> truthy_string (getId this) = true
      /\ truthy_string (getVersion this) = true
      /\ truthy_string (getDomain this) = true
      /\ truthy_string (getTitle this) = true.
Proof.
  unfold required_field_errors, getId, getVersion, getDomain, getTitle.
  rewrite !app_nil_iff, !unless_nil. reflexivity.
Qed.

Lemma capability_errors_nil name capability :
  capability_errors RegExp name capability = [] <-> capability_valid RegExp capability.
Proof.
  unfold capability_errors, capability_valid.
  destruct (capability_validate_cases RegExp capability) as [[e H]|(es & ws & H)];
    rewrite H; cbn [fst valid].
  - split; [discriminate|]. intros A. destruct (A empty_world) as (r & w' & B & _).
    rewrite H in B. discriminate B.
  - split.
    + intros A w. rewrite H. eexists _, _. split; [reflexivity|]. cbn [valid].
      destruct (List.length es =? 0)%nat; [reflexivity|discriminate].
    + intros A. destruct (A empty_world) as (r & w' & B & V). rewrite H in B.
      injection B as <- _. cbn [valid] in V. now rewrite V.
Qed.

Lemma workflow_errors_nil w this : workflow_errors w this = [] <-> steps_resolved w this.
Proof.
  unfold workflow_errors, steps_resolved.
  destruct (contract_workflows this) as [workflows|].
  - rewrite flat_map_nil. split.
    + intros A wfs name workflow step [= <-] Hin Hs.
      specialize (A (name, workflow) Hin). unfold dangling_errors in A. cbn [fst snd] in A.
      destruct (has_property (step_capability step) _) eqn:K; [reflexivity|].
      assert (B : In step (filter (fun step =>
                                     negb (has_property (step_capability step)
                                             (capabilities_at w (contract_capabilities this))))
                             (wf_steps workflow))).
      { apply filter_In. split; [exact Hs|]. now rewrite K. }
      destruct (filter _ (wf_steps workflow)); [destruct B|discriminate A].
    + intros A [name workflow] Hin. unfold dangling_errors. cbn [fst snd].
      rewrite filter_none; [reflexivity|]. intros step Hs.
      now rewrite (A workflows name workflow step eq_refl Hin Hs).
  - split; [intros _ ? ? ? ? H; discriminate H|reflexivity].
Qed.

(** X17.  A contract is valid exactly when its identifier, version,
    domain and title are not empty, the validation of each of its
    capabilities returns a valid report, and every step of every
    workflow names something that [in] finds in the capability map: a
    capability of the contract or a member of [Object.prototype]. *)
Theorem contract_valid_characterized this w :
  exists r w',
    validate RegExp this w = (Ok r, w')
    /\ (valid r = true
        <-> truthy_string (getId this) = true
            /\ truthy_string (getVersion this) = true
            /\ truthy_string (getDomain this) = true
            /\ truthy_string (getTitle this) = true
            /\ (forall name capability,
                   In (name, capability) (capabilities_at w (contract_capabilities this)) ->
                   capability_valid RegExp capability)
            /\ steps_resolved w this).
Proof.
  eexists _, _. split; [apply contract_validate_full|]. cbn [valid].
  rewrite length_zero_nil, !app_nil_iff, required_field_errors_nil, workflow_errors_nil,
    flat_map_nil.
  split.
  - intros ((A1 & A2 & A3 & A4) & C & S). repeat split; try assumption.
    intros name capability Hin. apply (capability_errors_nil name). exact (C _ Hin).
  - intros (A1 & A2 & A3 & A4 & C & S). repeat split; try assumption.
    intros [name capability] Hin. cbn [fst snd]. apply capability_errors_nil.
    exact (C name capability Hin).
Qed.

(** X18.  The report of a contract warns ["Contract has no capabilities
    defined"] exactly when the capability map is empty; this is then
    its only warning, and its errors are those of the required fields
    and of the workflow steps that [in] does not resolve, which with
    no capability are the steps that do not name a member of
    [Object.prototype]. *)
Theorem no_capabilities_warned this w :
  exists r w',
    validate RegExp this w = (Ok r, w')
    /\ (In no_capabilities_warning (warnings r)
        <-> capabilities_at w (contract_capabilities this) = [])
    /\ (capabilities_at w (contract_capabilities this) = [] ->
        warnings r = [no_capabilities_warning]
        /\ errors r = (required_field_errors this ++ workflow_errors w this)%list).
Proof.
  eexists _, _. split; [apply contract_validate_full|]. cbn [warnings errors]. split.
  - destruct (capabilities_at w (contract_capabilities this)) as [|entry entries] eqn:E.
    + split; [reflexivity|]. intros _. now left.
    + split; [|discriminate]. cbn [List.length Nat.eqb app]. intros H.
      apply in_flat_map in H. destruct H as ((name & capability) & _ & H).
      unfold capability_warning in H. cbn [fst snd] in H.
      destruct (fst (SemanTestCapability.validate RegExp capability empty_world))
        as [r|]; [|destruct H].
      destruct (0 <? List.length (warnings r))%nat; [|destruct H].
      destruct H as [H|[]]. unfold reported_warning, no_capabilities_warning in H.
      cbn [append] in H. discriminate H.
  - intros ->. split; reflexivity.
Qed.

(** X19.  Validation only reads: [validate] of a contract and of a
    capability leave every map object and the clock as they were, and
    the contract reads the same in the world after.  The timestamp of
    the report of a contract is the last reading of the clock. *)
Theorem validate_reads_only :
  (forall this w,
      exists r w',
        validate RegExp this w = (Ok r, w')
        /\ same_store w w'
        /\ view w' this = view w this
        /\ (ticks w < ticks w')%nat
        /\ timestamp r = TimeValue (clock w (Nat.pred (ticks w'))))
  /\ (forall capability w,
        same_store w (snd (SemanTestCapability.validate RegExp capability w))).
Proof.
  split.
  - intros this w. eexists _, _. split; [apply contract_validate_full|].
    cbn [timestamp].
    set (n := returning RegExp (capabilities_at w (contract_capabilities this))).
    destruct (ticked_store (S n) w) as (A & B & C & D).
    split; [repeat split; assumption|]. split.
    + unfold view, capabilities_at, workflows_at. now rewrite A, B.
    + rewrite D. split; [lia|reflexivity].
  - intros capability w. apply capability_validate_store.
Qed.
End ContractReport.

(** ** The maps of a contract under the "with" operations *)

Section RecordLaws.
Context {V : Type}.
Implicit Types (obj : JsRecord V) (key other : string).

Lemma get_property_set_same key (v : V) obj :
  get_property key (set_property key v obj) = Some v.
Proof.
  unfold get_property. induction obj as [|[k x] rest IH]; cbn [set_property find fst].
  - now rewrite String.eqb_refl.
  - destruct (String.eqb k key) eqn:E; cbn [find fst]; rewrite E; [reflexivity|exact IH].
Qed.

Lemma get_property_set_other key other (v : V) obj :
  other <> key -> get_property other (set_property key v obj) = get_property other obj.
Proof.
  intros N. unfold get_property.
  induction obj as [|[k x] rest IH]; cbn [set_property find fst].
  - apply not_eq_sym in N. apply String.eqb_neq in N. now rewrite N.
  - destruct (String.eqb k key) eqn:E; cbn [find fst].
    + apply String.eqb_eq in E. subst k. apply not_eq_sym in N.
      apply String.eqb_neq in N. now rewrite N.
    + destruct (String.eqb k other); [reflexivity|exact IH].
Qed.

Lemma has_key_get_property key obj :
  has_key key obj = match get_property key obj with Some _ => true | None => false end.
Proof.
  unfold has_key, get_property. induction obj as [|[k x] rest IH]; cbn [existsb find fst].
  - reflexivity.
  - destruct (String.eqb k key); [reflexivity|exact IH].
Qed.

Lemma Object_keys_set key (v : V) obj :
  Object_keys (set_property key v obj)
  = if has_key key obj then Object_keys obj else (Object_keys obj ++ [key])%list.
Proof.
  unfold Object_keys, has_key.
  induction obj as [|[k x] rest IH]; cbn [set_property map existsb fst app].
  - reflexivity.
  - destruct (String.eqb k key) eqn:E; cbn [map fst orb]; [reflexivity|].
    rewrite IH. now destruct (existsb _ rest).
Qed.

Lemma get_property_delete_same key obj : get_property key (delete_property key obj) = None.
Proof.
  unfold get_property, delete_property.
  induction obj as [|[k x] rest IH]; cbn [filter find fst]; [reflexivity|].
  destruct (String.eqb k key) eqn:E; cbn [negb find fst]; [exact IH|].
  now rewrite E.
Qed.

Lemma get_property_delete_other key other obj :
  other <> key -> get_property other (delete_property key obj) = get_property other obj.
Proof.
  intros N. unfold get_property, delete_property.
  induction obj as [|[k x] rest IH]; cbn [filter find fst]; [reflexivity|].
  destruct (String.eqb k key) eqn:E; cbn [negb find fst].
  - apply String.eqb_eq in E. subst k. apply not_eq_sym in N.
    apply String.eqb_neq in N. now rewrite N.
  - destruct (String.eqb k other); [reflexivity|exact IH].
Qed.

Lemma Object_keys_delete key obj :
  Object_keys (delete_property key obj)
  = filter (fun name => negb (String.eqb name key)) (Object_keys obj).
Proof.
  unfold Object_keys, delete_property.
  induction obj as [|[k x] rest IH]; cbn [filter map fst]; [reflexivity|].
  destruct (String.eqb k key); cbn [negb map fst]; now rewrite IH.
Qed.

Lemma delete_property_absent key obj :
  has_key key obj = false -> delete_property key obj = obj.
Proof.
  unfold has_key, delete_property.
  induction obj as [|[k x] rest IH]; cbn [filter existsb fst]; [reflexivity|].
  destruct (String.eqb k key); cbn [orb negb]; [discriminate|].
  intros H. now rewrite IH.
Qed.

Lemma delete_set_property key (v : V) obj :
  delete_property key (set_property key v obj) = delete_property key obj.
Proof.
  unfold delete_property.
  induction obj as [|[k x] rest IH]; cbn [set_property filter fst].
  - now rewrite String.eqb_refl.
  - destruct (String.eqb k key) eqn:E; cbn [filter fst]; rewrite E; cbn [negb];
      [reflexivity|now rewrite IH].
Qed.
Lemma get_member_set_same key (v : V) obj :
  get_member key (set_property key v obj) = OwnValue v.
Proof. unfold get_member. now rewrite get_property_set_same. Qed.

Lemma get_member_set_other key other (v : V) obj :
  other <> key -> get_member other (set_property key v obj) = get_member other obj.
Proof. intros N. unfold get_member. now rewrite get_property_set_other. Qed.

Lemma get_member_delete_same key obj :
  get_member key (delete_property key obj)
  = if inherited key then InheritedValue key else Undefined.
Proof. unfold get_member. now rewrite get_property_delete_same. Qed.

Lemma get_member_delete_other key other obj :
  other <> key -> get_member other (delete_property key obj) = get_member other obj.
Proof. intros N. unfold get_member. now rewrite get_property_delete_other. Qed.

Lemma has_property_get_member key obj :
  has_property key obj
  = match get_member key obj with
    | Undefined => false
    | _ => true
    end.
Proof.
  unfold has_property, get_member. rewrite has_key_get_property.
  destruct (get_property key obj); [reflexivity|]. now destruct (inherited key).
Qed.
End RecordLaws.

Section MapOperations.
Import SemanTestContract.

Lemma withoutCapability_run this name w :
  exists this' w',
    withoutCapability this name w = (Ok this', w')
    /\ capabilities_at w' (contract_capabilities this')
       = delete_property name (capabilities_at w (contract_capabilities this))
    /\ workflowMaps w' = workflowMaps w
    /\ contract_workflows this' = contract_workflows this.
Proof.
  eexists _, _. split; [reflexivity|].
  cbn [contract_capabilities contract_workflows capabilities_at capabilityMaps workflowMaps
       clock ticks tick].
  rewrite update_at_fresh. split; [|repeat split].
  unfold capabilities_at at 1. cbn [tick capabilityMaps]. apply nth_fresh.
Qed.

Lemma withWorkflow_run this name workflow w :
  exists this' w' workflows,
    withWorkflow this name workflow w = (Ok this', w')
    /\ contract_workflows this' = Some workflows
    /\ workflows_at w' workflows = set_property name workflow (workflows_or_empty w this)
    /\ capabilityMaps w' = capabilityMaps w
    /\ contract_capabilities this' = contract_capabilities this.
Proof.
  unfold withWorkflow, spread_workflows, workflows_or_empty.
  destruct (contract_workflows this) as [r|].
  - eexists _, _, _. split; [reflexivity|].
    cbn [contract_capabilities contract_workflows workflows_at capabilityMaps workflowMaps
         clock ticks tick].
    rewrite update_at_fresh. split; [reflexivity|]. split; [|repeat split].
    unfold workflows_at at 1. cbn [tick workflowMaps]. apply nth_fresh.
  - eexists _, _, _. split; [reflexivity|].
    cbn [contract_capabilities contract_workflows workflows_at capabilityMaps workflowMaps
         clock ticks tick].
    rewrite update_at_fresh. split; [reflexivity|]. split; [|repeat split].
    unfold workflows_at at 1. cbn [tick workflowMaps]. apply nth_fresh.
Qed.

(** X20.  After [withCapability] under a name that is not an integer
    index and not ["__proto__"], the new contract has the capability
    under the name, every other name reads as in the original, and
    the names are those of the original in their order, the name
    added last when it is new. *)
Theorem withCapability_lookup this name capability w :
  ordinary_key name = true ->
  exists this' w',
    withCapability this name capability w = (Ok this', w')
    /\ fst (getCapability this' name w') = Ok (OwnValue capability)
    /\ fst (hasCapability this' name w') = Ok true
    /\ (forall other, other <> name ->
          fst (getCapability this' other w') = fst (getCapability this other w)
          /\ fst (hasCapability this' other w') = fst (hasCapability this other w))
    /\ fst (getCapabilityNames this' w')
       = Ok (if has_key name (capabilities_at w (contract_capabilities this))
             then Object_keys (capabilities_at w (contract_capabilities this))
             else (Object_keys (capabilities_at w (contract_capabilities this))
                   ++ [name])%list).
Proof.
  intros _.
  destruct (withCapability_run this name capability w) as (this' & w' & Hrun & Hc & _).
  exists this', w'. split; [exact Hrun|].
  unfold getCapability, hasCapability, getCapabilityNames, bind, read_capabilities, ret.
  cbn [fst]. rewrite Hc, !has_property_get_member, get_member_set_same.
  split; [reflexivity|]. split; [reflexivity|]. split.
  - intros other N. rewrite !has_property_get_member, get_member_set_other by exact N.
    split; reflexivity.
  - now rewrite Object_keys_set.
Qed.

(** X21.  After [withoutCapability] the capability map of the new
    contract has no key of the name: [getCapability] returns
    [undefined] and [hasCapability] false, unless the name is that of
    a member of [Object.prototype], which both still find.  Every
    other name reads as in the original, and the names are those of
    the original without the name, in their order; removing a name
    that is not a key leaves the capabilities as they were. *)
Theorem withoutCapability_lookup this name w :
  exists this' w',
    withoutCapability this name w = (Ok this', w')
    /\ fst (getCapability this' name w')
       = Ok (if inherited name then InheritedValue name else Undefined)
    /\ fst (hasCapability this' name w') = Ok (inherited name)
    /\ (forall other, other <> name ->
          fst (getCapability this' other w') = fst (getCapability this other w)
          /\ fst (hasCapability this' other w') = fst (hasCapability this other w))
    /\ fst (getCapabilityNames this' w')
       = Ok (filter (fun other => negb (String.eqb other name))
               (Object_keys (capabilities_at w (contract_capabilities this))))
    /\ (has_key name (view_capabilities (view w this)) = false ->
        view_capabilities (view w' this') = view_capabilities (view w this)).
Proof.
  destruct (withoutCapability_run this name w) as (this' & w' & Hrun & Hc & _).
  exists this', w'. split; [exact Hrun|].
  unfold getCapability, hasCapability, getCapabilityNames, bind, read_capabilities, ret,
    view.
  cbn [fst view_capabilities]. rewrite Hc, !has_property_get_member, get_member_delete_same.
  split; [reflexivity|]. split; [now destruct (inherited name)|]. split; [|split].
  - intros other N. rewrite !has_property_get_member, get_member_delete_other by exact N.
    split; reflexivity.
  - now rewrite Object_keys_delete.
  - intros H. now apply delete_property_absent.
Qed.

(** X22.  Adding a capability and then removing it gives the
    capability map of the original without the name; when the name is
    new (it is not a key of the map, as when [hasCapability] is
    false), the map of the original itself, with its order. *)
Theorem with_then_without this name capability w :
  exists this1 w1 this2 w2,
    withCapability this name capability w = (Ok this1, w1)
    /\ withoutCapability this1 name w1 = (Ok this2, w2)
    /\ view_capabilities (view w2 this2)
       = delete_property name (view_capabilities (view w this))
    /\ (has_key name (view_capabilities (view w this)) = false ->
        view_capabilities (view w2 this2) = view_capabilities (view w this))
    /\ (fst (hasCapability this name w) = Ok false ->
        view_capabilities (view w2 this2) = view_capabilities (view w this)).
Proof.
  destruct (withCapability_run this name capability w) as (this1 & w1 & Hrun1 & Hc1 & _).
  destruct (withoutCapability_run this1 name w1) as (this2 & w2 & Hrun2 & Hc2 & _).
  exists this1, w1, this2, w2. split; [exact Hrun1|]. split; [exact Hrun2|].
  unfold view. cbn [view_capabilities].
  rewrite Hc2, Hc1, delete_set_property. split; [reflexivity|]. split.
  - intros H. now apply delete_property_absent.
  - unfold hasCapability, bind, read_capabilities, ret, has_property. cbn [fst].
    intros [= H]. apply orb_false_iff in H. now apply delete_property_absent.
Qed.

(** X23.  After [withWorkflow] under a name that is not an integer
    index and not ["__proto__"], [getWorkflow] returns the workflow
    under the name.  On a contract that has workflows every other name
    reads as in the original.  A contract without workflows gets a map
    with this workflow alone: [getWorkflow], which returned
    [undefined] for every name, now finds the members of
    [Object.prototype] under their names. *)
Theorem withWorkflow_lookup this name workflow w :
  ordinary_key name = true ->
  exists this' w',
    withWorkflow this name workflow w = (Ok this', w')
    /\ fst (getWorkflow this' name w') = Ok (OwnValue workflow)
    /\ (contract_workflows this <> None ->
        forall other, other <> name ->
          fst (getWorkflow this' other w') = fst (getWorkflow this other w))
    /\ (contract_workflows this = None ->
        (forall other, fst (getWorkflow this other w) = Ok Undefined)
        /\ (forall other, other <> name ->
              fst (getWorkflow this' other w')
              = Ok (if inherited other then InheritedValue other else Undefined))
        /\ view_workflows (view w' this') = Some [(name, workflow)]).
Proof.
  intros _.
  destruct (withWorkflow_run this name workflow w)
    as (this' & w' & workflows & Hrun & Hw & Hat & _).
  exists this', w'. split; [exact Hrun|].
  assert (Hget : forall key,
             fst (getWorkflow this' key w')
             = Ok (get_member key (set_property name workflow (workflows_or_empty w this)))).
  { intros key. unfold getWorkflow. rewrite Hw. unfold bind, read_workflows, ret.
    cbn [fst]. now rewrite Hat. }
  split; [now rewrite Hget, get_member_set_same|]. split.
  - intros E other N. rewrite Hget, get_member_set_other by exact N.
    unfold getWorkflow, workflows_or_empty.
    destruct (contract_workflows this); [reflexivity|]. now elim E.
  - intros E. split; [|split].
    + intros other. unfold getWorkflow. now rewrite E.
    + intros other N. rewrite Hget, get_member_set_other by exact N.
      unfold workflows_or_empty. rewrite E. unfold get_member. cbn [get_property].
      reflexivity.
    + unfold view. cbn [view_workflows]. rewrite Hw. cbn [option_map]. rewrite Hat.
      unfold workflows_or_empty. now rewrite E.
Qed.
End MapOperations.

Section ContractEvolution.
Import SemanTestContract.
Variable RegExp : string -> Result (string -> bool).

(** X24.  Removing a capability that a step of a workflow invokes
    gives a contract that is not valid: its report holds the error of
    the dangling step, the name of the capability not being that of a
    member of [Object.prototype].  [withoutCapability] does not look
    at the workflows. *)
Theorem withoutCapability_breaks_workflow this w workflows wname workflow step :
  contract_workflows this = Some workflows ->
  In (wname, workflow) (workflows_at w workflows) ->
  In step (wf_steps workflow) ->
  inherited (step_capability step) = false ->
  exists this' w' r w'',
    withoutCapability this (step_capability step) w = (Ok this', w')
    /\ validate RegExp this' w' = (Ok r, w'')
    /\ In (dangling_message wname (step_capability step)) (errors r)
    /\ valid r = false.
Proof.
  intros Hw Hin Hs Hn.
  destruct (withoutCapability_run this (step_capability step) w)
    as (this' & w' & Hrun & Hc & Hwf & Hsame).
  exists this', w'. eexists _, _. split; [exact Hrun|].
  split; [apply contract_validate_full|]. cbn [errors valid].
  assert (A : In (dangling_message wname (step_capability step)) (workflow_errors w' this')).
  { apply (dangling_error_reported w' this' workflows wname workflow step).
    - now rewrite Hsame.
    - unfold workflows_at. rewrite Hwf. exact Hin.
    - exact Hs.
    - unfold has_property.
      now rewrite Hc, Hn, has_key_get_property, get_property_delete_same. }
  split.
  - apply in_or_app. right. apply in_or_app. now right.
  - eapply nonempty_invalid. apply in_or_app. right. apply in_or_app. right. exact A.
Qed.

Lemma grows_refl w : grows w w.
Proof. split; exists []; now rewrite app_nil_r. Qed.

Lemma grows_trans w1 w2 w3 : grows w1 w2 -> grows w2 w3 -> grows w1 w3.
Proof.
  intros [[c1 A1] [f1 B1]] [[c2 A2] [f2 B2]]. split.
  - exists (c1 ++ c2)%list. now rewrite A2, A1, app_assoc.
  - exists (f1 ++ f2)%list. now rewrite B2, B1, app_assoc.
Qed.

Lemma grows_preserved w w' : grows w w' -> objects_preserved w w'.
Proof.
  intros [[c A] [f B]]. split; intros r Hr.
  - unfold capabilities_at. rewrite A. now apply app_nth1.
  - unfold workflows_at. rewrite B. now apply app_nth1.
Qed.

Lemma apply_operation_run op this w :
  allocated w this ->
  exists this' w',
    apply_operation op this w = (Ok this', w')
    /\ same_identity this this'
    /\ contract_updatedAt this' = TimeValue (clock w (ticks w))
    /\ ticks w' = S (ticks w)
    /\ clock w' = clock w
    /\ grows w w'
    /\ allocated w' this'.
Proof.
  intros [Hc Hw]. destruct op as [name capability|name|metadata|name workflow];
    cbn [apply_operation].
  - eexists _, _. split; [reflexivity|].
    cbn [capabilityMaps workflowMaps clock ticks tick]. rewrite update_at_fresh.
    split; [repeat split|]. split; [reflexivity|]. split; [reflexivity|].
    split; [reflexivity|]. split.
    + split; [eexists; reflexivity|exists []; now rewrite app_nil_r].
    + split; cbn [contract_capabilities contract_workflows capabilityMaps workflowMaps tick].
      * rewrite length_app. cbn [List.length]. lia.
      * exact Hw.
  - eexists _, _. split; [reflexivity|].
    cbn [capabilityMaps workflowMaps clock ticks tick]. rewrite update_at_fresh.
    split; [repeat split|]. split; [reflexivity|]. split; [reflexivity|].
    split; [reflexivity|]. split.
    + split; [eexists; reflexivity|exists []; now rewrite app_nil_r].
    + split; cbn [contract_capabilities contract_workflows capabilityMaps workflowMaps tick].
      * rewrite length_app. cbn [List.length]. lia.
      * exact Hw.
  - eexists _, _. split; [reflexivity|].
    split; [repeat split|]. split; [reflexivity|]. split; [reflexivity|].
    split; [reflexivity|]. split; [|split; [exact Hc|exact Hw]].
    split; exists []; cbn [tick capabilityMaps workflowMaps]; now rewrite app_nil_r.
  - unfold withWorkflow, spread_workflows.
    destruct (contract_workflows this) as [r|].
    + eexists _, _. split; [reflexivity|].
      cbn [capabilityMaps workflowMaps clock ticks tick]. rewrite update_at_fresh.
      split; [repeat split|]. split; [reflexivity|]. split; [reflexivity|].
      split; [reflexivity|]. split.
      * split; [exists []; now rewrite app_nil_r|eexists; reflexivity].
      * split; cbn [contract_capabilities contract_workflows capabilityMaps workflowMaps tick].
        -- exact Hc.
        -- rewrite length_app. cbn [List.length]. lia.
    + eexists _, _. split; [reflexivity|].
      cbn [capabilityMaps workflowMaps clock ticks tick]. rewrite update_at_fresh.
      split; [repeat split|]. split; [reflexivity|]. split; [reflexivity|].
      split; [reflexivity|]. split.
      * split; [exists []; now rewrite app_nil_r|eexists; reflexivity].
      * split; cbn [contract_capabilities contract_workflows capabilityMaps workflowMaps tick].
        -- exact Hc.
        -- rewrite length_app. cbn [List.length]. lia.
Qed.

Lemma apply_operations_run ops this w :
  allocated w this ->
  exists this' w',
    apply_operations ops this w = (Ok this', w')
    /\ same_identity this this'
    /\ (ops <> [] ->
        contract_updatedAt this' = TimeValue (clock w (ticks w + List.length ops - 1)))
    /\ ticks w' = (ticks w + List.length ops)%nat
    /\ clock w' = clock w
    /\ grows w w'
    /\ allocated w' this'.
Proof.
  unfold apply_operations. revert this w.
  induction ops as [|op ops IH]; intros this w Ha; cbn [for_each List.length].
  - exists this, w. split; [reflexivity|]. split; [repeat split|].
    split; [intros N; now elim N|]. split; [lia|]. split; [reflexivity|].
    split; [apply grows_refl|exact Ha].
  - destruct (apply_operation_run op this w Ha)
      as (this1 & w1 & Hrun & Hid & Hup & Ht & Hcl & Hg & Ha1).
    unfold bind at 1. rewrite Hrun.
    destruct (IH this1 w1 Ha1) as (this2 & w2 & Hrun2 & Hid2 & Hup2 & Ht2 & Hcl2 & Hg2 & Ha2).
    exists this2, w2. split; [exact Hrun2|]. split; [|split; [|split; [|split; [|split]]]].
    + destruct Hid as (A1 & A2 & A3 & A4 & A5 & A6), Hid2 as (B1 & B2 & B3 & B4 & B5 & B6).
      repeat split; congruence.
    + intros _. destruct ops as [|op2 ops].
      * cbn [for_each] in Hrun2. injection Hrun2 as <- <-. rewrite Hup.
        cbn [List.length]. do 2 f_equal. lia.
      * rewrite Hup2 by discriminate. rewrite Hcl, Ht. do 2 f_equal.
        cbn [List.length]. lia.
    + rewrite Ht2, Ht. lia.
    + now rewrite Hcl2.
    + eapply grows_trans; eassumption.
    + exact Ha2.
Qed.

(** X25.  Any sequence of "with" operations returns a contract with
    the identifier, version, domain, title, description and creation
    date of the original, each operation reading the clock once and
    the date of update being the reading of the last one.  The
    sequence only adds map objects: the original contract reads as
    before. *)
Theorem operations_preserve_identity ops this w :
  allocated w this ->
  exists this' w',
    apply_operations ops this w = (Ok this', w')
    /\ same_identity this this'
    /\ (ops <> [] ->
        contract_updatedAt this' = TimeValue (clock w (ticks w + List.length ops - 1)))
    /\ ticks w' = (ticks w + List.length ops)%nat
    /\ view w' this = view w this
    /\ objects_preserved w w'
    /\ allocated w' this'.
Proof.
  intros Ha.
  destruct (apply_operations_run ops this w Ha)
    as (this' & w' & Hrun & Hid & Hup & Ht & _ & Hg & Ha').
  exists this', w'. split; [exact Hrun|]. split; [exact Hid|]. split; [exact Hup|].
  split; [exact Ht|]. apply grows_preserved in Hg. split; [|split; assumption].
  now apply view_preserved.
Qed.
End ContractEvolution.

(** ** The factories *)

Section Factories.
Variable RegExp : string -> Result (string -> bool).

(** X26.  [create] of a capability checks nothing and never fails: it
    stamps both dates with one reading of the clock, and a capability
    created without options has no parameters, conditions or examples.
    Its validation afterwards holds exactly the errors of the empty
    fields among identifier, name, description and primary selector. *)
Theorem create_then_validate id name type description selector w :
  exists this r,
    SemanTestCapability.create id name type description selector None w = (Ok this, tick w)
    /\ SemanTestCapability.getCreatedAt this = TimeValue (clock w (ticks w))
    /\ SemanTestCapability.getUpdatedAt this = SemanTestCapability.getCreatedAt this
    /\ SemanTestCapability.getParameters this = []
    /\ SemanTestCapability.getConditions this = []
    /\ SemanTestCapability.getExamples this = []
    /\ SemanTestCapability.validate RegExp this (tick w) = (Ok r, tick (tick w))
    /\ errors r = capability_field_errors this
    /\ (valid r = true
        <-> truthy_string id = true
            /\ truthy_string name = true
            /\ truthy_string description = true
            /\ truthy_string (SemanTestCapability.getPrimarySelector this) = true).
Proof.
  eexists _, _. split; [reflexivity|]. split; [reflexivity|]. split; [reflexivity|].
  split; [reflexivity|]. split; [reflexivity|]. split; [reflexivity|].
  split; [apply capability_validate_run; intros example []|].
  cbn [errors valid]. split.
  - unfold SemanTestCapability.getParameters, SemanTestCapability.getExamples,
      SemanTestCapability.optional, Array_entries.
    cbn [cap_parameters cap_examples declaration_errors List.length seq combine flat_map].
    now rewrite !app_nil_r.
  - unfold SemanTestCapability.getParameters, SemanTestCapability.getExamples,
      SemanTestCapability.optional, Array_entries.
    cbn [cap_parameters cap_examples declaration_errors List.length seq combine flat_map].
    rewrite !app_nil_r, length_zero_nil. unfold capability_field_errors.
    cbn [cap_id cap_name cap_description].
    rewrite !app_nil_iff, !unless_nil. reflexivity.
Qed.

(** X27.  [create] of a contract keeps the capability map it is given,
    the same object and not a copy, and allocates nothing; the "with"
    operations copy before they write, so a contract derived from the
    created one holds another object and the map given to [create]
    stays as it was. *)
Theorem create_shares_map id version domain title capabilities options w name capability :
  exists this w1 this' w2,
    SemanTestContract.create id version domain title capabilities options w = (Ok this, w1)
    /\ SemanTestContract.getCapabilities this = capabilities
    /\ capabilityMaps w1 = capabilityMaps w
    /\ workflowMaps w1 = workflowMaps w
    /\ SemanTestContract.getCreatedAt this = TimeValue (clock w (ticks w))
    /\ SemanTestContract.getUpdatedAt this = SemanTestContract.getCreatedAt this
    /\ SemanTestContract.withCapability this name capability w1 = (Ok this', w2)
    /\ SemanTestContract.getCapabilities this' = List.length (capabilityMaps w)
    /\ ((capabilities < List.length (capabilityMaps w))%nat ->
        SemanTestContract.getCapabilities this' <> capabilities
        /\ capabilities_at w2 capabilities = capabilities_at w capabilities).
Proof.
  eexists _, _, _, _. split; [reflexivity|]. split; [reflexivity|]. split; [reflexivity|].
  split; [reflexivity|]. split; [reflexivity|]. split; [reflexivity|].
  split; [reflexivity|]. split; [reflexivity|].
  intros H. cbn [SemanTestContract.getCapabilities contract_capabilities tick capabilityMaps].
  split; [lia|].
  unfold capabilities_at. cbn [capabilityMaps tick contract_capabilities].
  rewrite update_at_fresh. now apply nth_old.
Qed.
End Factories.

(** ** The registry of ports *)

Section PortRegistry.
Variable Port : Type.
Implicit Types (ports : Ports.Registry Port) (port other : Ports.PortClass).

(** X28.  [get] returns the implementation that the last [set] gave
    for the port.  The registry is keyed by the name of the port
    class: a [set] for another class of the same name replaces the
    implementation, and a [set] for a class of another name does not
    change what [get] returns. *)
Theorem ports_set_get ports port (implementation : Port) :
  Ports.get Port (Ports.set Port ports port implementation) port = Ok implementation
  /\ (forall other,
        Ports.class_name other = Ports.class_name port ->
        Ports.get Port (Ports.set Port ports port implementation) other
        = Ok implementation)
  /\ (forall other,
        Ports.class_name other <> Ports.class_name port ->
        Ports.get Port (Ports.set Port ports port implementation) other
        = Ports.get Port ports other)
  /\ (forall later : Port,
        Ports.get Port
          (Ports.set Port (Ports.set Port ports port implementation) port later) port
        = Ok later).
Proof.
  unfold Ports.get, Ports.set. repeat split.
  - now rewrite get_property_set_same.
  - intros other E. now rewrite E, get_property_set_same.
  - intros other N. now rewrite get_property_set_other.
  - intros later. now rewrite get_property_set_same.
Qed.

(** X29.  [get] throws the error ["Port <name> not found"] exactly
    when no implementation is registered under the name of the port
    class, and returns in every other case; after [clear] it throws
    for every port. *)
Theorem ports_get_unregistered ports port :
  (has_key (Ports.class_name port) ports = false
   <-> Ports.get Port ports port
       = Throw {| error_name := "Error";
                  error_message := "Port " ++ Ports.class_name port ++ " not found" |})
  /\ (has_key (Ports.class_name port) ports = true
      <-> exists implementation, Ports.get Port ports port = Ok implementation)
  /\ Ports.get Port (Ports.clear Port ports) port
     = Throw {| error_name := "Error";
                error_message := "Port " ++ Ports.class_name port ++ " not found" |}.
Proof.
  unfold Ports.get, Ports.clear. rewrite has_key_get_property.
  destruct (get_property (Ports.class_name port) ports) as [implementation|].
  - split; [split; discriminate|]. split; [|reflexivity].
    split; [intros _; now exists implementation|reflexivity].
  - split; [split; reflexivity|]. split; [|reflexivity].
    split; [discriminate|intros [implementation H]; discriminate H].
Qed.
End PortRegistry.

(** ** The further properties on the sample data *)










(** The JSON object of [refresh], dated 14 November 2023. *)
Lemma capability_json_stable_witness :
  (valid_time 1700000000000
   /\ toISOString (TimeValue 1700000000000) = Ok "2023-11-14T22:13:20.000Z")
  /\ SemanTestCapability.toJSON (SemanTestCapability.fromJSON Samples.refresh_json)
     = Ok Samples.refresh_json.
Proof.
  assert (V : valid_time 1700000000000) by (unfold valid_time, maxTime; lia).
  split; [split; [exact V|reflexivity]|].
  apply (capability_json_stable Samples.refresh_json 1700000000000 1700000000000 V V);
    first [reflexivity | discriminate].
Defined.


(** A contract whose capability holds an invalid date. *)
Lemma contract_toJSON_invalid_date_witness :
  contract_undated (Samples.login_world Samples.undated_capability "login")
    Samples.login_contract
  /\ SemanTestContract.toJSON Samples.login_contract
       (Samples.login_world Samples.undated_capability "login")
     = (Throw invalid_time_error, Samples.login_world Samples.undated_capability "login").
Proof.
  assert (U : contract_undated (Samples.login_world Samples.undated_capability "login")
                Samples.login_contract).
  { left. exists "login", Samples.undated_capability. split; [now left|]. now left. }
  split; [exact U|].
  exact (proj1 (contract_toJSON_invalid_date Samples.login_contract
                  (Samples.login_world Samples.undated_capability "login")) U).
Defined.


(** The scenario's contract without the capability its workflow
    invokes. *)
Lemma withoutCapability_breaks_workflow_witness :
  (contract_workflows Samples.login_contract = Some 0%nat
   /\ In ("signIn", Samples.signIn_workflow "login")
        (workflows_at
           (Samples.login_world (Samples.login_capability "cap-login" "login" "Log in")
              "login") 0%nat)
   /\ In (Samples.step_invoking "login") (wf_steps (Samples.signIn_workflow "login"))
   /\ inherited "login" = false)
  /\ exists this' w' r w'',
       SemanTestContract.withoutCapability Samples.login_contract "login"
         (Samples.login_world (Samples.login_capability "cap-login" "login" "Log in") "login")
       = (Ok this', w')
       /\ SemanTestContract.validate Samples.sample_RegExp this' w' = (Ok r, w'')
       /\ In "Workflow 'signIn' references unknown capability 'login'" (errors r)
       /\ valid r = false.
Proof.
  split; [split; [reflexivity|split; [now left|split; [now left|reflexivity]]]|].
  exact (withoutCapability_breaks_workflow Samples.sample_RegExp Samples.login_contract
           (Samples.login_world (Samples.login_capability "cap-login" "login" "Log in")
              "login")
           0%nat "signIn" (Samples.signIn_workflow "login") (Samples.step_invoking "login")
           eq_refl (or_introl eq_refl) (or_introl eq_refl) eq_refl).
Defined.

(** The scenario's contract with a second capability, [refresh]. *)
Lemma withCapability_lookup_witness :
  ordinary_key "refresh" = true
  /\ exists this' w',
       SemanTestContract.withCapability Samples.login_contract "refresh"
         Samples.refresh_capability
         (Samples.login_world (Samples.login_capability "cap-login" "login" "Log in") "login")
       = (Ok this', w')
       /\ fst (SemanTestContract.getCapability this' "refresh" w')
          = Ok (OwnValue Samples.refresh_capability)
       /\ fst (SemanTestContract.getCapabilityNames this' w') = Ok ["login"; "refresh"].
Proof.
  split; [reflexivity|].
  destruct (withCapability_lookup Samples.login_contract "refresh" Samples.refresh_capability
              (Samples.login_world (Samples.login_capability "cap-login" "login" "Log in")
                 "login") eq_refl)
    as (this' & w' & Hrun & Hget & _ & _ & Hnames).
  exists this', w'. split; [exact Hrun|]. split; [exact Hget|exact Hnames].
Defined.

(** The scenario's contract with a second workflow, [reload]. *)
Lemma withWorkflow_lookup_witness :
  ordinary_key "reload" = true
  /\ exists this' w',
       SemanTestContract.withWorkflow Samples.login_contract "reload"
         (Samples.signIn_workflow "login")
         (Samples.login_world (Samples.login_capability "cap-login" "login" "Log in") "login")
       = (Ok this', w')
       /\ fst (SemanTestContract.getWorkflow this' "reload" w')
          = Ok (OwnValue (Samples.signIn_workflow "login"))
       /\ fst (SemanTestContract.getWorkflow this' "signIn" w')
          = Ok (OwnValue (Samples.signIn_workflow "login")).
Proof.
  split; [reflexivity|].
  destruct (withWorkflow_lookup Samples.login_contract "reload"
              (Samples.signIn_workflow "login")
              (Samples.login_world (Samples.login_capability "cap-login" "login" "Log in")
                 "login") eq_refl)
    as (this' & w' & Hrun & Hget & Hother & _).
  exists this', w'. split; [exact Hrun|]. split; [exact Hget|].
  rewrite (Hother ltac:(discriminate) "signIn" ltac:(discriminate)). reflexivity.
Defined.

(** Three operations on the contract of the scenario. *)
Lemma operations_preserve_identity_witness :
  allocated (Samples.login_world (Samples.login_capability "cap-login" "login" "Log in")
               "login") Samples.login_contract
  /\ exists this' w',
       apply_operations
         [WithCapability "refresh" Samples.refresh_capability;
          WithoutCapability "login";
          WithWorkflow "reload" (Samples.signIn_workflow "refresh")]
         Samples.login_contract
         (Samples.login_world (Samples.login_capability "cap-login" "login" "Log in") "login")
       = (Ok this', w')
       /\ same_identity Samples.login_contract this'
       /\ contract_updatedAt this' = TimeValue 1002.
Proof.
  assert (A : allocated
                (Samples.login_world (Samples.login_capability "cap-login" "login" "Log in")
                   "login") Samples.login_contract).
  { split; cbn; lia. }
  split; [exact A|].
  destruct (operations_preserve_identity
              [WithCapability "refresh" Samples.refresh_capability;
               WithoutCapability "login";
               WithWorkflow "reload" (Samples.signIn_workflow "refresh")]
              Samples.login_contract _ A) as (this' & w' & Hrun & Hid & Hup & _).
  exists this', w'. split; [exact Hrun|]. split; [exact Hid|].
  apply Hup. discriminate.
Defined.
